(** * Radio VoIP DayZ: the local HTTP bridge and its session state

    A shallow embedding of [lib/httpServer.cjs] (module [HttpServer]) and of
    the entry point [main.cjs] (module [Main]), over a small model of the
    JavaScript values the two files manipulate (module [JS]).

    Conventions of the embedding:
    - a handler is a computation over the session state, the response
      object and the list of events emitted, which may throw; [try]/[catch]
      keeps what was done before the exception;
    - a request is handled in one step: the only suspension point of a
      handler, reading the body, comes before it touches the state;
    - the body of a request is given by the outcome of reading and parsing
      it; [Date.now()] is an argument of the handler;
    - events are the calls on the window and on the console ([main.cjs]),
      or the calls of the callbacks ([createRequestHandler]). *)

From Stdlib Require Import ZArith QArith Qpower Qabs Qround List String Ascii Bool Lia Lqa.
From Stdlib Require Import DecimalString.
From Stdlib Require DecimalFacts DecimalPos DecimalN.
From Stdlib Require Import SpecFloat.
Import ListNotations.
Open Scope string_scope.
Open Scope Z_scope.

(** ** The JavaScript values the program handles *)
Module JS.

(** *** Numbers: IEEE-754 binary64, as the standard library specifies them *)

Definition prec : Z := 53.
Definition emax : Z := 1024.

Definition number := spec_float.

Definition NaN : number := S754_nan.
Definition Infinity : number := S754_infinity false.

(** The double nearest to an integer, and to a quotient of two integers
    (how a decimal literal such as [45.3] = 453/10 is read). *)
Definition of_Z (z : Z) : number := binary_normalize prec emax z 0 false.
Definition of_ratio (a b : Z) : number := SFdiv prec emax (of_Z a) (of_Z b).

(** The exact value of a finite number. *)
Definition dyadic (m : positive) (e : Z) : Q := inject_Z (Zpos m) * Qpower 2 e.

Definition number_value (x : number) : option Q :=
  match x with
  | S754_zero _ => Some 0%Q
  | S754_finite s m e => Some (if s then Qopp (dyadic m e) else dyadic m e)
  | S754_infinity _ | S754_nan => None
  end.

(** [Number::sameValueZero]: NaN equals NaN, +0 equals -0, infinities by
    sign, finite numbers by value. *)
Definition number_sameValueZero (x y : number) : bool :=
  match x, y with
  | S754_nan, S754_nan => true
  | S754_infinity s, S754_infinity t => Bool.eqb s t
  | S754_nan, _ | _, S754_nan => false
  | S754_infinity _, _ | _, S754_infinity _ => false
  | _, _ =>
      match number_value x, number_value y with
      | Some a, Some b => Qeq_bool a b
      | _, _ => false
      end
  end.

(** *** [Number::toString] (radix 10) *)

Definition Qltb (a b : Q) : bool := negb (Qle_bool b a).

(** The decimal digits of a non-negative integer. *)
Definition digits (z : Z) : string := NilZero.string_of_uint (N.to_uint (Z.to_N z)).

Fixpoint zeros (n : nat) : string :=
  match n with
  | O => ""
  | S n' => "0" ++ zeros n'
  end.

(** [v] reads back as the double [m * 2^e] (in canonical form): it lies
    between the midpoints to the neighbouring doubles, the midpoints
    themselves counting when [m] is even (round to nearest, ties to even). *)
Definition reads_back (m : positive) (e : Z) (v : Q) : bool :=
  let x := dyadic m e in
  let up := (Qpower 2 e / 2)%Q in
  let down :=
    if (Zpos m =? 2 ^ (prec - 1)) && (emin prec emax <? e)
    then (Qpower 2 e / 4)%Q else up in
  if Z.even (Zpos m)
  then Qle_bool (x - down) v && Qle_bool v (x + up)
  else Qltb (x - down) v && Qltb v (x + up).

(** The least [n], searching upward from [n], with [x < 10^n]. *)
Fixpoint magnitude (fuel : nat) (x : Q) (n : Z) : Z :=
  match fuel with
  | O => n
  | S fuel' => if Qltb x (Qpower 10 n) then n else magnitude fuel' x (n + 1)
  end.

Definition Qabs_diff (a b : Q) : Q := Qabs (a - b).

(** The number [s * 10^(n-k)] that the digits [s] stand for at the
    exponent [n], as a pair [(s, n)]. *)
Definition decimal (k : Z) (sn : Z * Z) : Q :=
  inject_Z (fst sn) * Qpower 10 (snd sn - k).

(** The numbers of [k] digits on either side of [x], where
    [10^(n-1) <= x < 10^n]: the greatest that is at most [x], and the next
    one, which has the exponent [n + 1] when the digits of the first are
    all nines. *)
Definition below (x : Q) (k n : Z) : Z * Z :=
  (Qfloor (x / Qpower 10 (n - k)), n).

Definition above (x : Q) (k n : Z) : Z * Z :=
  let lo := Qfloor (x / Qpower 10 (n - k)) in
  if lo + 1 <? 10 ^ k then (lo + 1, n) else (10 ^ (k - 1), n + 1).

(** Among the numbers of [k] digits that read back as the double, the
    one closest to it, if any: it is one of the two around the double. When
    both are as close, the one below is kept if its last digit is even. *)
Definition candidate (m : positive) (e : Z) (k n : Z) : option (Z * Z) :=
  let x := dyadic m e in
  let lo := below x k n in
  let hi := above x k n in
  match reads_back m e (decimal k lo), reads_back m e (decimal k hi) with
  | true, true =>
      let dlo := Qabs_diff (decimal k lo) x in
      let dhi := Qabs_diff (decimal k hi) x in
      if Qltb dlo dhi then Some lo
      else if Qltb dhi dlo then Some hi
      else if Z.even (fst lo) then Some lo else Some hi
  | true, false => Some lo
  | false, true => Some hi
  | false, false => None
  end.

(** The shortest digit string: the smallest [k], from [k] up, for which a
    candidate exists; the result is [(s, k, n)]. Seventeen digits always
    identify a double. *)
Fixpoint shortest (fuel : nat) (m : positive) (e : Z) (n0 k : Z) : Z * Z * Z :=
  match fuel with
  | O => (Qfloor (dyadic m e / Qpower 10 (n0 - k)), k, n0)
  | S fuel' =>
      match candidate m e k n0 with
      | Some (s, n) => (s, k, n)
      | None => shortest fuel' m e n0 (k + 1)
      end
  end.

(** Steps 6 to 10 of [Number::toString]: plain decimal notation when
    [-5 <= n <= 21], exponential notation otherwise. *)
Definition format (s k n : Z) : string :=
  let ds := digits s in
  if (-5 <=? n) && (n <=? 21) then
    if k <=? n then ds ++ zeros (Z.to_nat (n - k))
    else if 0 <? n then
      substring 0 (Z.to_nat n) ds ++ "." ++ substring (Z.to_nat n) (Z.to_nat (k - n)) ds
    else "0." ++ zeros (Z.to_nat (- n)) ++ ds
  else
    let c := if 0 <? n - 1 then "+" else "-" in
    let ex := digits (Z.abs (n - 1)) in
    if k =? 1 then ds ++ "e" ++ c ++ ex
    else substring 0 1 ds ++ "." ++ substring 1 (Z.to_nat (k - 1)) ds ++ "e" ++ c ++ ex.

Definition positive_toString (m : positive) (e : Z) : string :=
  let n0 := magnitude 700 (dyadic m e) (-330) in
  let '(s, k, n) := shortest 17 m e n0 1 in
  format s k n.

Definition Number_toString (x : number) : string :=
  match x with
  | S754_nan => "NaN"
  | S754_zero _ => "0"
  | S754_infinity false => "Infinity"
  | S754_infinity true => "-Infinity"
  | S754_finite s m e =>
      match binary_normalize prec emax (Zpos m) e false with
      | S754_finite _ m' e' =>
          (if s then "-" else "") ++ positive_toString m' e'
      | S754_infinity _ => if s then "-Infinity" else "Infinity"
      | _ => "0"
      end
  end.

Set Warnings "-register-all".

(** *** Values *)

(** What [JSON.parse] can produce, plus [undefined] (the result of reading a
    property that is not there). *)
Inductive value : Type :=
| VUndefined
| VNull
| VBool (b : bool)
| VNum (n : number)
| VStr (s : string)
| VArr (elements : list value)
| VObj (properties : list (string * value)).

Definition typeof (v : value) : string :=
  match v with
  | VUndefined => "undefined"
  | VNull | VArr _ | VObj _ => "object"
  | VBool _ => "boolean"
  | VNum _ => "number"
  | VStr _ => "string"
  end.

(** [ToBoolean], the test of [if (v)], [v && ...] and [!v]. *)
Definition truthy (v : value) : bool :=
  match v with
  | VUndefined | VNull => false
  | VBool b => b
  | VNum (S754_zero _) | VNum S754_nan => false
  | VNum _ => true
  | VStr s => negb (s =? "")%string
  | VArr _ | VObj _ => true
  end.

Definition is_null (v : value) : bool :=
  match v with VNull => true | _ => false end.

Definition is_undefined (v : value) : bool :=
  match v with VUndefined => true | _ => false end.

Definition Array_isArray (v : value) : bool :=
  match v with VArr _ => true | _ => false end.

(** [SameValueZero], the comparison of [Array.prototype.includes]. Objects
    and arrays compare by identity; a parsed one is never identical to an
    element of an array literal. *)
Definition sameValueZero (x y : value) : bool :=
  match x, y with
  | VUndefined, VUndefined | VNull, VNull => true
  | VBool a, VBool b => Bool.eqb a b
  | VNum a, VNum b => number_sameValueZero a b
  | VStr a, VStr b => (a =? b)%string
  | _, _ => false
  end.

Definition includes (xs : list value) (x : value) : bool :=
  existsb (fun y => sameValueZero y x) xs.

(** [haystack.includes(needle)] on strings. *)
Definition String_includes (haystack needle : string) : bool :=
  match index 0 needle haystack with
  | Some _ => true
  | None => false
  end.

(** *** Exceptions *)

Inductive error : Type :=
| TypeError
| SyntaxError
| StreamError.

Inductive result (A : Type) : Type :=
| Ok (a : A)
| Throw (e : error).
Arguments Ok {A} a.
Arguments Throw {A} e.

(** *** Property reads

    The properties the program reads from request data. None of them is
    inherited from a prototype or built into arrays, strings, numbers or
    booleans, so on those the read yields [undefined]; on [null] and
    [undefined] it throws. *)
Inductive property : Type :=
| url_
| frequency_
| frequencies_
| earSide_.

Definition property_name (p : property) : string :=
  match p with
  | url_ => "url"
  | frequency_ => "frequency"
  | frequencies_ => "frequencies"
  | earSide_ => "earSide"
  end.

Fixpoint own (props : list (string * value)) (name : string) : option value :=
  match props with
  | [] => None
  | (k, v) :: rest => if (k =? name)%string then Some v else own rest name
  end.

Definition get (v : value) (p : property) : result value :=
  match v with
  | VUndefined | VNull => Throw TypeError
  | VObj props =>
      match own props (property_name p) with
      | Some x => Ok x
      | None => Ok VUndefined
      end
  | VBool _ | VNum _ | VStr _ | VArr _ => Ok VUndefined
  end.

(** *** [String(v)]

    On an array, [Array.prototype.join]: elements separated by commas,
    [null] and [undefined] as the empty string. On an object,
    [Object.prototype.toString] unless the object has an own [toString]
    property: parsed data holds no function, so that property is not
    callable, [valueOf] yields no primitive either, and the conversion
    throws a [TypeError]. *)
Fixpoint ToString (v : value) : result string :=
  match v with
  | VUndefined => Ok "undefined"
  | VNull => Ok "null"
  | VBool true => Ok "true"
  | VBool false => Ok "false"
  | VNum n => Ok (Number_toString n)
  | VStr s => Ok s
  | VArr xs =>
      (fix join (first : bool) (l : list value) : result string :=
         match l with
         | [] => Ok ""
         | x :: l' =>
             let piece :=
               match x with
               | VUndefined | VNull => Ok ""
               | _ => ToString x
               end in
             match piece, join false l' with
             | Ok a, Ok b => Ok ((if first then "" else ",") ++ a ++ b)
             | Throw e, _ => Throw e
             | _, Throw e => Throw e
             end
         end) true xs
  | VObj props =>
      match own props "toString" with
      | Some _ => Throw TypeError
      | None => Ok "[object Object]"
      end
  end.

(** The values [JSON.parse] returns: no [undefined], no NaN or infinity. *)
Fixpoint is_json (v : value) : bool :=
  match v with
  | VUndefined => false
  | VNull | VBool _ | VStr _ => true
  | VNum (S754_nan) | VNum (S754_infinity _) => false
  | VNum (S754_zero _) => true
  | VNum (S754_finite _ m e) => bounded prec emax m e
  | VArr xs => forallb is_json xs
  | VObj props => forallb (fun kv => is_json (snd kv)) props
  end.

End JS.

Import JS.

(** ** The session state and the request/response objects

    [main.cjs] keeps the session in four module-level variables;
    [createRequestHandler] receives an object with the same four fields.
    [mainWindow] tells whether the variable holds a window (is not [null]);
    [lastHeartbeat] is [null] or a reading of [Date.now()], in
    milliseconds. *)
Record state : Type := {
  mainWindow : bool;
  isPTTPressed : bool;
  serverURL : value;
  lastHeartbeat : option Z
}.

Definition set_isPTTPressed (b : bool) (s : state) : state :=
  {| mainWindow := mainWindow s; isPTTPressed := b;
     serverURL := serverURL s; lastHeartbeat := lastHeartbeat s |}.

Definition set_serverURL (u : value) (s : state) : state :=
  {| mainWindow := mainWindow s; isPTTPressed := isPTTPressed s;
     serverURL := u; lastHeartbeat := lastHeartbeat s |}.

Definition set_lastHeartbeat (t : option Z) (s : state) : state :=
  {| mainWindow := mainWindow s; isPTTPressed := isPTTPressed s;
     serverURL := serverURL s; lastHeartbeat := t |}.

Definition set_mainWindow (w : bool) (s : state) : state :=
  {| mainWindow := w; isPTTPressed := isPTTPressed s;
     serverURL := serverURL s; lastHeartbeat := lastHeartbeat s |}.

(** The body of a request, by what reading and parsing it comes to. *)
Inductive body : Type :=
| Empty                (* the stream ends without data *)
| Json (v : value)     (* text that [JSON.parse] accepts, and its value *)
| Malformed            (* text on which [JSON.parse] throws *)
| Aborted.             (* the stream emits ['error'] *)

Record request : Type := {
  method : string;
  url : string;
  origin : option string;   (* [req.headers.origin] *)
  payload : body
}.

(** The response object: headers set so far, the status written by
    [writeHead], and the data whose serialisation [end] sends. *)
Record response : Type := {
  headers : list (string * string);
  statusCode : option Z;
  sent : option value;
  ended : bool
}.

Definition fresh : response :=
  {| headers := []; statusCode := None; sent := None; ended := false |}.

(** ** Computations: state, response and emitted events, with exceptions *)
Section Computations.
Context {E : Type}.

Record world : Type := {
  st : state;
  res : response;
  out : list E      (* events emitted so far, oldest first *)
}.

Definition M (A : Type) : Type := world -> result A * world.

Definition ret {A} (a : A) : M A := fun w => (Ok a, w).

Definition bind {A B} (c : M A) (k : A -> M B) : M B :=
  fun w =>
    match c w with
    | (Ok a, w') => k a w'
    | (Throw e, w') => (Throw e, w')
    end.

Definition lift {A} (r : result A) : M A := fun w => (r, w).

(** [try { c } catch (e) { h }]: what [c] did before throwing stays. *)
Definition try_catch {A} (c : M A) (h : error -> M A) : M A :=
  fun w =>
    match c w with
    | (Ok a, w') => (Ok a, w')
    | (Throw e, w') => h e w'
    end.

Definition read : M state := fun w => (Ok (st w), w).

Definition update (f : state -> state) : M unit :=
  fun w => (Ok tt, {| st := f (st w); res := res w; out := out w |}).

Definition emit (e : E) : M unit :=
  fun w => (Ok tt, {| st := st w; res := res w; out := out w ++ [e] |}).

Definition respond (f : response -> response) : M unit :=
  fun w => (Ok tt, {| st := st w; res := f (res w); out := out w |}).

Definition when (b : bool) (c : M unit) : M unit :=
  if b then c else ret tt.
End Computations.
Arguments world E : clear implicits.
Arguments M E A : clear implicits.

Notation "x <- c ;; k" := (bind c (fun x => k))
  (at level 61, c at next level, right associativity).
Notation "c ;; k" := (bind c (fun _ => k))
  (at level 61, right associativity).

(** ** lib/httpServer.cjs *)
Module HttpServer.

Definition parseJSONBody (b : body) : result value :=
  match b with
  | Empty => Ok (VObj [])
  | Json v => Ok v
  | Malformed => Throw SyntaxError
  | Aborted => Throw StreamError
  end.

(** The conjunction short-circuits, so the property reads happen on a
    non-null object only; the reads are kept fallible all the same. *)
Definition isValidFrequency (freq : value) : result bool :=
  if (typeof freq =? "object")%string && negb (is_null freq) then
    match get freq frequency_ with
    | Throw e => Throw e
    | Ok f =>
        if (typeof f =? "number")%string then
          match get freq earSide_ with
          | Throw e => Throw e
          | Ok side =>
              Ok ((typeof side =? "number")%string
                  && includes [VNum (of_Z 0); VNum (of_Z 1); VNum (of_Z 2)] side)
          end
        else Ok false
    end
  else Ok false.

(** [xs.every(isValidFrequency)]: stops at the first element that fails. *)
Fixpoint every (xs : list value) : result bool :=
  match xs with
  | [] => Ok true
  | x :: rest =>
      match isValidFrequency x with
      | Throw e => Throw e
      | Ok false => Ok false
      | Ok true => every rest
      end
  end.

Definition isValidFrequenciesArray (frequencies : value) : result bool :=
  match frequencies with
  | VArr xs => every xs
  | _ => Ok false
  end.

Definition frequencyToString (frequency : value) : result string :=
  ToString frequency.

Definition setHeader (k v : string) (r : response) : response :=
  {| headers := headers r ++ [(k, v)]; statusCode := statusCode r;
     sent := sent r; ended := ended r |}.

Definition writeHead (code : Z) (hs : list (string * string)) (r : response) : response :=
  {| headers := headers r ++ hs; statusCode := Some code;
     sent := sent r; ended := ended r |}.

Definition end_ (data : option value) (r : response) : response :=
  {| headers := headers r; statusCode := statusCode r;
     sent := data; ended := true |}.

Definition setCORSHeaders {E} (origin : option string) : M E unit :=
  let local :=
    match origin with
    | Some o =>
        negb (o =? "")%string
        && (String_includes o "localhost" || String_includes o "127.0.0.1")
    | None => false
    end in
  respond (setHeader "Access-Control-Allow-Origin"
             (match origin with
              | Some o => if local then o else "http://127.0.0.1"
              | None => "http://127.0.0.1"
              end)) ;;
  respond (setHeader "Access-Control-Allow-Methods" "GET, POST, OPTIONS") ;;
  respond (setHeader "Access-Control-Allow-Headers" "Content-Type").

Definition sendJSON {E} (statusCode : Z) (data : value) : M E unit :=
  respond (writeHead statusCode [("Content-Type", "application/json")]) ;;
  respond (end_ (Some data)).

Definition getConnectionStatus (serverURL : value) (mainWindow : bool) : string :=
  if truthy serverURL then "CONNECTED"
  else if mainWindow then "WAITING_FOR_CONNECTION"
  else "DISCONNECTED".

(** The callbacks of [createRequestHandler]. Each may be missing
    ([callbacks.onX?.(...)] then does nothing); a call is recorded with its
    argument. Callbacks are taken to return normally and to leave the
    state object alone. *)
Record callbacks : Type := {
  onPTTPress : bool;
  onPTTRelease : bool;
  onConnect : bool;
  onDisconnect : bool;
  onFrequencyChange : bool;
  onFrequenciesUpdate : bool;
  onActiveChannelChange : bool;
  onEarSideChange : bool;
  onFrequencyDisconnect : bool
}.

Inductive call : Type :=
| OnPTTPress
| OnPTTRelease
| OnConnect (url : value)
| OnDisconnect (reason : string)
| OnFrequencyChange (frequency : string)
| OnFrequenciesUpdate (frequencies : value)
| OnActiveChannelChange (frequency : string)
| OnEarSideChange (change : value)
| OnFrequencyDisconnect (frequency : string).

Definition success : string * value := ("success", VBool true).
Definition failure (message : string) : value := VObj [("error", VStr message)].

(** [data.frequencies.map(f => ({frequency: frequencyToString(f.frequency),
    earSide: f.earSide}))] *)
Fixpoint withStrings (xs : list value) : result (list value) :=
  match xs with
  | [] => Ok []
  | f :: rest =>
      match get f frequency_ with
      | Throw e => Throw e
      | Ok n =>
          match frequencyToString n with
          | Throw e => Throw e
          | Ok str =>
              match get f earSide_ with
              | Throw e => Throw e
              | Ok side =>
                  match withStrings rest with
                  | Throw e => Throw e
                  | Ok rest' =>
                      Ok (VObj [("frequency", VStr str); ("earSide", side)] :: rest')
                  end
              end
          end
      end
  end.

Definition count (xs : list value) : value := VNum (of_Z (Z.of_nat (List.length xs))).

Section Handler.
Variable cb : callbacks.

Definition ptt_press : M call unit :=
  s <- read ;;
  when (mainWindow s && negb (isPTTPressed s))
    (update (set_isPTTPressed true) ;;
     when (onPTTPress cb) (emit OnPTTPress)) ;;
  sendJSON 200 (VObj [success]).

Definition ptt_release : M call unit :=
  s <- read ;;
  when (mainWindow s && isPTTPressed s)
    (update (set_isPTTPressed false) ;;
     when (onPTTRelease cb) (emit OnPTTRelease)) ;;
  sendJSON 200 (VObj [success]).

Definition status : M call unit :=
  s <- read ;;
  let status := getConnectionStatus (serverURL s) (mainWindow s) in
  sendJSON 200
    (VObj [("running", VBool true);
           ("status", VStr status);
           ("pttPressed", VBool (isPTTPressed s));
           ("connected", VBool (negb (is_null (serverURL s))));
           ("serverURL", serverURL s)]).

Definition connect (now : Z) (b : body) : M call unit :=
  data <- lift (parseJSONBody b) ;;
  u <- lift (get data url_) ;;
  if truthy u then
    update (set_serverURL u) ;;
    update (set_lastHeartbeat (Some now)) ;;
    when (onConnect cb) (emit (OnConnect u)) ;;
    s <- read ;;
    sendJSON 200 (VObj [success; ("url", serverURL s)])
  else sendJSON 400 (failure "Missing url parameter").

Definition disconnect : M call unit :=
  when (onDisconnect cb) (emit (OnDisconnect "manual")) ;;
  sendJSON 200 (VObj [success]).

Definition heartbeat (now : Z) : M call unit :=
  update (set_lastHeartbeat (Some now)) ;;
  sendJSON 200 (VObj [success]).

Definition frequency (b : body) : M call unit :=
  data <- lift (parseJSONBody b) ;;
  f <- lift (get data frequency_) ;;
  if negb (is_undefined f) then
    str <- lift (frequencyToString f) ;;
    when (onFrequencyChange cb) (emit (OnFrequencyChange str)) ;;
    sendJSON 200 (VObj [success; ("frequency", VStr str)])
  else sendJSON 400 (failure "Missing frequency parameter").

Definition frequencies (b : body) : M call unit :=
  data <- lift (parseJSONBody b) ;;
  fs <- lift (get data frequencies_) ;;
  if negb (Array_isArray fs) then
    sendJSON 400 (failure "frequencies must be an array")
  else
    valid <- lift (isValidFrequenciesArray fs) ;;
    if negb valid then
      sendJSON 400
        (failure "Invalid frequency format. Expected: [{frequency: number, earSide: 0|1|2}]")
    else
      frequenciesWithStrings <-
        lift (match fs with VArr xs => withStrings xs | _ => Throw TypeError end) ;;
      when (onFrequenciesUpdate cb)
        (emit (OnFrequenciesUpdate (VArr frequenciesWithStrings))) ;;
      sendJSON 200 (VObj [success; ("count", count frequenciesWithStrings)]).

Definition active_channel (b : body) : M call unit :=
  data <- lift (parseJSONBody b) ;;
  f <- lift (get data frequency_) ;;
  if negb (typeof f =? "number")%string then
    sendJSON 400 (failure "frequency must be a number")
  else
    frequencyStr <- lift (frequencyToString f) ;;
    when (onActiveChannelChange cb) (emit (OnActiveChannelChange frequencyStr)) ;;
    sendJSON 200 (VObj [success; ("frequency", VStr frequencyStr)]).

Definition ear_side (b : body) : M call unit :=
  data <- lift (parseJSONBody b) ;;
  f <- lift (get data frequency_) ;;
  if negb (typeof f =? "number")%string then
    sendJSON 400 (failure "frequency and earSide must be numbers")
  else
    side <- lift (get data earSide_) ;;
    if negb (typeof side =? "number")%string then
      sendJSON 400 (failure "frequency and earSide must be numbers")
    else if negb (includes [VNum (of_Z 0); VNum (of_Z 1); VNum (of_Z 2)] side) then
      sendJSON 400 (failure "earSide must be 0 (left), 1 (right), or 2 (both)")
    else
      frequencyStr <- lift (frequencyToString f) ;;
      when (onEarSideChange cb)
        (emit (OnEarSideChange (VObj [("frequency", VStr frequencyStr); ("earSide", side)]))) ;;
      sendJSON 200 (VObj [success; ("frequency", VStr frequencyStr); ("earSide", side)]).

Definition frequency_disconnect (b : body) : M call unit :=
  data <- lift (parseJSONBody b) ;;
  f <- lift (get data frequency_) ;;
  if negb (typeof f =? "number")%string then
    sendJSON 400 (failure "frequency must be a number")
  else
    frequencyStr <- lift (frequencyToString f) ;;
    when (onFrequencyDisconnect cb) (emit (OnFrequencyDisconnect frequencyStr)) ;;
    sendJSON 200 (VObj [success; ("frequency", VStr frequencyStr)]).

Definition not_found : M call unit :=
  sendJSON 404 (failure "Not found").

(** The chain of tests inside the [try] block. *)
Definition routes (now : Z) (req : request) : M call unit :=
  let url := url req in
  let method := method req in
  if (url =? "/ptt/press")%string && (method =? "POST")%string then ptt_press
  else if (url =? "/ptt/release")%string && (method =? "POST")%string then ptt_release
  else if (url =? "/status")%string && (method =? "GET")%string then status
  else if (url =? "/connect")%string && (method =? "POST")%string then
    connect now (payload req)
  else if (url =? "/disconnect")%string && (method =? "POST")%string then disconnect
  else if (url =? "/heartbeat")%string && (method =? "POST")%string then heartbeat now
  else if (url =? "/frequency")%string && (method =? "POST")%string then
    frequency (payload req)
  else if (url =? "/frequencies")%string && (method =? "POST")%string then
    frequencies (payload req)
  else if (url =? "/active-channel")%string && (method =? "POST")%string then
    active_channel (payload req)
  else if (url =? "/ear-side")%string && (method =? "POST")%string then
    ear_side (payload req)
  else if (url =? "/frequency/disconnect")%string && (method =? "POST")%string then
    frequency_disconnect (payload req)
  else not_found.

(** The function [createRequestHandler] returns; [now] is what
    [Date.now()] reads while the request is handled. *)
Definition createRequestHandler (now : Z) (req : request) : M call unit :=
  setCORSHeaders (origin req) ;;
  if (method req =? "OPTIONS")%string then
    respond (writeHead 200 []) ;;
    respond (end_ None)
  else
    try_catch (routes now req)
      (fun _ => sendJSON 400 (failure "Invalid JSON")).
End Handler.

End HttpServer.

(** ** main.cjs *)
Module Main.
Import HttpServer.

(** What the entry point does to the outside: console output
    ([console.log], [console.error]) and calls on the window. *)
Inductive effect : Type :=
| Console (args : list value)
| Send (channel : string) (args : list value)   (* [mainWindow.webContents.send] *)
| LoadURL (url : value)
| LoadFile (file : string)
| OpenDevTools.

Definition initial : state :=
  {| mainWindow := false; isPTTPressed := false;
     serverURL := VNull; lastHeartbeat := None |}.

Definition HEARTBEAT_TIMEOUT : Z := 30000.

(** The period handed to [setInterval] by [startHeartbeatCheck]. *)
Definition HEARTBEAT_CHECK_INTERVAL : Z := 5000.

(** [if (lastHeartbeat)]: a number is truthy unless it is zero. *)
Definition truthy_time (t : option Z) : bool :=
  match t with
  | Some t => negb (t =? 0)
  | None => false
  end.

(** [disconnect(reason)]; the repository's other copy of the entry point
    has the same function, word for word. *)
Definition disconnect (reason : string) : M effect unit :=
  emit (Console [VStr "[HTTP] Disconnect:"; VStr reason]) ;;
  s <- read ;;
  when (isPTTPressed s && mainWindow s)
    (update (set_isPTTPressed false) ;;
     emit (Send "ptt:release" [])) ;;
  update (set_serverURL VNull) ;;
  update (set_lastHeartbeat None) ;;
  s <- read ;;
  when (mainWindow s) (emit (LoadFile "waiting.html")).

(** The function [startHeartbeatCheck] hands to [setInterval]. *)
Definition heartbeatCheck (now : Z) : M effect unit :=
  s <- read ;;
  when (truthy_time (lastHeartbeat s) && truthy (serverURL s))
    (let elapsed := now - match lastHeartbeat s with Some t => t | None => 0 end in
     when (elapsed >? HEARTBEAT_TIMEOUT)
       (emit (Console [VStr "[Heartbeat] Timeout - pas de heartbeat depuis";
                       VNum (of_Z elapsed); VStr "ms"]) ;;
        disconnect "heartbeat_timeout")).

(** Under the idealised timer, the checks run at these times after
    [startHeartbeatCheck] is called at [start]. *)
Definition check_time (start : Z) (k : nat) : Z :=
  start + HEARTBEAT_CHECK_INTERVAL * (Z.of_nat k + 1).

Definition ptt_press : M effect unit :=
  s <- read ;;
  emit (Console [VStr "[HTTP] PTT Press from DayZ - isPTTPressed:";
                 VBool (isPTTPressed s); VStr "mainWindow:"; VBool (mainWindow s)]) ;;
  when (mainWindow s && negb (isPTTPressed s))
    (update (set_isPTTPressed true) ;;
     emit (Console [VStr "[HTTP] Sending ptt:press to renderer"]) ;;
     emit (Send "ptt:press" [])) ;;
  sendJSON 200 (VObj [success]).

Definition ptt_release : M effect unit :=
  s <- read ;;
  emit (Console [VStr "[HTTP] PTT Release from DayZ - isPTTPressed:";
                 VBool (isPTTPressed s); VStr "mainWindow:"; VBool (mainWindow s)]) ;;
  when (mainWindow s && isPTTPressed s)
    (update (set_isPTTPressed false) ;;
     emit (Console [VStr "[HTTP] Sending ptt:release to renderer"]) ;;
     emit (Send "ptt:release" [])) ;;
  sendJSON 200 (VObj [success]).

Definition status : M effect unit :=
  s <- read ;;
  let status := getConnectionStatus (serverURL s) (mainWindow s) in
  sendJSON 200
    (VObj [("running", VBool true);
           ("status", VStr status);
           ("pttPressed", VBool (isPTTPressed s));
           ("connected", VBool (negb (is_null (serverURL s))));
           ("serverURL", serverURL s)]).

Definition connect (now : Z) (b : body) : M effect unit :=
  data <- lift (parseJSONBody b) ;;
  u <- lift (get data url_) ;;
  if truthy u then
    update (set_serverURL u) ;;
    update (set_lastHeartbeat (Some now)) ;;
    s <- read ;;
    emit (Console [VStr "[HTTP] Connect to:"; serverURL s]) ;;
    when (mainWindow s) (emit (LoadURL (serverURL s))) ;;
    sendJSON 200 (VObj [success; ("url", serverURL s)])
  else sendJSON 400 (failure "Missing url parameter").

Definition manual_disconnect : M effect unit :=
  disconnect "manual" ;;
  sendJSON 200 (VObj [success]).

Definition heartbeat (now : Z) : M effect unit :=
  update (set_lastHeartbeat (Some now)) ;;
  sendJSON 200 (VObj [success]).

Definition frequency (b : body) : M effect unit :=
  data <- lift (parseJSONBody b) ;;
  f <- lift (get data frequency_) ;;
  if negb (is_undefined f) then
    str <- lift (frequencyToString f) ;;
    emit (Console [VStr "[HTTP] Frequency change from DayZ:"; VStr str]) ;;
    s <- read ;;
    when (mainWindow s) (emit (Send "frequency:change" [VStr str])) ;;
    sendJSON 200 (VObj [success; ("frequency", VStr str)])
  else sendJSON 400 (failure "Missing frequency parameter").

Definition frequencies (b : body) : M effect unit :=
  data <- lift (parseJSONBody b) ;;
  fs <- lift (get data frequencies_) ;;
  if negb (Array_isArray fs) then
    sendJSON 400 (failure "frequencies must be an array")
  else
    valid <- lift (isValidFrequenciesArray fs) ;;
    if negb valid then
      sendJSON 400
        (failure "Invalid frequency format. Expected: [{frequency: number, earSide: 0|1|2}]")
    else
      frequenciesWithStrings <-
        lift (match fs with VArr xs => withStrings xs | _ => Throw TypeError end) ;;
      emit (Console [VStr "[HTTP] Frequencies update from DayZ:";
                     count frequenciesWithStrings; VStr "frequencies"]) ;;
      s <- read ;;
      when (mainWindow s)
        (emit (Send "frequencies:update" [VArr frequenciesWithStrings])) ;;
      sendJSON 200 (VObj [success; ("count", count frequenciesWithStrings)]).

Definition active_channel (b : body) : M effect unit :=
  data <- lift (parseJSONBody b) ;;
  f <- lift (get data frequency_) ;;
  if negb (typeof f =? "number")%string then
    sendJSON 400 (failure "frequency must be a number")
  else
    frequencyStr <- lift (frequencyToString f) ;;
    emit (Console [VStr "[HTTP] Active channel change from DayZ:"; VStr frequencyStr]) ;;
    s <- read ;;
    when (mainWindow s) (emit (Send "active-channel:change" [VStr frequencyStr])) ;;
    sendJSON 200 (VObj [success; ("frequency", VStr frequencyStr)]).

Definition ear_side (b : body) : M effect unit :=
  data <- lift (parseJSONBody b) ;;
  f <- lift (get data frequency_) ;;
  if negb (typeof f =? "number")%string then
    sendJSON 400 (failure "frequency and earSide must be numbers")
  else
    side <- lift (get data earSide_) ;;
    if negb (typeof side =? "number")%string then
      sendJSON 400 (failure "frequency and earSide must be numbers")
    else if negb (includes [VNum (of_Z 0); VNum (of_Z 1); VNum (of_Z 2)] side) then
      sendJSON 400 (failure "earSide must be 0 (left), 1 (right), or 2 (both)")
    else
      frequencyStr <- lift (frequencyToString f) ;;
      emit (Console [VStr "[HTTP] Ear side change from DayZ:"; VStr frequencyStr;
                     VStr "earSide:"; side]) ;;
      s <- read ;;
      when (mainWindow s)
        (emit (Send "ear-side:change"
                 [VObj [("frequency", VStr frequencyStr); ("earSide", side)]])) ;;
      sendJSON 200 (VObj [success; ("frequency", VStr frequencyStr); ("earSide", side)]).

Definition frequency_disconnect (b : body) : M effect unit :=
  data <- lift (parseJSONBody b) ;;
  f <- lift (get data frequency_) ;;
  if negb (typeof f =? "number")%string then
    sendJSON 400 (failure "frequency must be a number")
  else
    frequencyStr <- lift (frequencyToString f) ;;
    emit (Console [VStr "[HTTP] Frequency disconnect from DayZ:"; VStr frequencyStr]) ;;
    s <- read ;;
    when (mainWindow s) (emit (Send "frequency:disconnect" [VStr frequencyStr])) ;;
    sendJSON 200 (VObj [success; ("frequency", VStr frequencyStr)]).

Definition not_found : M effect unit :=
  sendJSON 404 (failure "Not found").

Definition error_name (e : error) : string :=
  match e with
  | TypeError => "TypeError"
  | SyntaxError => "SyntaxError"
  | StreamError => "Error"
  end.

(** The chain of tests inside the [try] block of the server callback. *)
Definition routes (now : Z) (req : request) : M effect unit :=
  let url := url req in
  let method := method req in
  if (url =? "/ptt/press")%string && (method =? "POST")%string then ptt_press
  else if (url =? "/ptt/release")%string && (method =? "POST")%string then ptt_release
  else if (url =? "/status")%string && (method =? "GET")%string then status
  else if (url =? "/connect")%string && (method =? "POST")%string then
    connect now (payload req)
  else if (url =? "/disconnect")%string && (method =? "POST")%string then
    manual_disconnect
  else if (url =? "/heartbeat")%string && (method =? "POST")%string then heartbeat now
  else if (url =? "/frequency")%string && (method =? "POST")%string then
    frequency (payload req)
  else if (url =? "/frequencies")%string && (method =? "POST")%string then
    frequencies (payload req)
  else if (url =? "/active-channel")%string && (method =? "POST")%string then
    active_channel (payload req)
  else if (url =? "/ear-side")%string && (method =? "POST")%string then
    ear_side (payload req)
  else if (url =? "/frequency/disconnect")%string && (method =? "POST")%string then
    frequency_disconnect (payload req)
  else not_found.

(** The callback [startLocalServer] gives to [http.createServer]. *)
Definition server (now : Z) (req : request) : M effect unit :=
  setCORSHeaders (origin req) ;;
  if (method req =? "OPTIONS")%string then
    respond (writeHead 200 []) ;;
    respond (end_ None)
  else
    try_catch (routes now req)
      (fun e =>
         emit (Console [VStr "[HTTP] Error:"; VStr (error_name e)]) ;;
         sendJSON 400 (failure "Invalid JSON")).

(** [isDev] is [!app.isPackaged]. *)
Definition createWindow (isDev : bool) : M effect unit :=
  update (set_mainWindow true) ;;
  s <- read ;;
  if isDev then
    emit (LoadURL (VStr "http://localhost:3001")) ;;
    emit OpenDevTools
  else if truthy (serverURL s) then emit (LoadURL (serverURL s))
  else emit (LoadFile "waiting.html").

(** The window's ['closed'] listener. *)
Definition closed : M effect unit :=
  update (set_mainWindow false).

(** What happens to the process once it is ready. *)
Inductive event : Type :=
| Request (now : Z) (req : request)
| HeartbeatCheck (now : Z)
| CreateWindow (isDev : bool)
| Closed.

Definition react (e : event) : M effect unit :=
  match e with
  | Request now req => server now req
  | HeartbeatCheck now => heartbeatCheck now
  | CreateWindow isDev => createWindow isDev
  | Closed => closed
  end.

End Main.

(** ** The entry point with everything inline *)

(** The repository holds a second copy of the entry point, which does not
    use [lib/httpServer.cjs]: it sets the CORS headers, parses the body,
    validates the frequencies and writes the answers itself. Its
    [disconnect], heartbeat check and window handling are those of
    [main.cjs], word for word. *)
Module Monolith.
Import HttpServer.

(** Its own [parseJSONBody]: [JSON.parse(body)], also on the empty text,
    which [JSON.parse] rejects. *)
Definition parseJSONBody (b : body) : result value :=
  match b with
  | Empty => Throw SyntaxError
  | Json v => Ok v
  | Malformed => Throw SyntaxError
  | Aborted => Throw StreamError
  end.

(** The arrow function given to [every] on [/frequencies]; without the
    test [f !== null], the properties of [null] are read. *)
Definition isValid (f : value) : result bool :=
  if (typeof f =? "object")%string then
    match get f frequency_ with
    | Throw e => Throw e
    | Ok n =>
        if (typeof n =? "number")%string then
          match get f earSide_ with
          | Throw e => Throw e
          | Ok side =>
              if (typeof side =? "number")%string then
                match get f earSide_ with
                | Throw e => Throw e
                | Ok side' =>
                    Ok (includes [VNum (of_Z 0); VNum (of_Z 1); VNum (of_Z 2)] side')
                end
              else Ok false
          end
        else Ok false
    end
  else Ok false.

Fixpoint every (xs : list value) : result bool :=
  match xs with
  | [] => Ok true
  | x :: rest =>
      match isValid x with
      | Throw e => Throw e
      | Ok false => Ok false
      | Ok true => every rest
      end
  end.

(** [frequencies.map(f => ({frequency: String(f.frequency), earSide:
    f.earSide}))] *)
Fixpoint withStrings (xs : list value) : result (list value) :=
  match xs with
  | [] => Ok []
  | f :: rest =>
      match get f frequency_ with
      | Throw e => Throw e
      | Ok n =>
          match ToString n with
          | Throw e => Throw e
          | Ok str =>
              match get f earSide_ with
              | Throw e => Throw e
              | Ok side =>
                  match withStrings rest with
                  | Throw e => Throw e
                  | Ok rest' =>
                      Ok (VObj [("frequency", VStr str); ("earSide", side)] :: rest')
                  end
              end
          end
      end
  end.

(** [res.writeHead(code, {"Content-Type": "application/json"});
    res.end(JSON.stringify(data))] *)
Definition reply (code : Z) (data : value) : M Main.effect unit :=
  respond (writeHead code [("Content-Type", "application/json")]) ;;
  respond (end_ (Some data)).

Definition ptt_press : M Main.effect unit :=
  s <- read ;;
  emit (Main.Console [VStr "[HTTP] PTT Press from DayZ - isPTTPressed:";
                      VBool (isPTTPressed s); VStr "mainWindow:"; VBool (mainWindow s)]) ;;
  when (mainWindow s && negb (isPTTPressed s))
    (update (set_isPTTPressed true) ;;
     emit (Main.Console [VStr "[HTTP] Sending ptt:press to renderer"]) ;;
     emit (Main.Send "ptt:press" [])) ;;
  reply 200 (VObj [success]).

Definition ptt_release : M Main.effect unit :=
  s <- read ;;
  emit (Main.Console [VStr "[HTTP] PTT Release from DayZ - isPTTPressed:";
                      VBool (isPTTPressed s); VStr "mainWindow:"; VBool (mainWindow s)]) ;;
  when (mainWindow s && isPTTPressed s)
    (update (set_isPTTPressed false) ;;
     emit (Main.Console [VStr "[HTTP] Sending ptt:release to renderer"]) ;;
     emit (Main.Send "ptt:release" [])) ;;
  reply 200 (VObj [success]).

Definition status : M Main.effect unit :=
  s <- read ;;
  let status :=
    if truthy (serverURL s) then "CONNECTED"
    else if mainWindow s then "WAITING_FOR_CONNECTION"
    else "DISCONNECTED" in
  reply 200
    (VObj [("running", VBool true);
           ("status", VStr status);
           ("pttPressed", VBool (isPTTPressed s));
           ("connected", VBool (negb (is_null (serverURL s))));
           ("serverURL", serverURL s)]).

Definition connect (now : Z) (b : body) : M Main.effect unit :=
  data <- lift (parseJSONBody b) ;;
  u <- lift (get data url_) ;;
  if truthy u then
    update (set_serverURL u) ;;
    update (set_lastHeartbeat (Some now)) ;;
    s <- read ;;
    emit (Main.Console [VStr "[HTTP] Connect to:"; serverURL s]) ;;
    when (mainWindow s) (emit (Main.LoadURL (serverURL s))) ;;
    reply 200 (VObj [success; ("url", serverURL s)])
  else reply 400 (failure "Missing url parameter").

Definition manual_disconnect : M Main.effect unit :=
  Main.disconnect "manual" ;;
  reply 200 (VObj [success]).

Definition heartbeat (now : Z) : M Main.effect unit :=
  update (set_lastHeartbeat (Some now)) ;;
  reply 200 (VObj [success]).

Definition frequency (b : body) : M Main.effect unit :=
  data <- lift (parseJSONBody b) ;;
  f <- lift (get data frequency_) ;;
  if negb (is_undefined f) then
    str <- lift (ToString f) ;;
    emit (Main.Console [VStr "[HTTP] Frequency change from DayZ:"; VStr str]) ;;
    s <- read ;;
    when (mainWindow s) (emit (Main.Send "frequency:change" [VStr str])) ;;
    reply 200 (VObj [success; ("frequency", VStr str)])
  else reply 400 (failure "Missing frequency parameter").

Definition frequencies (b : body) : M Main.effect unit :=
  data <- lift (parseJSONBody b) ;;
  fs <- lift (get data frequencies_) ;;
  if negb (Array_isArray fs) then
    reply 400 (failure "frequencies must be an array")
  else
    isValid <- lift (match fs with VArr xs => every xs | _ => Throw TypeError end) ;;
    if negb isValid then
      reply 400
        (failure "Invalid frequency format. Expected: [{frequency: number, earSide: 0|1|2}]")
    else
      frequenciesWithStrings <-
        lift (match fs with VArr xs => withStrings xs | _ => Throw TypeError end) ;;
      emit (Main.Console [VStr "[HTTP] Frequencies update from DayZ:";
                          count frequenciesWithStrings; VStr "frequencies"]) ;;
      s <- read ;;
      when (mainWindow s)
        (emit (Main.Send "frequencies:update" [VArr frequenciesWithStrings])) ;;
      reply 200 (VObj [success; ("count", count frequenciesWithStrings)]).

Definition active_channel (b : body) : M Main.effect unit :=
  data <- lift (parseJSONBody b) ;;
  f <- lift (get data frequency_) ;;
  if negb (typeof f =? "number")%string then
    reply 400 (failure "frequency must be a number")
  else
    frequencyStr <- lift (ToString f) ;;
    emit (Main.Console [VStr "[HTTP] Active channel change from DayZ:";
                        VStr frequencyStr]) ;;
    s <- read ;;
    when (mainWindow s) (emit (Main.Send "active-channel:change" [VStr frequencyStr])) ;;
    reply 200 (VObj [success; ("frequency", VStr frequencyStr)]).

Definition ear_side (b : body) : M Main.effect unit :=
  data <- lift (parseJSONBody b) ;;
  f <- lift (get data frequency_) ;;
  if negb (typeof f =? "number")%string then
    reply 400 (failure "frequency and earSide must be numbers")
  else
    side <- lift (get data earSide_) ;;
    if negb (typeof side =? "number")%string then
      reply 400 (failure "frequency and earSide must be numbers")
    else if negb (includes [VNum (of_Z 0); VNum (of_Z 1); VNum (of_Z 2)] side) then
      reply 400 (failure "earSide must be 0 (left), 1 (right), or 2 (both)")
    else
      frequencyStr <- lift (ToString f) ;;
      emit (Main.Console [VStr "[HTTP] Ear side change from DayZ:"; VStr frequencyStr;
                          VStr "earSide:"; side]) ;;
      s <- read ;;
      when (mainWindow s)
        (emit (Main.Send "ear-side:change"
                 [VObj [("frequency", VStr frequencyStr); ("earSide", side)]])) ;;
      reply 200 (VObj [success; ("frequency", VStr frequencyStr); ("earSide", side)]).

Definition frequency_disconnect (b : body) : M Main.effect unit :=
  data <- lift (parseJSONBody b) ;;
  f <- lift (get data frequency_) ;;
  if negb (typeof f =? "number")%string then
    reply 400 (failure "frequency must be a number")
  else
    frequencyStr <- lift (ToString f) ;;
    emit (Main.Console [VStr "[HTTP] Frequency disconnect from DayZ:";
                        VStr frequencyStr]) ;;
    s <- read ;;
    when (mainWindow s) (emit (Main.Send "frequency:disconnect" [VStr frequencyStr])) ;;
    reply 200 (VObj [success; ("frequency", VStr frequencyStr)]).

Definition not_found : M Main.effect unit :=
  reply 404 (failure "Not found").

Definition routes (now : Z) (req : request) : M Main.effect unit :=
  let url := url req in
  if (url =? "/ptt/press")%string && (method req =? "POST")%string then ptt_press
  else if (url =? "/ptt/release")%string && (method req =? "POST")%string then ptt_release
  else if (url =? "/status")%string && (method req =? "GET")%string then status
  else if (url =? "/connect")%string && (method req =? "POST")%string then
    connect now (payload req)
  else if (url =? "/disconnect")%string && (method req =? "POST")%string then
    manual_disconnect
  else if (url =? "/heartbeat")%string && (method req =? "POST")%string then heartbeat now
  else if (url =? "/frequency")%string && (method req =? "POST")%string then
    frequency (payload req)
  else if (url =? "/frequencies")%string && (method req =? "POST")%string then
    frequencies (payload req)
  else if (url =? "/active-channel")%string && (method req =? "POST")%string then
    active_channel (payload req)
  else if (url =? "/ear-side")%string && (method req =? "POST")%string then
    ear_side (payload req)
  else if (url =? "/frequency/disconnect")%string && (method req =? "POST")%string then
    frequency_disconnect (payload req)
  else not_found.

(** The callback its [startLocalServer] gives to [http.createServer]. *)
Definition server (now : Z) (req : request) : M Main.effect unit :=
  match origin req with
  | Some o =>
      if negb (o =? "")%string
         && (String_includes o "localhost" || String_includes o "127.0.0.1")
      then respond (setHeader "Access-Control-Allow-Origin" o)
      else respond (setHeader "Access-Control-Allow-Origin" "http://127.0.0.1")
  | None => respond (setHeader "Access-Control-Allow-Origin" "http://127.0.0.1")
  end ;;
  respond (setHeader "Access-Control-Allow-Methods" "GET, POST, OPTIONS") ;;
  respond (setHeader "Access-Control-Allow-Headers" "Content-Type") ;;
  if (method req =? "OPTIONS")%string then
    respond (writeHead 200 []) ;;
    respond (end_ None)
  else
    try_catch (routes now req)
      (fun e =>
         emit (Main.Console [VStr "[HTTP] Error:"; VStr (Main.error_name e)]) ;;
         reply 400 (failure "Invalid JSON")).

End Monolith.

(** ** lib/httpServer.cjs: looking for a free port *)

(** [findFreePort] of [lib/httpServer.cjs]. The network is a function
    [listen]: what [server.listen(port, "127.0.0.1")] comes to for a port
    in range, the port [server.address()] reports once listening or the
    ['error'] event. Out of range, [listen] throws inside the executor of
    the promise, which rejects it. The recursion is on the promise
    returned for the next port; [fuel] bounds its depth. *)
Module Ports.

Inductive attempt : Type :=
| Listening (port : Z)
| Failed.

Inductive promise : Type :=
| Resolved (port : Z)
| Rejected.

Definition DEFAULT_START_PORT : Z := 19800.

Fixpoint findFreePort (listen : Z -> attempt) (fuel : nat) (startPort : Z)
  : option promise :=
  match fuel with
  | O => None
  | S fuel =>
      if (startPort <? 0) || (65535 <? startPort) then Some Rejected
      else
        match listen startPort with
        | Listening port => Some (Resolved port)
        | Failed => findFreePort listen fuel (startPort + 1)
        end
  end.

End Ports.

(** ** lib/config.cjs *)

(** [loadEnvFile]. A JavaScript string is a sequence of UTF-16 code units;
    the file is what [fs.existsSync] and [fs.readFileSync] make of the
    path. The object returned is given by its own properties. *)
Module Config.

Definition jsstring : Type := list N.

(** A literal of the source, all of whose characters are ASCII. *)
Definition str (s : string) : jsstring :=
  map N_of_ascii (list_ascii_of_string s).

Definition jsstring_eqb (a b : jsstring) : bool :=
  if list_eq_dec N.eq_dec a b then true else false.

(** The code units [trim] strips: WhiteSpace and LineTerminator of
    ECMAScript. *)
Definition isWhiteSpace (c : N) : bool :=
  (existsb (N.eqb c)
     [9; 10; 11; 12; 13; 32; 160; 5760; 8232; 8233; 8239; 8287; 12288; 65279]
   || ((8192 <=? c) && (c <=? 8202)))%N.

Fixpoint trimStart (s : jsstring) : jsstring :=
  match s with
  | [] => []
  | c :: rest => if isWhiteSpace c then trimStart rest else s
  end.

Definition trimEnd (s : jsstring) : jsstring := rev (trimStart (rev s)).

Definition trim (s : jsstring) : jsstring := trimEnd (trimStart s).

(** [s.split("\n")] *)
Fixpoint split (s : jsstring) : list jsstring :=
  match s with
  | [] => [[]]
  | c :: rest =>
      if (c =? 10)%N then [] :: split rest
      else
        match split rest with
        | l :: ls => (c :: l) :: ls
        | [] => [[c]]
        end
  end.

(** [s.startsWith("#")] *)
Definition startsWith_hash (s : jsstring) : bool :=
  match s with
  | c :: _ => (c =? 35)%N
  | [] => false
  end.

(** [s.indexOf("=")]: the first position of the code unit 61, or -1. *)
Fixpoint indexOf_equal (s : jsstring) : Z :=
  match s with
  | [] => -1
  | c :: rest =>
      if (c =? 61)%N then 0
      else let i := indexOf_equal rest in if i <? 0 then -1 else i + 1
  end.

(** [s.substring(0, i)] and [s.substring(i)], for [0 <= i]. *)
Definition substring_to (s : jsstring) (i : Z) : jsstring := firstn (Z.to_nat i) s.
Definition substring_from (s : jsstring) (i : Z) : jsstring := skipn (Z.to_nat i) s.

(** A string is truthy unless it is empty. *)
Definition truthy (s : jsstring) : bool :=
  match s with [] => false | _ => true end.

(** The own properties of the object [env]. *)
Definition env : Type := jsstring -> option jsstring.

Definition empty : env := fun _ => None.

(** [env[key] = value] on an object made by [{}]: the key ["__proto__"]
    reaches the setter of [Object.prototype], which ignores a string; any
    other key becomes an own property. *)
Definition assign (key value : jsstring) (e : env) : env :=
  if jsstring_eqb key (str "__proto__") then e
  else fun k => if jsstring_eqb k key then Some value else e k.

(** The function given to [forEach]. *)
Definition line (e : env) (l : jsstring) : env :=
  let trimmedLine := trim l in
  if negb (truthy trimmedLine) || startsWith_hash trimmedLine then e
  else
    let equalIndex := indexOf_equal trimmedLine in
    if 0 <? equalIndex then
      let key := trim (substring_to trimmedLine equalIndex) in
      let value := trim (substring_from trimmedLine (equalIndex + 1)) in
      if truthy key && truthy value then assign key value e else e
    else e.

Inductive file : Type :=
| Missing                       (* [fs.existsSync] is false *)
| Unreadable                    (* [fs.readFileSync] throws *)
| Text (content : jsstring).

(** [None] when the call throws. *)
Definition loadEnvFile (envPath : file) : option env :=
  match envPath with
  | Missing => Some empty
  | Unreadable => None
  | Text envContent => Some (fold_left line (split envContent) empty)
  end.

End Config.

(** ** Running one computation from a state *)

(** A computation started with a fresh response object and nothing
    emitted yet: whether it returned, the state it leaves, what it emitted
    and the response. *)
Definition start {E} (s : state) : world E :=
  {| st := s; res := fresh; out := [] |}.

Definition returns {E} (c : M E unit) (s : state) : bool :=
  match fst (c (start s)) with Ok _ => true | Throw _ => false end.

Definition state_after {E} (c : M E unit) (s : state) : state :=
  st (snd (c (start s))).

Definition emitted {E} (c : M E unit) (s : state) : list E :=
  out (snd (c (start s))).

Definition response_of {E} (c : M E unit) (s : state) : response :=
  res (snd (c (start s))).

(** The clock of a running process reads a positive number of
    milliseconds. *)
Definition clock_ok (e : Main.event) : Prop :=
  match e with
  | Main.Request now _ | Main.HeartbeatCheck now => 0 < now
  | _ => True
  end.

(** The session states of [main.cjs]. *)
Inductive reachable : state -> Prop :=
| reach_initial : reachable Main.initial
| reach_react s e :
    reachable s -> clock_ok e -> reachable (state_after (Main.react e) s).

(** The states a session on [createRequestHandler] goes through, from a
    state object without a connection. *)
Inductive lib_reachable (cb : HttpServer.callbacks) : state -> Prop :=
| lib_reach_initial s : serverURL s = VNull -> lib_reachable cb s
| lib_reach_request s now req :
    lib_reachable cb s ->
    lib_reachable cb (state_after (HttpServer.createRequestHandler cb now req) s).

(** A run of events, one after the other. *)
Fixpoint run (es : list Main.event) (s : state) : state :=
  match es with
  | [] => s
  | e :: rest => run rest (state_after (Main.react e) s)
  end.

Definition POST (path : string) (b : body) : request :=
  {| method := "POST"; url := path; origin := None; payload := b |}.

Definition GET (path : string) : request :=
  {| method := "GET"; url := path; origin := None; payload := Empty |}.

(** The effects on a given channel. *)
Definition is_send (channel : string) (e : Main.effect) : bool :=
  match e with
  | Main.Send c _ => (c =? channel)%string
  | _ => false
  end.

Definition sends (channel : string) (l : list Main.effect) : nat :=
  List.length (filter (is_send channel) l).

Definition is_press (c : HttpServer.call) : bool :=
  match c with HttpServer.OnPTTPress => true | _ => false end.

Definition is_release (c : HttpServer.call) : bool :=
  match c with HttpServer.OnPTTRelease => true | _ => false end.

Definition ok_response (data : value) (r : response) : Prop :=
  statusCode r = Some 200 /\ sent r = Some data /\ ended r = true.

Definition error_response (code : Z) (message : string) (r : response) : Prop :=
  statusCode r = Some code /\ sent r = Some (HttpServer.failure message) /\ ended r = true.

(** ** The vocabulary of the statements *)

(** The number [n] is the integer [z]. *)
Definition denotes (n : number) (z : Z) : Prop :=
  match number_value n with
  | Some q => Qeq q (inject_Z z)
  | None => False
  end.

(** The response [sendJSON] leaves. *)
Definition answer (code : Z) (data : value) (r : response) : response :=
  HttpServer.end_ (Some data)
    (HttpServer.writeHead code [("Content-Type", "application/json")] r).






Definition url_ok (s : state) : Prop :=
  serverURL s = VNull \/ truthy (serverURL s) = true.

Definition time_ok (s : state) : Prop :=
  match lastHeartbeat s with
  | Some t => 0 < t
  | None => True
  end.

Definition inv (s : state) : Prop := url_ok s /\ time_ok s.

Definition preserves {E} (I : state -> Prop) (c : M E unit) : Prop :=
  forall w, I (st w) -> I (st (snd (c w))).

(** What [GET /status] sends from state [s]. *)
Definition status_data (s : state) : value :=
  VObj [("running", VBool true);
        ("status", VStr (HttpServer.getConnectionStatus (serverURL s) (mainWindow s)));
        ("pttPressed", VBool (isPTTPressed s));
        ("connected", VBool (negb (is_null (serverURL s))));
        ("serverURL", serverURL s)].

Definition get_status (o : option string) (b : body) : request :=
  {| method := "GET"; url := "/status"; origin := o; payload := b |}.

Definition connect_x : request :=
  POST "/connect" (Json (VObj [("url", VStr "http://x")])).

Definition connect_request (o : option string) (b : body) : request :=
  {| method := "POST"; url := "/connect"; origin := o; payload := b |}.

Definition all_callbacks : HttpServer.callbacks :=
  {| HttpServer.onPTTPress := true; HttpServer.onPTTRelease := true;
     HttpServer.onConnect := true; HttpServer.onDisconnect := true;
     HttpServer.onFrequencyChange := true; HttpServer.onFrequenciesUpdate := true;
     HttpServer.onActiveChannelChange := true; HttpServer.onEarSideChange := true;
     HttpServer.onFrequencyDisconnect := true |}.

Definition press (o : option string) (b : body) : request :=
  {| method := "POST"; url := "/ptt/press"; origin := o; payload := b |}.

Definition release (o : option string) (b : body) : request :=
  {| method := "POST"; url := "/ptt/release"; origin := o; payload := b |}.

Definition disconnect_request (o : option string) (b : body) : request :=
  {| method := "POST"; url := "/disconnect"; origin := o; payload := b |}.

Definition heartbeat_request (o : option string) (b : body) : request :=
  {| method := "POST"; url := "/heartbeat"; origin := o; payload := b |}.

(** A connection is active and its last heartbeat is older than the
    timeout. *)
Definition timed_out (now : Z) (s : state) : Prop :=
  serverURL s <> VNull /\
  exists t, lastHeartbeat s = Some t /\ Main.HEARTBEAT_TIMEOUT < now - t.

Definition timeout_log (now : Z) (s : state) : Main.effect :=
  Main.Console [VStr "[Heartbeat] Timeout - pas de heartbeat depuis";
                VNum (of_Z (now - match lastHeartbeat s with Some t => t | None => 0 end));
                VStr "ms"].

(** The routes, as (method, path) pairs. *)
Definition route_table : list (string * string) :=
  [ ("POST", "/ptt/press"); ("POST", "/ptt/release"); ("GET", "/status");
    ("POST", "/connect"); ("POST", "/disconnect"); ("POST", "/heartbeat");
    ("POST", "/frequency"); ("POST", "/frequencies"); ("POST", "/active-channel");
    ("POST", "/ear-side"); ("POST", "/frequency/disconnect") ].

(** The paths whose POST route reads the body. *)
Definition body_routes : list string :=
  [ "/connect"; "/frequency"; "/frequencies"; "/active-channel"; "/ear-side";
    "/frequency/disconnect" ].


(** The data of the test scenarios. *)
Definition two_frequencies : value :=
  VArr [VObj [("frequency", VNum (of_ratio 453 10)); ("earSide", VNum (of_Z 0))];
        VObj [("frequency", VNum (of_Z 100)); ("earSide", VNum (of_Z 2))]].

Definition window_open : state := run [Main.CreateWindow false] Main.initial.

(** ** Further vocabulary *)

(** The value of a response header. *)
Fixpoint lookup_header (name : string) (hs : list (string * string)) : option string :=
  match hs with
  | [] => None
  | (k, v) :: rest => if (k =? name)%string then Some v else lookup_header name rest
  end.

Definition header (name : string) (r : response) : option string :=
  lookup_header name (headers r).

Definition is_console (e : Main.effect) : bool :=
  match e with Main.Console _ => true | _ => false end.

(** A route that answers 200, or answers otherwise without having touched
    the state or emitted anything, or throws without having done anything. *)
Definition tidy {E} (c : M E unit) : Prop :=
  forall w,
    match c w with
    | (Ok _, w') =>
        (exists data, res w' = answer 200 data (res w))
        \/ (exists code data,
              code <> 200 /\ res w' = answer code data (res w)
              /\ st w' = st w /\ out w' = out w)
    | (Throw _, w') => w' = w
    end.

Definition local_origin (o : string) : bool :=
  String_includes o "localhost" || String_includes o "127.0.0.1".

(** [needle] occurs in [haystack]. *)
Definition occurs_in (needle haystack : string) : Prop :=
  exists a b, haystack = a ++ needle ++ b.

(** A route that, without a window, adds console output only. *)
Definition silent (c : M Main.effect unit) : Prop :=
  forall w, mainWindow (st w) = false ->
            exists l, out (snd (c w)) = (out w ++ l)%list /\ forallb is_console l = true.

(** A URL is recorded only together with a heartbeat time. *)
Definition timed (s : state) : Prop :=
  serverURL s <> VNull -> exists t, lastHeartbeat s = Some t.

(** The element of the list sent on for a valid frequency descriptor: the
    number as text, the ear side as it came. *)
Definition with_string (x y : value) : Prop :=
  exists f side,
    get x frequency_ = Ok (VNum f) /\ get x earSide_ = Ok side
    /\ y = VObj [("frequency", VStr (Number_toString f)); ("earSide", side)].

Definition valid_frequency (x : value) : Prop :=
  HttpServer.isValidFrequency x = Ok true.

Definition post (path : string) (o : option string) (b : body) : request :=
  {| method := "POST"; url := path; origin := o; payload := b |}.

Definition window_effects (l : list Main.effect) : list Main.effect :=
  filter (fun e => negb (is_console e)) l.

Definition ear_side_in_range (side : number) : Prop :=
  denotes side 0 \/ denotes side 1 \/ denotes side 2.

Definition not_an_object (data : value) : Prop :=
  match data with
  | VBool _ | VNum _ | VStr _ | VArr _ => True
  | VUndefined | VNull | VObj _ => False
  end.

(** What a run of events emits, oldest first. *)
Fixpoint effects (es : list Main.event) (s : state) : list Main.effect :=
  match es with
  | [] => []
  | e :: rest =>
      (emitted (Main.react e) s ++ effects rest (state_after (Main.react e) s))%list
  end.

Definition held (s : state) : nat := if isPTTPressed s then 1 else 0.

(** A route that sends as many presses as releases, up to the change of the
    push-to-talk flag. *)
Definition balanced (c : M Main.effect unit) : Prop :=
  forall s r,
    let w := snd (c {| st := s; res := r; out := [] |}) in
    (sends "ptt:press" (out w) + held s = sends "ptt:release" (out w) + held (st w))%nat.

(** What a window displays: a URL given to [loadURL] or a file given to
    [loadFile]. *)
Inductive page : Type :=
| Url (u : value)
| File (name : string).

Definition load (p : option page) (e : Main.effect) : option page :=
  match e with
  | Main.LoadURL u => Some (Url u)
  | Main.LoadFile name => Some (File name)
  | _ => p
  end.

(** The page loaded last. *)
Definition shown (p : option page) (l : list Main.effect) : option page :=
  fold_left load l p.

(** The packaged application: [isDev] is false whenever a window is
    created. *)
Definition packaged (e : Main.event) : Prop :=
  match e with
  | Main.CreateWindow isDev => isDev = false
  | _ => True
  end.

Definition expected_page (s : state) : page :=
  if truthy (serverURL s) then Url (serverURL s) else File "waiting.html".

(** The attached window displays the page of the session state. *)
Definition displays (p : option page) (s : state) : Prop :=
  mainWindow s = true -> p = Some (expected_page s).

Definition keeps_display (c : M Main.effect unit) : Prop :=
  forall s r p,
    displays p s ->
    let w := snd (c {| st := s; res := r; out := [] |}) in
    displays (shown p (out w)) (st w).

(** The first port from [startPort] on which [listen] succeeds is [p], and
    the server reports [port]. *)
Definition first_free (listen : Z -> Ports.attempt) (startPort p port : Z) : Prop :=
  startPort <= p <= 65535
  /\ listen p = Ports.Listening port
  /\ forall q, startPort <= q < p -> listen q = Ports.Failed.

Definition settles (listen : Z -> Ports.attempt) (startPort : Z) (r : Ports.promise)
  : Prop :=
  forall fuel, (Z.to_nat (65536 - startPort) < fuel)%nat ->
               Ports.findFreePort listen fuel startPort = Some r.

(** A network where ports 19800 and 19801 are taken. *)
Definition two_ports_taken (p : Z) : Ports.attempt :=
  if (p =? 19800) || (p =? 19801) then Ports.Failed else Ports.Listening p.

(** Neither the first nor the last code unit is stripped by [trim]. *)
Definition tight (s : Config.jsstring) : Prop :=
  (forall c rest, s = c :: rest -> Config.isWhiteSpace c = false)
  /\ (forall c pre, s = (pre ++ [c])%list -> Config.isWhiteSpace c = false).

Definition blank (s : Config.jsstring) : Prop :=
  Forall (fun c => Config.isWhiteSpace c = true) s.

(** The line [l] defines the key [k] as [v]: trimmed, it is not a comment
    and its first [=] has before it a non-empty text that trims to [k], a
    key other than ["__proto__"], and after it a text that trims to [v],
    not empty. *)
Definition defines (l k v : Config.jsstring) : Prop :=
  exists a b,
    Config.trim l = (a ++ 61%N :: b)%list
    /\ ~ In 61%N a /\ a <> []
    /\ Config.startsWith_hash a = false
    /\ k = Config.trim a /\ v = Config.trim b
    /\ v <> [] /\ k <> Config.str "__proto__".

(** [k] is defined as [v] by a line of [ls] and by no later line. *)
Definition defined_last (ls : list Config.jsstring) (k v : Config.jsstring) : Prop :=
  exists pre l later,
    ls = (pre ++ l :: later)%list
    /\ defines l k v
    /\ forall l', In l' later -> forall v', ~ defines l' k v'.

(** A file of four lines, the second ended by a carriage return and a
    line feed. *)
Definition env_sample : Config.jsstring :=
  (Config.str "# settings" ++ [10%N]
   ++ Config.str "SECRET_CODE = alpha" ++ [13%N; 10%N]
   ++ Config.str "URL=http://x/?a=b" ++ [10%N]
   ++ Config.str "SECRET_CODE=beta" ++ [10%N])%list.

(** ** Numbers and the decimals they print as *)

(** *** Rounding to nearest, ties to even

    The finite values of binary64: the numbers [M * 2^E] with
    [|M| < 2^53] and [-1074 <= E <= 971]. *)
Definition binary64 (y : Q) : Prop :=
  exists M E : Z,
    Z.abs M < 2 ^ 53 /\ -1074 <= E <= 971 /\ (y == inject_Z M * Qpower 2 E)%Q.

(** The number [v] rounds to the positive double [m * 2^e], given in
    canonical form: every other value of the format is farther from [v],
    or as far if [m] is even; so is [2^1024], from which on rounding
    overflows. *)
Definition rounds_to (m : positive) (e : Z) (v : Q) : Prop :=
  forall y,
    binary64 y \/ (y == Qpower 2 1024)%Q ->
    ~ (y == dyadic m e)%Q ->
    (Qabs (v - dyadic m e) < Qabs (v - y))%Q
    \/ ((Qabs (v - dyadic m e) == Qabs (v - y))%Q /\ Z.even (Zpos m) = true).

(** *** The digits [Number::toString] prints

    ECMAScript's criterion on the digits [s], their number [k] and the
    exponent [n] printed for the positive double [m * 2^e]: the decimal
    [s * 10^(n-k)] of [k] digits rounds to the double; no decimal of fewer
    digits does; among those of [k] digits that do, none is closer to the
    double, and of two as close the one with [s] even is taken. *)
Definition round_trips (m : positive) (e : Z) (s k n : Z) : Prop :=
  1 <= k /\ 10 ^ (k - 1) <= s < 10 ^ k
  /\ rounds_to m e (inject_Z s * Qpower 10 (n - k)).

Definition shortest_round_trip (m : positive) (e : Z) (s k n : Z) : Prop :=
  round_trips m e s k n
  /\ (forall s' k' n', round_trips m e s' k' n' -> k <= k')
  /\ (forall s' n', round_trips m e s' k n' ->
        let d := Qabs (inject_Z s * Qpower 10 (n - k) - dyadic m e) in
        let d' := Qabs (inject_Z s' * Qpower 10 (n' - k) - dyadic m e) in
        (d <= d')%Q /\ ((d == d')%Q -> Z.even s' = true -> Z.even s = true)).

(** *** The number a decimal text denotes

    Digits, then possibly a point and digits, then possibly [e], a sign
    and digits: the texts [Number::toString] produces for finite numbers,
    read as ECMAScript reads a numeric literal. *)
Definition digit (c : ascii) : option Z :=
  let n := Z.of_N (N_of_ascii c) in
  if (48 <=? n) && (n <=? 57) then Some (n - 48) else None.

(** The digits at the head of [s]: their value after [acc], their number
    after [cnt], and what follows them. *)
Fixpoint take_digits (s : string) (acc cnt : Z) : Z * Z * string :=
  match s with
  | EmptyString => (acc, cnt, s)
  | String c r =>
      match digit c with
      | Some d => take_digits r (10 * acc + d) (cnt + 1)
      | None => (acc, cnt, s)
      end
  end.

(** The number the text denotes, if it is such a text. *)
Definition decimal_value (s : string) : option Q :=
  let '(i, ci, r1) := take_digits s 0 0 in
  if ci =? 0 then None
  else
    let '(f, cf, r2) :=
      match r1 with
      | String "." r => take_digits r 0 0
      | _ => (0, 0, r1)
      end in
    let mantissa := (inject_Z i + inject_Z f / Qpower 10 cf)%Q in
    match r2 with
    | EmptyString => Some mantissa
    | String "e" (String sign r) =>
        let '(x, cx, r3) := take_digits r 0 0 in
        if (0 <? cx) && (r3 =? "")%string then
          if Ascii.eqb sign "+" then Some (mantissa * Qpower 10 x)%Q
          else if Ascii.eqb sign "-" then Some (mantissa * Qpower 10 (- x))%Q
          else None
        else None
    | _ => None
    end.

(** The value of a string of digits, read after [acc]. *)
Fixpoint places (s : string) (acc : Z) : Z :=
  match s with
  | EmptyString => acc
  | String c r => places r (10 * acc + match digit c with Some d => d | None => 0 end)
  end.

Fixpoint digit_string (s : string) : bool :=
  match s with
  | EmptyString => true
  | String c r => match digit c with Some _ => digit_string r | None => false end
  end.

(** What follows a string of digits: nothing, or a character that is not
    a digit. *)
Definition stops (s : string) : Prop :=
  match s with
  | EmptyString => True
  | String c _ => digit c = None
  end.

Definition len (s : string) : Z := Z.of_nat (String.length s).

(** *** The criterion, with the test the printer uses

    [round_trips] and [shortest_round_trip] again, with [reads_back] for
    [rounds_to]: the form in which the search of [shortest] is followed. *)
Definition represents (m : positive) (e : Z) (s k n : Z) : Prop :=
  1 <= k /\ 10 ^ (k - 1) <= s < 10 ^ k /\ reads_back m e (decimal k (s, n)) = true.

Definition ecma_digits (m : positive) (e : Z) (s k n : Z) : Prop :=
  represents m e s k n
  /\ (forall s' k' n', represents m e s' k' n' -> k <= k')
  /\ (forall s' n', represents m e s' k n' ->
        (Qabs_diff (decimal k (s, n)) (dyadic m e)
         <= Qabs_diff (decimal k (s', n')) (dyadic m e))%Q
        /\ (Qabs_diff (decimal k (s, n)) (dyadic m e)
            == Qabs_diff (decimal k (s', n')) (dyadic m e) ->
            Z.even s' = true -> Z.even s = true)%Q).

(** The margins below and above the double within which a number reads
    back as it. *)
Definition margin_up (e : Z) : Q := (Qpower 2 e / 2)%Q.

Definition margin_down (m : positive) (e : Z) : Q :=
  if (Zpos m =? 2 ^ (prec - 1)) && (emin prec emax <? e)
  then (Qpower 2 e / 4)%Q else (Qpower 2 e / 2)%Q.

(** ** Validation failures *)




(** * Verification *)

Arguments Number_toString : simpl never.
Arguments of_Z : simpl never.
Arguments includes : simpl never.
Arguments HttpServer.isValidFrequenciesArray : simpl never.
Arguments HttpServer.withStrings : simpl never.
Arguments ToString : simpl never.

(** ** Numbers and values *)

Lemma sameValueZero_of_Z (z : Z) (n : number) :
  (exists q, number_value (of_Z z) = Some q /\ Qeq q (inject_Z z)) ->
  number_sameValueZero (of_Z z) n = true <-> denotes n z.
Proof.
  intros (q & Hq & Hz). unfold denotes, number_sameValueZero.
  destruct (of_Z z) eqn:Hz'; try discriminate;
    destruct n; simpl in *; try (split; [discriminate | contradiction]);
    injection Hq as <-; rewrite Qeq_bool_iff; rewrite Hz;
    split; intros H; symmetry; exact H.
Qed.

Lemma includes_ear_sides (n : number) :
  includes [VNum (of_Z 0); VNum (of_Z 1); VNum (of_Z 2)] (VNum n) = true
  <-> denotes n 0 \/ denotes n 1 \/ denotes n 2.
Proof.
  unfold includes. cbn [existsb sameValueZero]. rewrite !orb_true_iff.
  rewrite !sameValueZero_of_Z
    by (eexists; split; [vm_compute; reflexivity | reflexivity]).
  intuition discriminate.
Qed.

(** [Number_toString] on values whose text is well known. *)
Example Number_toString_examples :
  Number_toString (SFadd prec emax (of_ratio 1 10) (of_ratio 2 10)) = "0.30000000000000004"
  /\ Number_toString (of_Z (10 ^ 21)) = "1e+21"
  /\ Number_toString (of_Z 123456789012345680000) = "123456789012345680000"
  /\ Number_toString (of_ratio 1 10000000) = "1e-7"
  /\ Number_toString (of_ratio (-3) 2) = "-1.5"
  /\ Number_toString (S754_finite false 1 (-1074)) = "5e-324".
Proof. repeat split; vm_compute; reflexivity. Qed.

Lemma typeof_number (v : value) :
  (typeof v =? "number")%string = true <-> exists n, v = VNum n.
Proof.
  destruct v; simpl; split; intros H; try discriminate;
    try (destruct H as [n H]; discriminate); eauto.
Qed.

Lemma truthy_not_null (u : value) : truthy u = true -> u <> VNull.
Proof. intros H ->. discriminate. Qed.

(** The values [if (v)] rejects. *)
Lemma falsy_values (v : value) :
  truthy v = false <->
  v = VUndefined \/ v = VNull \/ v = VBool false \/ v = VStr ""
  \/ (exists s, v = VNum (S754_zero s)) \/ v = VNum S754_nan.
Proof.
  split.
  - destruct v as [| |[]|[]|s| |]; simpl; try discriminate; eauto 10.
    destruct s; simpl; [auto | discriminate].
  - intros [->|[->|[->|[->|[[s ->]| ->]]]]]; reflexivity.
Qed.

(** ** The validators *)

Lemma isValidFrequency_total (v : value) : exists b, HttpServer.isValidFrequency v = Ok b.
Proof.
  unfold HttpServer.isValidFrequency.
  destruct v; simpl; eauto.
  - destruct (own properties "frequency") as [f|]; simpl; eauto.
    destruct (typeof f =? "number")%string; eauto.
    destruct (own properties "earSide"); eauto.
Qed.

Lemma isValidFrequency_true (v : value) :
  HttpServer.isValidFrequency v = Ok true <->
  (typeof v = "object" /\ v <> VNull /\
   exists f e, get v frequency_ = Ok (VNum f) /\ get v earSide_ = Ok (VNum e)
               /\ (denotes e 0 \/ denotes e 1 \/ denotes e 2)).
Proof.
  unfold HttpServer.isValidFrequency. split.
  - destruct v; simpl; try discriminate.
    destruct (own properties "frequency") as [f|] eqn:Hf; simpl; try discriminate.
    destruct (typeof f =? "number")%string eqn:Tf; try discriminate.
    apply typeof_number in Tf as [nf ->].
    destruct (own properties "earSide") as [e|] eqn:He; simpl.
    + destruct (typeof e =? "number")%string eqn:Te; simpl; try discriminate.
      apply typeof_number in Te as [ne ->].
      intros H. injection H as H. apply includes_ear_sides in H.
      repeat split; try discriminate. eauto.
    + discriminate.
  - intros (Ht & Hn & f & e & Hf & He & Hside).
    destruct v; try discriminate; try contradiction. simpl in *.
    destruct (own properties "frequency") as [f'|]; try discriminate.
    injection Hf as ->. simpl.
    destruct (own properties "earSide") as [e'|]; try discriminate.
    injection He as ->. simpl.
    apply includes_ear_sides in Hside. rewrite Hside. reflexivity.
Qed.

Lemma every_total (xs : list value) : exists b, HttpServer.every xs = Ok b.
Proof.
  induction xs as [|x xs IH]; simpl; eauto.
  destruct (isValidFrequency_total x) as [[] ->]; eauto.
Qed.

Lemma every_true (xs : list value) :
  HttpServer.every xs = Ok true <->
  Forall (fun x => HttpServer.isValidFrequency x = Ok true) xs.
Proof.
  induction xs as [|x xs IH]; simpl.
  - split; auto.
  - destruct (isValidFrequency_total x) as [[] Hx]; rewrite Hx.
    + rewrite IH. split; intros H.
      * constructor; assumption.
      * inversion H; assumption.
    + split; intros H; try discriminate.
      inversion H as [|? ? Hx' ?]. rewrite Hx in Hx'. discriminate.
Qed.

(** C7. [isValidFrequency] answers on every value, without throwing, and
    answers [true] exactly on a non-null object whose [frequency] is a
    number and whose [earSide] is a number equal to 0, 1 or 2;
    [isValidFrequenciesArray] answers on every value, [true] exactly on an
    array (the empty one included) whose elements all pass, hence [false]
    on anything that is not an array. *)
Theorem validators_spec :
  (forall v,
      (exists b, HttpServer.isValidFrequency v = Ok b) /\
      (HttpServer.isValidFrequency v = Ok true <->
       typeof v = "object" /\ v <> VNull /\
       exists f e, get v frequency_ = Ok (VNum f) /\ get v earSide_ = Ok (VNum e)
                   /\ (denotes e 0 \/ denotes e 1 \/ denotes e 2)))
  /\
  (forall v,
      (exists b, HttpServer.isValidFrequenciesArray v = Ok b) /\
      (HttpServer.isValidFrequenciesArray v = Ok true <->
       exists xs, v = VArr xs /\
                  Forall (fun x => HttpServer.isValidFrequency x = Ok true) xs) /\
      (Array_isArray v = false -> HttpServer.isValidFrequenciesArray v = Ok false))
  /\ HttpServer.isValidFrequenciesArray (VArr []) = Ok true.
Proof.
  split; [|split].
  - intros v. split.
    + apply isValidFrequency_total.
    + apply isValidFrequency_true.
  - intros v. unfold HttpServer.isValidFrequenciesArray. repeat split.
    + destruct v; eauto. apply every_total.
    + destruct v; try discriminate. intros H. eexists. split; [reflexivity|].
      apply every_true. assumption.
    + intros (xs & -> & H). apply every_true. assumption.
    + destruct v; simpl; try discriminate; reflexivity.
  - reflexivity.
Qed.

Lemma validators_spec_witness :
  HttpServer.isValidFrequenciesArray (VStr "array") = Ok false
  /\ HttpServer.isValidFrequency
       (VObj [("frequency", VNum (of_ratio 453 10)); ("earSide", VNum (of_Z 2))])
     = Ok true.
Proof.
  destruct validators_spec as (Hone & Hall & _).
  split.
  - apply (Hall (VStr "array")). reflexivity.
  - apply (Hone (VObj [("frequency", VNum (of_ratio 453 10)); ("earSide", VNum (of_Z 2))])).
    split; [reflexivity|]. split; [discriminate|].
    exists (of_ratio 453 10), (of_Z 2). split; [reflexivity|]. split; [reflexivity|].
    right. right. vm_compute. reflexivity.
Defined.

(** ** The text of a number *)

Ltac qnorm :=
  unfold Qdiv in *;
  change (/ 2) with (1 # 2) in *; change (/ 4) with (1 # 4) in *;
  repeat match goal with
         | |- context [Qpower ?b ?n] => generalize dependent (Qpower b n); intros
         | H : context [Qpower ?b ?n] |- _ => generalize dependent (Qpower b n); intros
         end.

Ltac qfield :=
  repeat match goal with
         | |- context [Qpower ?b ?n] => generalize (Qpower b n); intro
         | |- context [inject_Z ?z] => generalize (inject_Z z); intro
         end;
  first [ring | field].

Section Digits.
Local Open Scope Q_scope.

Lemma Qltb_iff (a b : Q) : Qltb a b = true <-> a < b.
Proof.
  unfold Qltb. rewrite negb_true_iff. split.
  - intros H. apply Qnot_le_lt. intros H'. apply Qle_bool_iff in H'. congruence.
  - intros H. destruct (Qle_bool b a) eqn:E; [|reflexivity].
    apply Qle_bool_iff in E. exfalso. apply (Qlt_not_le _ _ H E).
Qed.

Lemma Qpower_2_pos (e : Z) : 0 < Qpower 2 e.
Proof. apply Qpower_0_lt. reflexivity. Qed.

Lemma Qpower_10_pos (n : Z) : 0 < Qpower 10 n.
Proof. apply Qpower_0_lt. reflexivity. Qed.

Lemma dyadic_pos (m : positive) (e : Z) : 0 < dyadic m e.
Proof.
  unfold dyadic. apply Qmult_lt_0_compat; [|apply Qpower_2_pos].
  unfold Qlt. simpl. lia.
Qed.

Lemma margin_up_pos e : 0 < margin_up e.
Proof. unfold margin_up. pose proof (Qpower_2_pos e). qnorm. lra. Qed.

Lemma margin_down_pos m e : 0 < margin_down m e.
Proof.
  unfold margin_down. pose proof (Qpower_2_pos e).
  destruct ((Zpos m =? 2 ^ (prec - 1)) && (emin prec emax <? e))%Z; qnorm; lra.
Qed.

Lemma reads_back_spec (m : positive) (e : Z) (v : Q) :
  reads_back m e v = true <->
  if Z.even (Zpos m)
  then dyadic m e - margin_down m e <= v /\ v <= dyadic m e + margin_up e
  else dyadic m e - margin_down m e < v /\ v < dyadic m e + margin_up e.
Proof.
  unfold reads_back, margin_down, margin_up. cbv zeta.
  destruct (Z.even (Zpos m)); rewrite andb_true_iff.
  - rewrite !Qle_bool_iff. reflexivity.
  - rewrite !Qltb_iff. reflexivity.
Qed.

Lemma reads_back_below (m : positive) (e : Z) (v w : Q) :
  reads_back m e v = true -> v <= w -> w <= dyadic m e -> reads_back m e w = true.
Proof.
  rewrite !reads_back_spec. pose proof (margin_up_pos e).
  destruct (Z.even (Zpos m)); intros [H1 H2] H3 H4; split; lra.
Qed.

Lemma reads_back_above (m : positive) (e : Z) (v w : Q) :
  reads_back m e v = true -> w <= v -> dyadic m e <= w -> reads_back m e w = true.
Proof.
  rewrite !reads_back_spec. pose proof (margin_down_pos m e).
  destruct (Z.even (Zpos m)); intros [H1 H2] H3 H4; split; lra.
Qed.

(** *** Powers of ten *)

Lemma pow10_plus (a b : Z) : Qpower 10 (a + b) == Qpower 10 a * Qpower 10 b.
Proof. apply Qpower_plus. discriminate. Qed.

Lemma pow10_times (a b c : Z) :
  (a + b = c)%Z -> Qpower 10 a * Qpower 10 b == Qpower 10 c.
Proof. intros <-. symmetry. apply pow10_plus. Qed.

Lemma pow10_Z (k : Z) : (0 <= k)%Z -> inject_Z (10 ^ k) == Qpower 10 k.
Proof. intros H. apply (Zpower_Qpower 10 k H). Qed.

Lemma pow10_le (a b : Z) : (a <= b)%Z -> Qpower 10 a <= Qpower 10 b.
Proof. intros H. apply Qpower_le_compat_l; [exact H|discriminate]. Qed.

Lemma pow10_lt (a b : Z) : (a < b)%Z -> Qpower 10 a < Qpower 10 b.
Proof. intros H. apply Qpower_lt_compat_l; [exact H|reflexivity]. Qed.

Lemma decimal_eq (k s n : Z) : decimal k (s, n) = inject_Z s * Qpower 10 (n - k).
Proof. reflexivity. Qed.

(** A number of [k] digits at the exponent [n] lies in [10^(n-1), 10^n). *)
Lemma decimal_range (k s n : Z) :
  (1 <= k)%Z -> (10 ^ (k - 1) <= s < 10 ^ k)%Z ->
  Qpower 10 (n - 1) <= decimal k (s, n) /\ decimal k (s, n) < Qpower 10 n.
Proof.
  intros Hk [Hlo Hhi]. rewrite decimal_eq.
  pose proof (Qpower_10_pos (n - k)) as Hs.
  rewrite Zle_Qle, pow10_Z in Hlo by lia. rewrite Zlt_Qlt, pow10_Z in Hhi by lia.
  assert (E1 : Qpower 10 (n - 1) == Qpower 10 (k - 1) * Qpower 10 (n - k)).
  { rewrite <- pow10_plus. replace (k - 1 + (n - k))%Z with (n - 1)%Z by lia. reflexivity. }
  assert (E2 : Qpower 10 n == Qpower 10 k * Qpower 10 (n - k)).
  { rewrite <- pow10_plus. replace (k + (n - k))%Z with n by lia. reflexivity. }
  rewrite E1, E2. split.
  - apply Qmult_le_compat_r; [exact Hlo|apply Qlt_le_weak; exact Hs].
  - apply Qmult_lt_compat_r; [exact Hs|exact Hhi].
Qed.

(** The digits and the exponent are determined by the number. *)
Lemma decimal_inj (k s n s' n' : Z) :
  (1 <= k)%Z -> (10 ^ (k - 1) <= s < 10 ^ k)%Z -> (10 ^ (k - 1) <= s' < 10 ^ k)%Z ->
  decimal k (s, n) == decimal k (s', n') -> s = s' /\ n = n'.
Proof.
  intros Hk Hs Hs' Heq.
  destruct (decimal_range k s n Hk Hs) as [H1 H2].
  destruct (decimal_range k s' n' Hk Hs') as [H1' H2'].
  assert (Hn : n = n').
  { destruct (Z.lt_trichotomy n n') as [Hlt|[Heq'|Hgt]]; [|exact Heq'|].
    - pose proof (pow10_le n (n' - 1) ltac:(lia)). lra.
    - pose proof (pow10_le n' (n - 1) ltac:(lia)). lra. }
  subst n'. split; [|reflexivity].
  rewrite !decimal_eq in Heq. pose proof (Qpower_10_pos (n - k)) as Hp.
  apply Qmult_inj_r in Heq; [|lra].
  unfold Qeq in Heq. simpl in Heq. lia.
Qed.

Section Grid.
Variables (x : Q) (k n : Z).
Hypothesis Hk : (1 <= k)%Z.
Hypothesis Hx : Qpower 10 (n - 1) <= x /\ x < Qpower 10 n.

Lemma below_le : decimal k (below x k n) <= x.
Proof.
  unfold below. rewrite decimal_eq. pose proof (Qpower_10_pos (n - k)) as Hs.
  pose proof (Qfloor_le (x / Qpower 10 (n - k))) as H.
  apply (Qmult_le_compat_r _ _ (Qpower 10 (n - k))) in H; [|lra].
  setoid_replace (x / Qpower 10 (n - k) * Qpower 10 (n - k)) with x in H; [exact H|].
  field. lra.
Qed.

Lemma floor_range :
  (10 ^ (k - 1) <= Qfloor (x / Qpower 10 (n - k)) < 10 ^ k)%Z.
Proof.
  pose proof (Qpower_10_pos (n - k)) as Hs. destruct Hx as [Hlo Hhi].
  pose proof (pow10_times (k - 1) (n - k) (n - 1) ltac:(lia)) as E1.
  pose proof (pow10_times k (n - k) n ltac:(lia)) as E2.
  split.
  - rewrite <- (Qfloor_Z (10 ^ (k - 1))). apply Qfloor_resp_le.
    apply Qle_shift_div_l; [exact Hs|]. rewrite pow10_Z by lia. lra.
  - rewrite Zlt_Qlt. apply Qle_lt_trans with (x / Qpower 10 (n - k)); [apply Qfloor_le|].
    apply Qlt_shift_div_r; [exact Hs|]. rewrite pow10_Z by lia. lra.
Qed.

Lemma below_range : (10 ^ (k - 1) <= fst (below x k n) < 10 ^ k)%Z.
Proof. exact floor_range. Qed.

Lemma above_eq :
  decimal k (above x k n)
  == inject_Z (Qfloor (x / Qpower 10 (n - k)) + 1) * Qpower 10 (n - k).
Proof.
  unfold above. cbv zeta. pose proof floor_range as [_ Hhi].
  destruct (Qfloor (x / Qpower 10 (n - k)) + 1 <? 10 ^ k)%Z eqn:E; [reflexivity|].
  apply Z.ltb_ge in E.
  replace (Qfloor (x / Qpower 10 (n - k)) + 1)%Z with (10 ^ k)%Z by lia.
  rewrite decimal_eq, !pow10_Z by lia.
  rewrite (pow10_times (k - 1) (n + 1 - k) n), (pow10_times k (n - k) n) by lia.
  reflexivity.
Qed.

Lemma above_range : (10 ^ (k - 1) <= fst (above x k n) < 10 ^ k)%Z.
Proof.
  unfold above. cbv zeta. pose proof floor_range as [Hlo Hhi].
  destruct (Qfloor (x / Qpower 10 (n - k)) + 1 <? 10 ^ k)%Z eqn:E; cbn [fst].
  - apply Z.ltb_lt in E. lia.
  - split; [lia|]. apply Z.pow_lt_mono_r; lia.
Qed.

Lemma above_gt : x < decimal k (above x k n).
Proof.
  rewrite above_eq. pose proof (Qpower_10_pos (n - k)) as Hs.
  pose proof (Qlt_floor (x / Qpower 10 (n - k))) as H.
  apply (Qmult_lt_compat_r _ _ (Qpower 10 (n - k))) in H; [|exact Hs].
  setoid_replace (x / Qpower 10 (n - k) * Qpower 10 (n - k)) with x in H; [exact H|].
  field. lra.
Qed.

Lemma above_below :
  decimal k (above x k n) == decimal k (below x k n) + Qpower 10 (n - k).
Proof.
  rewrite above_eq. unfold below. rewrite decimal_eq, inject_Z_plus. ring.
Qed.

(** No number of [k] digits lies strictly between the two. *)
Lemma between (s' n' : Z) :
  (10 ^ (k - 1) <= s' < 10 ^ k)%Z ->
  decimal k (s', n') <= decimal k (below x k n)
  \/ decimal k (above x k n) <= decimal k (s', n').
Proof.
  intros Hs'. destruct (decimal_range k s' n' Hk Hs') as [H1 H2].
  pose proof floor_range as [Hlo Hhi].
  pose proof (Qpower_10_pos (n - k)) as Hs.
  destruct (Z.lt_trichotomy n' n) as [Hlt|[->|Hgt]].
  - left. destruct (decimal_range k _ n Hk floor_range) as [H3 _].
    pose proof (pow10_le n' (n - 1) ltac:(lia)).
    unfold below. lra.
  - rewrite above_eq. unfold below. rewrite !decimal_eq.
    destruct (Z_le_gt_dec s' (Qfloor (x / Qpower 10 (n - k)))) as [Hle|Hgt].
    + left. apply Qmult_le_compat_r; [|lra]. rewrite <- Zle_Qle. exact Hle.
    + right. apply Qmult_le_compat_r; [|lra]. rewrite <- Zle_Qle. lia.
  - right. rewrite above_eq.
    assert (H3 : inject_Z (Qfloor (x / Qpower 10 (n - k)) + 1) * Qpower 10 (n - k)
                 <= Qpower 10 n).
    { rewrite <- (pow10_times k (n - k) n) by lia. rewrite <- (pow10_Z k) by lia.
      apply Qmult_le_compat_r; [|lra]. rewrite <- Zle_Qle. lia. }
    pose proof (pow10_le n (n' - 1) ltac:(lia)). lra.
Qed.

End Grid.

Lemma dist_below (v x : Q) : v <= x -> Qabs_diff v x == x - v.
Proof. intros H. unfold Qabs_diff. rewrite Qabs_neg by lra. ring. Qed.

Lemma dist_above (v x : Q) : x <= v -> Qabs_diff v x == v - x.
Proof. intros H. unfold Qabs_diff. rewrite Qabs_pos by lra. reflexivity. Qed.

Section Candidate.
Variables (m : positive) (e k n : Z).
Hypothesis Hk : (1 <= k)%Z.
Hypothesis Hx : Qpower 10 (n - 1) <= dyadic m e /\ dyadic m e < Qpower 10 n.

Let x := dyadic m e.
Let lo := below x k n.
Let hi := above x k n.

Lemma candidate_none :
  candidate m e k n = None -> forall s' n', ~ represents m e s' k n'.
Proof.
  unfold candidate. cbv zeta. fold x lo hi.
  destruct (reads_back m e (decimal k lo)) eqn:Hlo,
           (reads_back m e (decimal k hi)) eqn:Hhi;
    try discriminate;
    [repeat match goal with |- context [if ?b then _ else _] => destruct b end;
     discriminate|].
  intros _ s' n' (_ & Hs' & Hr).
  destruct (between x k n Hk Hx s' n' Hs') as [H|H].
  - pose proof (reads_back_below m e _ _ Hr H (below_le x k n)) as H'.
    fold lo in H'. congruence.
  - pose proof (reads_back_above m e _ _ Hr H
                  (Qlt_le_weak _ _ (above_gt x k n Hk Hx))) as H'.
    fold hi in H'. congruence.
Qed.

Lemma candidate_choice (c : Z * Z) :
  candidate m e k n = Some c ->
  (c = lo /\ reads_back m e (decimal k lo) = true
   /\ (reads_back m e (decimal k hi) = true ->
       Qabs_diff (decimal k lo) x <= Qabs_diff (decimal k hi) x
       /\ (Qabs_diff (decimal k lo) x == Qabs_diff (decimal k hi) x ->
           Z.even (fst lo) = true)))
  \/ (c = hi /\ reads_back m e (decimal k hi) = true
      /\ (reads_back m e (decimal k lo) = true ->
          Qabs_diff (decimal k hi) x <= Qabs_diff (decimal k lo) x
          /\ (Qabs_diff (decimal k hi) x == Qabs_diff (decimal k lo) x ->
              Z.even (fst lo) = false))).
Proof.
  unfold candidate. cbv zeta. fold x lo hi.
  destruct (reads_back m e (decimal k lo)) eqn:Hlo,
           (reads_back m e (decimal k hi)) eqn:Hhi; try discriminate.
  - destruct (Qltb (Qabs_diff (decimal k lo) x) (Qabs_diff (decimal k hi) x)) eqn:E1.
    { apply Qltb_iff in E1. intros [= <-]. left.
      split; [reflexivity|]. split; [reflexivity|]. intros _. split; [lra|].
      intros H. lra. }
    destruct (Qltb (Qabs_diff (decimal k hi) x) (Qabs_diff (decimal k lo) x)) eqn:E2.
    { apply Qltb_iff in E2. intros [= <-]. right.
      split; [reflexivity|]. split; [reflexivity|]. intros _. split; [lra|].
      intros H. lra. }
    assert (H1 : ~ Qabs_diff (decimal k lo) x < Qabs_diff (decimal k hi) x)
      by (intros H; apply Qltb_iff in H; congruence).
    assert (H2 : ~ Qabs_diff (decimal k hi) x < Qabs_diff (decimal k lo) x)
      by (intros H; apply Qltb_iff in H; congruence).
    apply Qnot_lt_le in H1, H2.
    destruct (Z.even (fst lo)) eqn:E3; intros [= <-]; [left|right];
      (split; [reflexivity|]; split; [reflexivity|]; intros _; split;
       [assumption|intros _; reflexivity]).
  - intros [= <-]. left. split; [reflexivity|]. split; [reflexivity|].
    intros H. discriminate H.
  - intros [= <-]. right. split; [reflexivity|]. split; [reflexivity|].
    intros H. discriminate H.
Qed.

Lemma candidate_some (s n1 : Z) :
  candidate m e k n = Some (s, n1) ->
  represents m e s k n1
  /\ forall s' n', represents m e s' k n' ->
       Qabs_diff (decimal k (s, n1)) x <= Qabs_diff (decimal k (s', n')) x
       /\ (Qabs_diff (decimal k (s, n1)) x == Qabs_diff (decimal k (s', n')) x ->
           Z.even s' = true -> Z.even s = true).
Proof.
  intros Hc.
  pose proof (below_le x k n) as HB. fold lo in HB.
  pose proof (above_gt x k n Hk Hx) as HA. fold hi in HA.
  pose proof (below_range x k n Hk Hx) as RB. fold lo in RB.
  pose proof (above_range x k n Hk Hx) as RA. fold hi in RA.
  assert (Hpair : forall c : Z * Z, c = (fst c, snd c)) by (intros []; reflexivity).
  unfold represents.
  destruct (candidate_choice _ Hc) as [(Hs & Hr & Hcmp)|(Hs & Hr & Hcmp)];
    pose proof (f_equal fst Hs) as Hs1; pose proof (f_equal snd Hs) as Hs2;
    cbn [fst snd] in Hs1, Hs2; clear Hc Hs; subst s n1.
  - change (decimal k (fst lo, snd lo)) with (decimal k lo).
    split; [split; [exact Hk|split; [exact RB|exact Hr]]|].
    intros s' n' (_ & Hs' & Hr').
    rewrite (dist_below _ _ HB).
    destruct (between x k n Hk Hx s' n' Hs') as [H|H]; fold lo hi in H.
    + rewrite (dist_below (decimal k (s', n')) x) by lra. split; [lra|].
      intros Heq Hev. assert (Hv : decimal k (s', n') == decimal k lo) by lra.
      rewrite (Hpair lo) in Hv.
      destruct (decimal_inj k s' n' _ _ Hk Hs' RB Hv) as [-> _]. exact Hev.
    + pose proof (reads_back_above m e _ _ Hr' H (Qlt_le_weak _ _ HA)) as HrA.
      destruct (Hcmp HrA) as [Hle Htie].
      rewrite (dist_below _ _ HB), (dist_above _ _ (Qlt_le_weak _ _ HA)) in Hle, Htie.
      rewrite (dist_above (decimal k (s', n')) x) by lra. split; [lra|].
      intros Heq _. apply Htie. lra.
  - change (decimal k (fst hi, snd hi)) with (decimal k hi).
    split; [split; [exact Hk|split; [exact RA|exact Hr]]|].
    intros s' n' (_ & Hs' & Hr').
    rewrite (dist_above _ _ (Qlt_le_weak _ _ HA)).
    destruct (between x k n Hk Hx s' n' Hs') as [H|H]; fold lo hi in H.
    + pose proof (reads_back_below m e _ _ Hr' H HB) as HrB.
      destruct (Hcmp HrB) as [Hle Htie].
      rewrite (dist_below _ _ HB), (dist_above _ _ (Qlt_le_weak _ _ HA)) in Hle, Htie.
      rewrite (dist_below (decimal k (s', n')) x) by lra. split; [lra|].
      intros Heq Hev. assert (Hv : decimal k (s', n') == decimal k lo) by lra.
      rewrite (Hpair lo) in Hv.
      destruct (decimal_inj k s' n' _ _ Hk Hs' RB Hv) as [-> _].
      rewrite Htie in Hev by lra. discriminate.
    + rewrite (dist_above (decimal k (s', n')) x) by lra. split; [lra|].
      intros Heq Hev. assert (Hv : decimal k (s', n') == decimal k hi) by lra.
      rewrite (Hpair hi) in Hv.
      destruct (decimal_inj k s' n' _ _ Hk Hs' RA Hv) as [-> _]. exact Hev.
Qed.

End Candidate.

(** *** Doubles in canonical form *)

Lemma digits2_pos_bound (m : positive) :
  (2 ^ (Zpos (digits2_pos m) - 1) <= Zpos m < 2 ^ Zpos (digits2_pos m))%Z.
Proof.
  induction m as [p IH|p IH|]; cbn [digits2_pos].
  - rewrite Pos2Z.inj_succ. replace (Z.succ (Zpos (digits2_pos p)) - 1)%Z
      with (Z.succ (Zpos (digits2_pos p) - 1)) by lia.
    rewrite !Z.pow_succ_r by lia. lia.
  - rewrite Pos2Z.inj_succ. replace (Z.succ (Zpos (digits2_pos p)) - 1)%Z
      with (Z.succ (Zpos (digits2_pos p) - 1)) by lia.
    rewrite !Z.pow_succ_r by lia. lia.
  - simpl. lia.
Qed.

Lemma bounded_facts (m : positive) (e : Z) :
  bounded prec emax m e = true ->
  (Zpos m < 2 ^ 53 /\ -1074 <= e <= 971)%Z.
Proof.
  unfold bounded, canonical_mantissa, fexp, emin, prec, emax.
  intros H. apply andb_true_iff in H as [H1 H2].
  apply Z.eqb_eq in H1. apply Z.leb_le in H2.
  pose proof (digits2_pos_bound m) as [_ Hm].
  assert (Hd : (Zpos (digits2_pos m) <= 53)%Z) by lia.
  split; [|lia].
  apply Z.lt_le_trans with (2 ^ Zpos (digits2_pos m))%Z; [exact Hm|].
  apply Z.pow_le_mono_r; lia.
Qed.

Lemma normalize_bounded (m : positive) (e : Z) :
  bounded prec emax m e = true ->
  binary_normalize prec emax (Zpos m) e false = S754_finite false m e.
Proof.
  intros H. unfold bounded, canonical_mantissa in H.
  apply andb_true_iff in H as [H1 H2]. apply Z.eqb_eq in H1.
  unfold binary_normalize, binary_round, shl_align. rewrite H1, Z.sub_diag.
  unfold binary_round_aux, shr_fexp. cbn [Zdigits2 shr_record_of_loc].
  rewrite H1, Z.sub_diag. cbn [shr shr_m loc_of_shr_record round_nearest_even Zdigits2].
  cbn [shr_record_of_loc]. rewrite H1, Z.sub_diag. cbn [shr shr_m]. rewrite H2.
  reflexivity.
Qed.

Lemma dyadic_bounds (m : positive) (e : Z) :
  bounded prec emax m e = true ->
  Qpower 10 (-330 - 1) <= dyadic m e /\ dyadic m e < Qpower 10 (-330 + Z.of_nat 700).
Proof.
  intros H. destruct (bounded_facts m e H) as [Hm [He1 He2]]. unfold dyadic.
  pose proof (Qpower_2_pos e) as Hp.
  assert (H1 : Qpower 2 (-1074) <= Qpower 2 e)
    by (apply Qpower_le_compat_l; [exact He1|discriminate]).
  assert (H2 : Qpower 2 e <= Qpower 2 971)
    by (apply Qpower_le_compat_l; [exact He2|discriminate]).
  assert (H3 : Qpower 10 (-330 - 1) <= Qpower 2 (-1074))
    by (apply Qle_bool_iff; vm_compute; reflexivity).
  assert (H4 : inject_Z (2 ^ 53) * Qpower 2 971 <= Qpower 10 (-330 + Z.of_nat 700))
    by (apply Qle_bool_iff; vm_compute; reflexivity).
  assert (H5 : 1 <= inject_Z (Zpos m)) by (rewrite <- (Zle_Qle 1); lia).
  assert (H6 : inject_Z (Zpos m) < inject_Z (2 ^ 53)) by (rewrite <- Zlt_Qlt; exact Hm).
  split.
  - apply Qle_trans with (Qpower 2 e); [lra|].
    rewrite <- (Qmult_1_l (Qpower 2 e)) at 1.
    apply Qmult_le_compat_r; [exact H5|lra].
  - apply Qlt_le_trans with (inject_Z (2 ^ 53) * Qpower 2 971); [|exact H4].
    apply Qlt_le_trans with (inject_Z (2 ^ 53) * Qpower 2 e).
    + apply Qmult_lt_compat_r; [exact Hp|exact H6].
    + apply Qmult_le_l; [reflexivity|exact H2].
Qed.

Lemma magnitude_spec (x : Q) (fuel : nat) :
  forall n,
    Qpower 10 (n - 1) <= x -> x < Qpower 10 (n + Z.of_nat fuel) ->
    Qpower 10 (magnitude fuel x n - 1) <= x /\ x < Qpower 10 (magnitude fuel x n).
Proof.
  induction fuel as [|fuel IH]; intros n Hlo Hhi; cbn [magnitude].
  - rewrite Z.add_0_r in Hhi. split; assumption.
  - destruct (Qltb x (Qpower 10 n)) eqn:E.
    + apply Qltb_iff in E. split; assumption.
    + assert (Hge : Qpower 10 n <= x).
      { apply Qnot_lt_le. intros H. apply Qltb_iff in H. congruence. }
      apply IH.
      * replace (n + 1 - 1)%Z with n by lia. exact Hge.
      * replace (n + 1 + Z.of_nat fuel)%Z with (n + Z.of_nat (S fuel))%Z by lia.
        exact Hhi.
Qed.

(** *** Seventeen digits identify a double *)

Lemma margin_down_le_up (m : positive) (e : Z) : margin_down m e <= margin_up e.
Proof.
  unfold margin_down, margin_up. pose proof (Qpower_2_pos e).
  destruct ((Zpos m =? 2 ^ (prec - 1)) && (emin prec emax <? e))%Z; qnorm; lra.
Qed.

Lemma seventeen_margin (m : positive) (e n : Z) :
  bounded prec emax m e = true ->
  Qpower 10 (n - 1) <= dyadic m e ->
  Qpower 10 (n - 17) / 2 < margin_down m e.
Proof.
  intros Hb Hx. destruct (bounded_facts m e Hb) as [Hm _].
  pose proof (Qpower_2_pos e) as Hp.
  pose proof (pow10_times 16 (n - 17) (n - 1) ltac:(lia)) as E.
  assert (E16 : Qpower 10 16 == 10000000000000000) by reflexivity.
  rewrite E16 in E. rewrite <- E in Hx. unfold dyadic in Hx.
  unfold margin_down.
  destruct ((Zpos m =? 2 ^ (prec - 1)) && (emin prec emax <? e))%Z eqn:C.
  - apply andb_true_iff in C as [C _]. apply Z.eqb_eq in C. rewrite C in Hx.
    change (inject_Z (2 ^ (prec - 1))) with (4503599627370496 : Q) in Hx.
    qnorm. lra.
  - assert (H6 : inject_Z (Zpos m) * Qpower 2 e < 9007199254740992 * Qpower 2 e).
    { apply Qmult_lt_compat_r; [exact Hp|].
      change (9007199254740992 : Q) with (inject_Z (2 ^ 53)). rewrite <- Zlt_Qlt.
      exact Hm. }
    qnorm. lra.
Qed.

Lemma seventeen (m : positive) (e n : Z) :
  bounded prec emax m e = true ->
  Qpower 10 (n - 1) <= dyadic m e /\ dyadic m e < Qpower 10 n ->
  candidate m e 17 n <> None.
Proof.
  intros Hb Hx Hnone.
  pose proof (seventeen_margin m e n Hb (proj1 Hx)) as Hmargin.
  pose proof (margin_down_le_up m e) as Hud.
  pose proof (margin_down_pos m e) as Hd.
  pose proof (below_le (dyadic m e) 17 n) as HB.
  pose proof (above_gt (dyadic m e) 17 n ltac:(lia) Hx) as HA.
  pose proof (above_below (dyadic m e) 17 n ltac:(lia) Hx) as HAB.
  pose proof (below_range (dyadic m e) 17 n ltac:(lia) Hx) as RB.
  pose proof (above_range (dyadic m e) 17 n ltac:(lia) Hx) as RA.
  assert (Hpair : forall c : Z * Z, c = (fst c, snd c)) by (intros []; reflexivity).
  destruct (Qlt_le_dec (Qpower 10 (n - 17) / 2)
              (dyadic m e - decimal 17 (below (dyadic m e) 17 n))) as [Hfar|Hnear].
  - apply (candidate_none m e 17 n ltac:(lia) Hx Hnone
             (fst (above (dyadic m e) 17 n)) (snd (above (dyadic m e) 17 n))).
    split; [lia|]. split; [exact RA|]. rewrite <- Hpair.
    apply reads_back_spec. destruct (Z.even (Zpos m)); qnorm; split; lra.
  - apply (candidate_none m e 17 n ltac:(lia) Hx Hnone
             (fst (below (dyadic m e) 17 n)) (snd (below (dyadic m e) 17 n))).
    split; [lia|]. split; [exact RB|]. rewrite <- Hpair.
    apply reads_back_spec. destruct (Z.even (Zpos m)); qnorm; split; lra.
Qed.

(** *** The digits printed *)

Lemma shortest_spec (m : positive) (e n0 : Z) :
  bounded prec emax m e = true ->
  Qpower 10 (n0 - 1) <= dyadic m e /\ dyadic m e < Qpower 10 n0 ->
  forall (fuel : nat) (k0 s k n : Z),
    (1 <= k0)%Z -> (k0 + Z.of_nat fuel = 18)%Z ->
    (forall s' k' n', represents m e s' k' n' -> (k0 <= k')%Z) ->
    shortest fuel m e n0 k0 = (s, k, n) ->
    ecma_digits m e s k n.
Proof.
  intros Hb Hx. induction fuel as [|fuel IH]; intros k0 s k n Hk0 Hfuel Hmin Hs.
  - exfalso. pose proof (seventeen m e n0 Hb Hx) as H17.
    destruct (candidate m e 17 n0) as [[s1 n1]|] eqn:Hc; [|congruence].
    destruct (candidate_some m e 17 n0 ltac:(lia) Hx s1 n1 Hc) as [Hr _].
    specialize (Hmin _ _ _ Hr). lia.
  - cbn [shortest] in Hs.
    destruct (candidate m e k0 n0) as [[s1 n1]|] eqn:Hc.
    + injection Hs as <- <- <-.
      destruct (candidate_some m e k0 n0 Hk0 Hx s1 n1 Hc) as [Hr Hclosest].
      split; [exact Hr|]. split; [exact Hmin|]. exact Hclosest.
    + apply (IH (k0 + 1)%Z s k n); [lia|lia| |exact Hs].
      intros s' k' n' Hr. pose proof (Hmin _ _ _ Hr) as Hle.
      destruct (Z.eq_dec k' k0) as [->|Hne]; [|lia].
      exfalso. apply (candidate_none m e k0 n0 Hk0 Hx Hc s' n'). exact Hr.
Qed.

Lemma positive_toString_spec (m : positive) (e : Z) :
  bounded prec emax m e = true ->
  exists s k n, ecma_digits m e s k n /\ positive_toString m e = format s k n.
Proof.
  intros Hb. unfold positive_toString. cbv zeta.
  destruct (dyadic_bounds m e Hb) as [Hlo Hhi].
  pose proof (magnitude_spec (dyadic m e) 700 (-330) Hlo Hhi) as Hx.
  destruct (shortest 17 m e (magnitude 700 (dyadic m e) (-330)) 1) as [[s k] n] eqn:Hs.
  exists s, k, n. split; [|reflexivity].
  apply (shortest_spec m e _ Hb Hx 17%nat 1 s k n); [lia|reflexivity| |exact Hs].
  intros s' k' n' (H & _). exact H.
Qed.

End Digits.

Section Nearest.
Local Open Scope Q_scope.

Lemma Qabs_cases (a : Q) : (0 <= a /\ Qabs a == a) \/ (a < 0 /\ Qabs a == - a).
Proof.
  destruct (Qlt_le_dec a 0) as [H|H].
  - right. split; [exact H|]. apply Qabs_neg. lra.
  - left. split; [exact H|]. apply Qabs_pos. exact H.
Qed.

Lemma canonical_facts (m : positive) (e : Z) :
  bounded prec emax m e = true ->
  (Zpos m < 2 ^ 53 /\ -1074 <= e <= 971 /\ (-1074 < e -> 2 ^ 52 <= Zpos m))%Z.
Proof.
  intros H. destruct (bounded_facts m e H) as [Hm He].
  split; [exact Hm|]. split; [exact He|]. intros Hlt.
  unfold bounded, canonical_mantissa, fexp, emin, prec, emax in H.
  apply andb_true_iff in H as [H1 _]. apply Z.eqb_eq in H1.
  pose proof (digits2_pos_bound m) as [Hd _].
  assert (E : Zpos (digits2_pos m) = 53%Z) by lia.
  rewrite E in Hd. exact Hd.
Qed.

Lemma pow2_plus (a b : Z) : Qpower 2 (a + b) == Qpower 2 a * Qpower 2 b.
Proof. apply Qpower_plus. discriminate. Qed.

Lemma pow2_Z (k : Z) : (0 <= k)%Z -> inject_Z (2 ^ k) == Qpower 2 k.
Proof. intros H. apply (Zpower_Qpower 2 k H). Qed.

Lemma pow2_shift (e E : Z) :
  (e <= E)%Z -> Qpower 2 E == inject_Z (2 ^ (E - e)) * Qpower 2 e.
Proof.
  intros H. rewrite pow2_Z by lia. rewrite <- pow2_plus.
  replace (E - e + e)%Z with E by lia. reflexivity.
Qed.

Lemma pow2_half (e : Z) : Qpower 2 (e - 1) == Qpower 2 e / 2.
Proof.
  replace (e - 1)%Z with (e + -1)%Z by lia. rewrite pow2_plus.
  change (Qpower 2 (-1)) with (/ 2). reflexivity.
Qed.

Lemma twice_margin_up (e : Z) : 2 * margin_up e == Qpower 2 e.
Proof. unfold margin_up. field. Qed.

Lemma twice_margin_down (m : positive) (e : Z) :
  2 * margin_down m e ==
  if (Zpos m =? 2 ^ 52)%Z && (-1074 <? e)%Z then Qpower 2 e / 2 else Qpower 2 e.
Proof.
  unfold margin_down. change (prec - 1)%Z with 52%Z. change (emin prec emax) with (-1074)%Z.
  destruct ((Zpos m =? 2 ^ 52)%Z && (-1074 <? e)%Z); field.
Qed.

Lemma inject_Z_succ_le (a b : Z) : (a < b)%Z -> inject_Z a + 1 <= inject_Z b.
Proof.
  intros H. change 1 with (inject_Z 1). rewrite <- inject_Z_plus, <- Zle_Qle. lia.
Qed.

(** The multiples of [2^e] other than [m * 2^e]. *)
Lemma multiple_gap (m : positive) (e N : Z) :
  (N <> Zpos m)%Z ->
  inject_Z N * Qpower 2 e <= dyadic m e - Qpower 2 e
  \/ dyadic m e + Qpower 2 e <= inject_Z N * Qpower 2 e.
Proof.
  intros H. unfold dyadic. pose proof (Qpower_2_pos e) as Hp.
  destruct (Z_lt_le_dec N (Zpos m)) as [Hlt|Hge].
  - left. assert (Hn : inject_Z N <= inject_Z (Zpos m) - 1).
    { pose proof (inject_Z_succ_le N (Zpos m) Hlt). lra. }
    apply Qle_trans with ((inject_Z (Zpos m) - 1) * Qpower 2 e).
    + apply Qmult_le_compat_r; [exact Hn|lra].
    + generalize dependent (Qpower 2 e). intros. lra.
  - right. assert (Hn : inject_Z (Zpos m) + 1 <= inject_Z N).
    { apply inject_Z_succ_le. lia. }
    apply Qle_trans with ((inject_Z (Zpos m) + 1) * Qpower 2 e).
    + generalize dependent (Qpower 2 e). intros. lra.
    + apply Qmult_le_compat_r; [exact Hn|lra].
Qed.

(** No value of the format lies between the double and its neighbours. *)
Lemma gap (m : positive) (e : Z) (y : Q) :
  bounded prec emax m e = true ->
  binary64 y \/ y == Qpower 2 1024 ->
  ~ y == dyadic m e ->
  y <= dyadic m e - 2 * margin_down m e \/ dyadic m e + 2 * margin_up e <= y.
Proof.
  intros Hb Hy Hne. destruct (canonical_facts m e Hb) as (Hm & He & Hn).
  pose proof (Qpower_2_pos e) as Hp.
  assert (Hdown : 2 * margin_down m e <= Qpower 2 e).
  { rewrite twice_margin_down. destruct (_ && _); qnorm; lra. }
  rewrite twice_margin_up.
  destruct Hy as [(M & E & HM & HE & Hy)|Hy].
  - destruct (Z_le_gt_dec e E) as [Hle|Hgt].
    + rewrite (pow2_shift e E Hle), Qmult_assoc, <- inject_Z_mult in Hy.
      destruct (multiple_gap m e (M * 2 ^ (E - e))) as [H|H].
      * intros Heq. apply Hne. rewrite Hy, Heq. reflexivity.
      * left. rewrite Hy. lra.
      * right. rewrite Hy. exact H.
    + left. specialize (Hn ltac:(lia)).
      assert (Hy' : y <= (inject_Z (2 ^ 53) - 1) * (Qpower 2 e / 2)).
      { rewrite Hy. destruct (Z_le_gt_dec M 0) as [Hneg|Hpos].
        - apply Qle_trans with 0.
          + assert (Hi : inject_Z M <= 0).
            { change 0 with (inject_Z 0). rewrite <- Zle_Qle. exact Hneg. }
            pose proof (Qpower_2_pos E) as HpE.
            setoid_replace (inject_Z M * Qpower 2 E)
              with (- ((- inject_Z M) * Qpower 2 E)) by ring.
            assert (0 <= (- inject_Z M) * Qpower 2 E).
            { apply Qmult_le_0_compat; lra. }
            lra.
          + apply Qmult_le_0_compat; [vm_compute; discriminate|]. qnorm. lra.
        - assert (Hi : inject_Z M <= inject_Z (2 ^ 53) - 1).
          { pose proof (inject_Z_succ_le M (2 ^ 53) ltac:(lia)). lra. }
          assert (HE' : Qpower 2 E <= Qpower 2 e / 2).
          { rewrite <- pow2_half. apply Qpower_le_compat_l; [lia|discriminate]. }
          pose proof (Qpower_2_pos E) as HpE.
          apply Qle_trans with ((inject_Z (2 ^ 53) - 1) * Qpower 2 E).
          + apply Qmult_le_compat_r; [exact Hi|lra].
          + apply Qmult_le_l; [vm_compute; reflexivity|exact HE']. }
      rewrite twice_margin_down.
      destruct (Z.eqb_spec (Zpos m) (2 ^ 52)) as [Heq|Hneq].
      * assert (Hlt : (-1074 <? e)%Z = true) by (apply Z.ltb_lt; lia).
        rewrite Hlt. cbn [andb]. unfold dyadic. rewrite Heq.
        eapply Qle_trans; [exact Hy'|].
        assert (E2 : inject_Z (2 ^ 53) == 2 * inject_Z (2 ^ 52)) by reflexivity.
        rewrite E2. generalize dependent (Qpower 2 e). intros.
        generalize (inject_Z (2 ^ 52)). intros. unfold Qdiv.
        change (/ 2) with (1 # 2). lra.
      * cbn [andb]. unfold dyadic.
        assert (Hi : inject_Z (2 ^ 52) + 1 <= inject_Z (Zpos m)).
        { apply inject_Z_succ_le. lia. }
        eapply Qle_trans; [exact Hy'|].
        apply Qle_trans with (inject_Z (2 ^ 52) * Qpower 2 e).
        -- assert (E2 : inject_Z (2 ^ 53) == 2 * inject_Z (2 ^ 52)) by reflexivity.
           rewrite E2. generalize dependent (Qpower 2 e). intros.
           generalize (inject_Z (2 ^ 52)). intros. unfold Qdiv.
           change (/ 2) with (1 # 2). lra.
        -- apply Qle_trans with ((inject_Z (Zpos m) - 1) * Qpower 2 e).
           ++ apply Qmult_le_compat_r; [lra|lra].
           ++ generalize dependent (Qpower 2 e). intros. lra.
  - right. rewrite Hy, (pow2_shift e 1024) by lia. unfold dyadic.
    assert (Hi : inject_Z (Zpos m) + 1 <= inject_Z (2 ^ (1024 - e))).
    { apply inject_Z_succ_le.
      assert (2 ^ 53 <= 2 ^ (1024 - e))%Z by (apply Z.pow_le_mono_r; lia). lia. }
    apply Qle_trans with ((inject_Z (Zpos m) + 1) * Qpower 2 e).
    + generalize dependent (Qpower 2 e). intros. lra.
    + apply Qmult_le_compat_r; [exact Hi|lra].
Qed.

(** The neighbours of the double are values of the format, the upper one
    of the greatest double being [2^1024]. *)
Lemma neighbour_above (m : positive) (e : Z) :
  bounded prec emax m e = true ->
  binary64 (dyadic m e + 2 * margin_up e)
  \/ dyadic m e + 2 * margin_up e == Qpower 2 1024.
Proof.
  intros Hb. destruct (canonical_facts m e Hb) as (Hm & He & Hn).
  assert (E1 : dyadic m e + 2 * margin_up e == inject_Z (Zpos m + 1) * Qpower 2 e).
  { rewrite twice_margin_up. unfold dyadic.
    rewrite inject_Z_plus. change (inject_Z 1) with 1. qfield. }
  destruct (Z_lt_le_dec (Zpos m + 1) (2 ^ 53)) as [Hlt|Hge].
  - left. exists (Zpos m + 1)%Z, e. split; [lia|]. split; [exact He|exact E1].
  - assert (Em : (Zpos m + 1 = 2 ^ 53)%Z) by lia.
    rewrite Em in E1.
    destruct (Z_lt_le_dec e 971) as [Hlt|Hge'].
    + left. exists (2 ^ 52)%Z, (e + 1)%Z. split; [reflexivity|]. split; [lia|].
      rewrite E1, pow2_plus. change (Qpower 2 1) with 2.
      assert (E2 : inject_Z (2 ^ 53) == 2 * inject_Z (2 ^ 52)) by reflexivity.
      rewrite E2. qfield.
    + right. rewrite E1. assert (Ee : e = 971%Z) by lia. subst e. reflexivity.
Qed.

Lemma neighbour_below (m : positive) (e : Z) :
  bounded prec emax m e = true ->
  binary64 (dyadic m e - 2 * margin_down m e).
Proof.
  intros Hb. destruct (canonical_facts m e Hb) as (Hm & He & Hn).
  pose proof (twice_margin_down m e) as Hd.
  assert (Em : inject_Z (Zpos m - 1) == inject_Z (Zpos m) - 1).
  { unfold Qeq, Qminus, Qplus, Qopp, inject_Z. cbn [Qnum Qden]. lia. }
  destruct (Z.eqb_spec (Zpos m) (2 ^ 52)) as [Heq|Hneq];
    [destruct (Z.ltb_spec (-1074) e) as [Hlt|Hge]|]; cbn [andb] in Hd.
  - exists (2 ^ 53 - 1)%Z, (e - 1)%Z. split; [reflexivity|]. split; [lia|].
    rewrite Hd, pow2_half. unfold dyadic. rewrite Heq.
    assert (E2 : inject_Z (2 ^ 53 - 1) == 2 * inject_Z (2 ^ 52) - 1) by reflexivity.
    rewrite E2. qfield.
  - exists (Zpos m - 1)%Z, e. split; [lia|]. split; [exact He|].
    rewrite Hd, Em. unfold dyadic. qfield.
  - exists (Zpos m - 1)%Z, e. split; [lia|]. split; [exact He|].
    rewrite Hd, Em. unfold dyadic. qfield.
Qed.

(** The test of the printer is rounding to nearest, ties to even. *)
Lemma reads_back_rounds_to (m : positive) (e : Z) (v : Q) :
  bounded prec emax m e = true ->
  reads_back m e v = true <-> rounds_to m e v.
Proof.
  intros Hb. rewrite reads_back_spec.
  pose proof (margin_up_pos e) as Hu. pose proof (margin_down_pos m e) as Hd.
  split.
  - intros Hv y Hy Hne.
    pose proof (gap m e y Hb Hy Hne) as Hg.
    destruct (Qabs_cases (v - dyadic m e)) as [[Ha Ea]|[Ha Ea]];
      destruct (Qabs_cases (v - y)) as [[Hc Ec]|[Hc Ec]];
      generalize dependent (Qabs (v - dyadic m e)); intros A Ea;
      generalize dependent (Qabs (v - y)); intros C Ec;
      (destruct (Qlt_le_dec A C) as [Hlt|Hge]; [left; exact Hlt|]);
      right; destruct (Z.even (Zpos m)); destruct Hv as [H1 H2];
      destruct Hg as [Hg|Hg];
      first [split; [lra|reflexivity] | exfalso; lra].
  - intros Hr.
    assert (Hup : ~ dyadic m e + 2 * margin_up e == dyadic m e) by lra.
    assert (Hdn : ~ dyadic m e - 2 * margin_down m e == dyadic m e) by lra.
    pose proof (Hr _ (neighbour_above m e Hb) Hup) as Ha.
    pose proof (Hr _ (or_introl (neighbour_below m e Hb)) Hdn) as Hl.
    clear Hr.
    destruct (Qabs_cases (v - dyadic m e)) as [[H0 E0]|[H0 E0]];
      destruct (Qabs_cases (v - (dyadic m e + 2 * margin_up e))) as [[H1 E1]|[H1 E1]];
      destruct (Qabs_cases (v - (dyadic m e - 2 * margin_down m e))) as [[H2 E2]|[H2 E2]];
      generalize dependent (Qabs (v - dyadic m e)); intros A E0;
      generalize dependent (Qabs (v - (dyadic m e + 2 * margin_up e))); intros B E1;
      generalize dependent (Qabs (v - (dyadic m e - 2 * margin_down m e))); intros C E2;
      intros Ha Hl;
      destruct Ha as [Ha|[Ha Hev]]; destruct Hl as [Hl|[Hl Hev']];
      try rewrite Hev; try rewrite Hev';
      try (destruct (Z.even (Zpos m))); split; lra.
Qed.

Lemma represents_round_trips (m : positive) (e : Z) (s k n : Z) :
  bounded prec emax m e = true ->
  represents m e s k n <-> round_trips m e s k n.
Proof.
  intros Hb. unfold represents, round_trips.
  rewrite (reads_back_rounds_to m e _ Hb). reflexivity.
Qed.

Lemma ecma_digits_shortest (m : positive) (e : Z) (s k n : Z) :
  bounded prec emax m e = true ->
  ecma_digits m e s k n -> shortest_round_trip m e s k n.
Proof.
  intros Hb (H1 & H2 & H3). split; [|split].
  - apply (represents_round_trips m e s k n Hb). exact H1.
  - intros s' k' n' H. apply (H2 s' k' n').
    apply (represents_round_trips m e s' k' n' Hb). exact H.
  - intros s' n' H. apply (H3 s' n').
    apply (represents_round_trips m e s' k n' Hb). exact H.
Qed.

End Nearest.

Lemma append_nil_r (s : string) : s ++ "" = s.
Proof. induction s as [|c s IH]; [reflexivity|]. simpl. rewrite IH. reflexivity. Qed.

Lemma append_assoc (a b c : string) : (a ++ b) ++ c = a ++ (b ++ c).
Proof. induction a as [|x a IH]; [reflexivity|]. simpl. rewrite IH. reflexivity. Qed.

Lemma len_append (a b : string) : len (a ++ b) = len a + len b.
Proof.
  unfold len. induction a as [|x a IH]; [reflexivity|].
  cbn [append String.length]. lia.
Qed.

Lemma digit_range (c : ascii) (d : Z) : digit c = Some d -> 0 <= d <= 9.
Proof.
  unfold digit. cbv zeta.
  destruct ((48 <=? Z.of_N (N_of_ascii c)) && (Z.of_N (N_of_ascii c) <=? 57)) eqn:E;
    [|discriminate].
  intros [= <-]. apply andb_true_iff in E as [E1 E2]. lia.
Qed.

Lemma take_digits_places (s : string) :
  digit_string s = true ->
  forall acc cnt rest,
    stops rest ->
    take_digits (s ++ rest) acc cnt = (places s acc, cnt + len s, rest).
Proof.
  induction s as [|c s IH]; intros Hs acc cnt rest Hr.
  - cbn [append places]. unfold len. cbn [String.length Z.of_nat]. rewrite Z.add_0_r.
    destruct rest as [|c r]; [reflexivity|]. cbn [take_digits]. simpl in Hr. rewrite Hr.
    reflexivity.
  - cbn [append take_digits places digit_string] in *.
    destruct (digit c) as [d|]; [|discriminate].
    rewrite (IH Hs _ _ rest Hr). unfold len. cbn [String.length]. f_equal. f_equal. lia.
Qed.

Lemma digit_string_append (a b : string) :
  digit_string (a ++ b) = digit_string a && digit_string b.
Proof.
  induction a as [|c a IH]; [reflexivity|]. cbn [append digit_string].
  destruct (digit c); [exact IH|reflexivity].
Qed.

Lemma places_append (a b : string) (acc : Z) :
  places (a ++ b) acc = places b (places a acc).
Proof.
  revert acc. induction a as [|c a IH]; intros acc; [reflexivity|].
  cbn [append places]. apply IH.
Qed.

Lemma places_linear (s : string) (acc : Z) :
  places s acc = acc * 10 ^ len s + places s 0.
Proof.
  revert acc. induction s as [|c s IH]; intros acc.
  - unfold len. simpl. lia.
  - cbn [places]. rewrite IH, (IH (10 * 0 + _)).
    replace (len (String c s)) with (len s + 1) by (unfold len; cbn [String.length]; lia).
    rewrite Z.pow_add_r by (unfold len; lia). lia.
Qed.

Lemma places_bound (s : string) : 0 <= places s 0 < 10 ^ len s.
Proof.
  induction s as [|c s IH].
  - unfold len. simpl. lia.
  - cbn [places]. rewrite places_linear.
    replace (len (String c s)) with (len s + 1) by (unfold len; cbn [String.length]; lia).
    rewrite Z.pow_add_r by (unfold len; lia).
    assert (Hd : 0 <= match digit c with Some d => d | None => 0 end <= 9).
    { destruct (digit c) as [d|] eqn:E; [apply (digit_range c d E)|lia]. }
    nia.
Qed.

(** *** The digits of an integer *)

Ltac eval_digit :=
  repeat match goal with
         | |- context [digit ?c] =>
             let v := eval vm_compute in (digit c) in change (digit c) with v
         end.

Lemma of_uint_acc_places (d : Decimal.uint) :
  forall acc, Zpos (Pos.of_uint_acc d acc) = places (NilEmpty.string_of_uint d) (Zpos acc).
Proof.
  induction d as [|d IH|d IH|d IH|d IH|d IH|d IH|d IH|d IH|d IH|d IH]; intros acc;
    [reflexivity|..];
    cbn [Pos.of_uint_acc NilEmpty.string_of_uint places]; rewrite IH; f_equal;
    eval_digit; cbv iota; lia.
Qed.

Lemma of_uint_places (d : Decimal.uint) :
  Z.of_N (Pos.of_uint d) = places (NilEmpty.string_of_uint d) 0.
Proof.
  induction d as [|d IH|d IH|d IH|d IH|d IH|d IH|d IH|d IH|d IH|d IH];
    [reflexivity|exact IH|..];
    cbn [Pos.of_uint NilEmpty.string_of_uint places Z.of_N];
    rewrite of_uint_acc_places; eval_digit; reflexivity.
Qed.

Lemma string_of_uint_digits (d : Decimal.uint) :
  digit_string (NilEmpty.string_of_uint d) = true.
Proof.
  induction d; [reflexivity|..]; cbn [NilEmpty.string_of_uint digit_string];
    eval_digit; exact IHd.
Qed.

Lemma N_to_uint_nonnil (n : N) : N.to_uint n <> Decimal.Nil.
Proof.
  destruct n as [|p]; [discriminate|]. apply DecimalPos.Unsigned.to_uint_nonnil.
Qed.

Lemma digits_eq (z : Z) :
  digits z = NilEmpty.string_of_uint (N.to_uint (Z.to_N z)).
Proof.
  unfold digits, NilZero.string_of_uint.
  pose proof (N_to_uint_nonnil (Z.to_N z)) as H.
  destruct (N.to_uint (Z.to_N z)); [contradiction|reflexivity..].
Qed.

Lemma digits_digit_string (z : Z) : digit_string (digits z) = true.
Proof. rewrite digits_eq. apply string_of_uint_digits. Qed.

Lemma digits_places (z : Z) : 0 <= z -> places (digits z) 0 = z.
Proof.
  intros Hz. rewrite digits_eq, <- of_uint_places.
  change (Pos.of_uint (N.to_uint (Z.to_N z))) with (N.of_uint (N.to_uint (Z.to_N z))).
  rewrite DecimalN.Unsigned.of_to. lia.
Qed.

(** The first digit of a positive integer is not zero. *)
Lemma to_uint_head (p : positive) :
  match Pos.to_uint p with
  | Decimal.Nil | Decimal.D0 _ => False
  | _ => True
  end.
Proof.
  pose proof (DecimalPos.Unsigned.to_of (Pos.to_uint p)) as H.
  rewrite DecimalPos.Unsigned.of_to in H. cbn [N.to_uint] in H.
  pose proof (DecimalPos.Unsigned.to_uint_nonnil p) as Hn.
  destruct (Pos.to_uint p) as [|d|d|d|d|d|d|d|d|d|d] eqn:E; try exact I.
  - contradiction.
  - rewrite DecimalFacts.unorm_D0 in H.
    destruct (Decimal.uint_eq_dec d Decimal.Nil) as [->|Hd].
    + apply (DecimalPos.Unsigned.to_uint_nonzero p). exact E.
    + pose proof (DecimalFacts.nb_digits_unorm d Hd) as Hle. rewrite <- H in Hle.
      cbn [Decimal.nb_digits] in Hle. lia.
Qed.

Lemma places_head (c : ascii) (r : string) (d : Z) :
  digit c = Some d -> 1 <= d -> 10 ^ len r <= places (String c r) 0.
Proof.
  intros Hc Hd. cbn [places]. rewrite Hc, places_linear.
  pose proof (places_bound r). assert (0 < 10 ^ len r) by (apply Z.pow_pos_nonneg; unfold len; lia).
  nia.
Qed.

Lemma digits_len (z k : Z) : 1 <= k -> 10 ^ (k - 1) <= z < 10 ^ k -> len (digits z) = k.
Proof.
  intros Hk [Hlo Hhi].
  assert (Hz : 0 < z) by (pose proof (Z.pow_pos_nonneg 10 (k - 1)); lia).
  pose proof (digits_places z ltac:(lia)) as Hv.
  pose proof (places_bound (digits z)) as [_ Hub]. rewrite Hv in Hub.
  assert (Hlb : 10 ^ (len (digits z) - 1) <= z).
  { rewrite <- Hv at 2. rewrite digits_eq.
    destruct z as [|p|p]; try lia. cbn [Z.to_N N.to_uint].
    pose proof (to_uint_head p) as Hh.
    destruct (Pos.to_uint p) as [|d|d|d|d|d|d|d|d|d|d]; try contradiction;
      cbn [NilEmpty.string_of_uint];
      (replace (len (String _ (NilEmpty.string_of_uint d)) - 1)
         with (len (NilEmpty.string_of_uint d))
         by (unfold len; cbn [String.length]; lia));
      (eapply places_head; [vm_compute; reflexivity|lia]). }
  assert (Hlen : 0 <= len (digits z)) by (unfold len; lia).
  destruct (Z.lt_trichotomy (len (digits z)) k) as [Hlt|[Heq|Hgt]]; [|exact Heq|].
  - pose proof (Z.pow_le_mono_r 10 (len (digits z)) (k - 1) ltac:(lia) ltac:(lia)). lia.
  - pose proof (Z.pow_le_mono_r 10 k (len (digits z) - 1) ltac:(lia) ltac:(lia)). lia.
Qed.

Lemma zeros_digits (j : nat) :
  digit_string (zeros j) = true /\ len (zeros j) = Z.of_nat j
  /\ forall acc, places (zeros j) acc = acc * 10 ^ Z.of_nat j.
Proof.
  induction j as [|j (H1 & H2 & H3)].
  - repeat split. intros acc. simpl. lia.
  - change (zeros (S j)) with (String "0" (zeros j)). split; [|split].
    + cbn [digit_string]. eval_digit. exact H1.
    + unfold len in *. cbn [String.length]. lia.
    + intros acc. cbn [places]. eval_digit. rewrite H3.
      rewrite Nat2Z.inj_succ, Z.pow_succ_r by lia. lia.
Qed.

Lemma substring_cut (s : string) :
  forall n : nat,
    (n <= String.length s)%nat ->
    s = substring 0 n s ++ substring n (String.length s - n) s
    /\ String.length (substring 0 n s) = n.
Proof.
  induction s as [|c s IH]; intros n Hn.
  - destruct n; [split; reflexivity|simpl in Hn; lia].
  - destruct n as [|n].
    + cbn [substring String.length Nat.sub append]. split; [|reflexivity].
      f_equal. destruct (IH 0%nat ltac:(lia)) as [H _].
      rewrite Nat.sub_0_r in H.
      destruct (String.length s) eqn:E.
      * destruct s; [reflexivity|discriminate].
      * cbn [substring] in H. destruct s; [discriminate|]. cbn [substring append] in H.
        exact H.
    + cbn [String.length] in Hn. destruct (IH n ltac:(lia)) as [H1 H2].
      cbn [substring String.length Nat.sub append]. split; [|cbn [String.length]; lia].
      f_equal. exact H1.
Qed.

(** *** Reading the texts back *)

Lemma nonempty_len (a : string) : a <> "" -> 0 < len a.
Proof. destruct a; [contradiction|]. unfold len. cbn [String.length]. lia. Qed.

Lemma take_digits_all (a : string) (acc cnt : Z) :
  digit_string a = true -> take_digits a acc cnt = (places a acc, cnt + len a, "").
Proof.
  intros Ha. pose proof (take_digits_places a Ha acc cnt "" I) as H.
  rewrite append_nil_r in H. exact H.
Qed.

Lemma value_integer (a : string) :
  digit_string a = true -> a <> "" ->
  decimal_value a = Some (inject_Z (places a 0) + inject_Z 0 / Qpower 10 0)%Q.
Proof.
  intros Ha Hne. pose proof (nonempty_len a Hne) as Hl.
  unfold decimal_value. rewrite (take_digits_all a 0 0 Ha).
  destruct (0 + len a =? 0) eqn:E; [apply Z.eqb_eq in E; lia|]. reflexivity.
Qed.

Lemma value_fraction (a b : string) :
  digit_string a = true -> a <> "" -> digit_string b = true ->
  decimal_value (a ++ String "." b)
  = Some (inject_Z (places a 0) + inject_Z (places b 0) / Qpower 10 (0 + len b))%Q.
Proof.
  intros Ha Hne Hb. pose proof (nonempty_len a Hne) as Hl.
  unfold decimal_value.
  rewrite (take_digits_places a Ha 0 0 (String "." b) eq_refl).
  destruct (0 + len a =? 0) eqn:E; [apply Z.eqb_eq in E; lia|].
  rewrite (take_digits_all b 0 0 Hb). reflexivity.
Qed.

Lemma value_exponent (a x : string) (sign : ascii) :
  digit_string a = true -> a <> "" -> digit_string x = true -> x <> "" ->
  decimal_value (a ++ String "e" (String sign x))
  = (if Ascii.eqb sign "+"
     then Some ((inject_Z (places a 0) + inject_Z 0 / Qpower 10 0)
                * Qpower 10 (places x 0))%Q
     else if Ascii.eqb sign "-"
          then Some ((inject_Z (places a 0) + inject_Z 0 / Qpower 10 0)
                     * Qpower 10 (- places x 0))%Q
          else None).
Proof.
  intros Ha Hne Hx Hxne. pose proof (nonempty_len a Hne) as Hl.
  pose proof (nonempty_len x Hxne) as Hlx.
  unfold decimal_value.
  rewrite (take_digits_places a Ha 0 0 (String "e" (String sign x)) eq_refl).
  destruct (0 + len a =? 0) eqn:E; [apply Z.eqb_eq in E; lia|].
  cbv iota beta.
  rewrite (take_digits_all x 0 0 Hx).
  destruct (0 <? 0 + len x) eqn:E2; [|apply Z.ltb_ge in E2; lia].
  reflexivity.
Qed.

Lemma value_scientific (a b x : string) (sign : ascii) :
  digit_string a = true -> a <> "" -> digit_string b = true ->
  digit_string x = true -> x <> "" ->
  decimal_value (a ++ String "." (b ++ String "e" (String sign x)))
  = (if Ascii.eqb sign "+"
     then Some ((inject_Z (places a 0) + inject_Z (places b 0) / Qpower 10 (0 + len b))
                * Qpower 10 (places x 0))%Q
     else if Ascii.eqb sign "-"
          then Some ((inject_Z (places a 0)
                      + inject_Z (places b 0) / Qpower 10 (0 + len b))
                     * Qpower 10 (- places x 0))%Q
          else None).
Proof.
  intros Ha Hne Hb Hx Hxne. pose proof (nonempty_len a Hne) as Hl.
  pose proof (nonempty_len x Hxne) as Hlx.
  unfold decimal_value.
  rewrite (take_digits_places a Ha 0 0 (String "." _) eq_refl).
  destruct (0 + len a =? 0) eqn:E; [apply Z.eqb_eq in E; lia|].
  rewrite (take_digits_places b Hb 0 0 (String "e" (String sign x)) eq_refl).
  rewrite (take_digits_all x 0 0 Hx).
  destruct (0 <? 0 + len x) eqn:E2; [|apply Z.ltb_ge in E2; lia].
  reflexivity.
Qed.

Ltac qring :=
  repeat match goal with
         | |- context [Qpower ?b ?n] => generalize (Qpower b n); intro
         end;
  ring.

Lemma digits_nonempty (z : Z) : digits z <> "".
Proof.
  rewrite digits_eq. pose proof (N_to_uint_nonnil (Z.to_N z)) as H.
  destruct (N.to_uint (Z.to_N z)); [contradiction|discriminate..].
Qed.

Lemma scaled (va vb s j : Z) :
  0 <= j -> s = va * 10 ^ j + vb ->
  (inject_Z va + inject_Z vb / Qpower 10 j == inject_Z s * Qpower 10 (- j))%Q.
Proof.
  intros Hj ->. rewrite inject_Z_plus, inject_Z_mult, pow10_Z by exact Hj.
  rewrite Qpower_opp. pose proof (Qpower_10_pos j) as Hp.
  field. intros H. rewrite H in Hp. discriminate Hp.
Qed.

Lemma zero_fraction : (inject_Z 0 / Qpower 10 0 == 0)%Q.
Proof. reflexivity. Qed.

Lemma format_value (s k n : Z) :
  1 <= k -> 10 ^ (k - 1) <= s < 10 ^ k ->
  exists q, decimal_value (format s k n) = Some q /\ (q == decimal k (s, n))%Q.
Proof.
  intros Hk Hs. rewrite decimal_eq.
  assert (Hs0 : 0 <= s) by (pose proof (Z.pow_pos_nonneg 10 (k - 1)); lia).
  pose proof (digits_digit_string s) as Hd.
  pose proof (digits_places s Hs0) as Hv.
  pose proof (digits_len s k Hk Hs) as Hl.
  pose proof (digits_nonempty s) as Hne.
  assert (Hlen : String.length (digits s) = Z.to_nat k) by (unfold len in Hl; lia).
  pose proof (digits_digit_string (Z.abs (n - 1))) as Hxd.
  pose proof (digits_places (Z.abs (n - 1)) ltac:(lia)) as Hxv.
  pose proof (digits_nonempty (Z.abs (n - 1))) as Hxne.
  unfold format. cbv zeta.
  destruct ((-5 <=? n) && (n <=? 21)) eqn:Hplain.
  - destruct (k <=? n) eqn:C1; [|destruct (0 <? n) eqn:C2].
    + (* an integer *)
      apply Z.leb_le in C1.
      destruct (zeros_digits (Z.to_nat (n - k))) as (Z1 & Z2 & Z3).
      eexists. split.
      * apply value_integer.
        -- rewrite digit_string_append, Hd, Z1. reflexivity.
        -- destruct (digits s); [contradiction|discriminate].
      * rewrite places_append, Z3, Hv, zero_fraction, Z2Nat.id by lia.
        rewrite inject_Z_mult, pow10_Z by lia. qring.
    + (* digits on both sides of the point *)
      apply Z.leb_gt in C1. apply Z.ltb_lt in C2.
      destruct (substring_cut (digits s) (Z.to_nat n) ltac:(lia)) as [Hsplit Hla].
      replace (String.length (digits s) - Z.to_nat n)%nat with (Z.to_nat (k - n)) in Hsplit
        by lia.
      set (a := substring 0 (Z.to_nat n) (digits s)) in *.
      set (b := substring (Z.to_nat n) (Z.to_nat (k - n)) (digits s)) in *.
      assert (Hab : digit_string a = true /\ digit_string b = true).
      { rewrite Hsplit, digit_string_append in Hd. apply andb_true_iff in Hd. exact Hd. }
      assert (Hlb : len b = k - n).
      { rewrite Hsplit, len_append in Hl. unfold len in *. lia. }
      assert (Hane : a <> "") by (intros E; rewrite E in Hla; simpl in Hla; lia).
      change (a ++ "." ++ b) with (a ++ String "." b).
      eexists. split; [apply value_fraction; tauto|].
      rewrite Z.add_0_l, Hlb.
      replace (n - k) with (- (k - n)) by lia. apply scaled; [lia|].
      rewrite <- Hlb, <- places_linear, <- places_append, <- Hsplit. symmetry. exact Hv.
    + (* a fraction *)
      apply Z.leb_gt in C1. apply Z.ltb_ge in C2.
      destruct (zeros_digits (Z.to_nat (- n))) as (Z1 & Z2 & Z3).
      change ("0." ++ zeros (Z.to_nat (- n)) ++ digits s)
        with ("0" ++ String "." (zeros (Z.to_nat (- n)) ++ digits s)).
      eexists. split.
      * apply value_fraction; [reflexivity|discriminate|].
        rewrite digit_string_append, Hd, Z1. reflexivity.
      * rewrite Z.add_0_l, len_append, Z2, Hl, Z2Nat.id by lia.
        replace (n - k) with (- (- n + k)) by lia. apply scaled; [lia|].
        rewrite places_append, Z3, (places_linear (digits s)), Hv.
        replace (places "0" 0) with 0 by reflexivity. lia.
  - (* exponential notation *)
    assert (Hn : n < -5 \/ 21 < n).
    { apply andb_false_iff in Hplain as [H|H];
        [apply Z.leb_gt in H|apply Z.leb_gt in H]; lia. }
    destruct (k =? 1) eqn:C1.
    + apply Z.eqb_eq in C1. clear Hl Hlen. subst k.
      destruct (0 <? n - 1) eqn:C2; [apply Z.ltb_lt in C2|apply Z.ltb_ge in C2].
      * change (digits s ++ "e" ++ "+" ++ digits (Z.abs (n - 1)))
          with (digits s ++ String "e" (String "+" (digits (Z.abs (n - 1))))).
        rewrite value_exponent by assumption. cbn [Ascii.eqb Bool.eqb]. cbv iota.
        eexists. split; [reflexivity|].
        rewrite Hv, Hxv, zero_fraction. replace (Z.abs (n - 1)) with (n - 1) by lia. qring.
      * change (digits s ++ "e" ++ "-" ++ digits (Z.abs (n - 1)))
          with (digits s ++ String "e" (String "-" (digits (Z.abs (n - 1))))).
        rewrite value_exponent by assumption. cbn [Ascii.eqb Bool.eqb]. cbv iota.
        eexists. split; [reflexivity|].
        rewrite Hv, Hxv, zero_fraction. replace (- Z.abs (n - 1)) with (n - 1) by lia. qring.
    + apply Z.eqb_neq in C1.
      destruct (substring_cut (digits s) 1%nat ltac:(lia)) as [Hsplit Hla].
      replace (String.length (digits s) - 1)%nat with (Z.to_nat (k - 1)) in Hsplit by lia.
      set (a := substring 0 1 (digits s)) in *.
      set (b := substring 1 (Z.to_nat (k - 1)) (digits s)) in *.
      assert (Hab : digit_string a = true /\ digit_string b = true).
      { rewrite Hsplit, digit_string_append in Hd. apply andb_true_iff in Hd. exact Hd. }
      assert (Hlb : len b = k - 1).
      { rewrite Hsplit, len_append in Hl. unfold len in *. lia. }
      assert (Hane : a <> "") by (intros E; rewrite E in Hla; simpl in Hla; lia).
      assert (Hsum : (inject_Z (places a 0) + inject_Z (places b 0) / Qpower 10 (k - 1)
                      == inject_Z s * Qpower 10 (- (k - 1)))%Q).
      { apply scaled; [lia|].
        rewrite <- Hlb, <- places_linear, <- places_append, <- Hsplit. symmetry.
        exact Hv. }
      destruct (0 <? n - 1) eqn:C2; [apply Z.ltb_lt in C2|apply Z.ltb_ge in C2].
      * change (a ++ "." ++ b ++ "e" ++ "+" ++ digits (Z.abs (n - 1)))
          with (a ++ String "." (b ++ String "e" (String "+" (digits (Z.abs (n - 1)))))).
        rewrite value_scientific by tauto. cbn [Ascii.eqb Bool.eqb]. cbv iota.
        eexists. split; [reflexivity|].
        rewrite Z.add_0_l, Hlb, Hsum, Hxv. replace (Z.abs (n - 1)) with (n - 1) by lia.
        rewrite <- Qmult_assoc, (pow10_times (- (k - 1)) (n - 1) (n - k)) by lia.
        reflexivity.
      * change (a ++ "." ++ b ++ "e" ++ "-" ++ digits (Z.abs (n - 1)))
          with (a ++ String "." (b ++ String "e" (String "-" (digits (Z.abs (n - 1)))))).
        rewrite value_scientific by tauto. cbn [Ascii.eqb Bool.eqb]. cbv iota.
        eexists. split; [reflexivity|].
        rewrite Z.add_0_l, Hlb, Hsum, Hxv. replace (- Z.abs (n - 1)) with (n - 1) by lia.
        rewrite <- Qmult_assoc, (pow10_times (- (k - 1)) (n - 1) (n - k)) by lia.
        reflexivity.
Qed.

(** The text of a finite number other than zero, given in canonical form. *)
Lemma Number_toString_finite (sg : bool) (m : positive) (e : Z) :
  bounded prec emax m e = true ->
  exists s k n q,
    Number_toString (S754_finite sg m e) = (if sg then "-" else "") ++ format s k n
    /\ shortest_round_trip m e s k n
    /\ decimal_value (format s k n) = Some q
    /\ (q == inject_Z s * Qpower 10 (n - k))%Q.
Proof.
  intros Hb. unfold Number_toString. rewrite (normalize_bounded m e Hb).
  destruct (positive_toString_spec m e Hb) as (s & k & n & Hd & ->).
  pose proof Hd as ((Hk & Hs & _) & _).
  destruct (format_value s k n Hk Hs) as (q & Hq & Hv).
  exists s, k, n, q. split; [reflexivity|]. split; [|split].
  - apply ecma_digits_shortest; assumption.
  - exact Hq.
  - exact Hv.
Qed.

(** C8. [frequencyToString] never fails on a number and yields its default
    decimal text, that of [Number::toString]. For a finite number other
    than zero, in canonical form, the text is the sign followed by the
    digits of the shortest decimal that rounds to the number (among the
    shortest the closest one, and the even one of two as close), laid out
    in plain or exponential notation, and read as a decimal numeral it
    denotes that decimal. NaN prints as "NaN", the infinities as
    "Infinity" and "-Infinity", both zeros as "0". So 45.3, 100 and 0
    print as written; so do 1125899906842624.8, 1e-323, 1e+21, 0.000001
    and 1e-7. *)
Theorem frequencyToString_numbers :
  (forall x, HttpServer.frequencyToString (VNum x) = Ok (Number_toString x))
  /\ (forall (sg : bool) (m : positive) (e : Z),
        bounded prec emax m e = true ->
        exists s k n q,
          HttpServer.frequencyToString (VNum (S754_finite sg m e))
          = Ok ((if sg then "-" else "") ++ format s k n)
          /\ shortest_round_trip m e s k n
          /\ decimal_value (format s k n) = Some q
          /\ (q == inject_Z s * Qpower 10 (n - k))%Q)
  /\ HttpServer.frequencyToString (VNum NaN) = Ok "NaN"
  /\ HttpServer.frequencyToString (VNum Infinity) = Ok "Infinity"
  /\ HttpServer.frequencyToString (VNum (S754_infinity true)) = Ok "-Infinity"
  /\ (forall sg, HttpServer.frequencyToString (VNum (S754_zero sg)) = Ok "0")
  /\ HttpServer.frequencyToString (VNum (of_ratio 453 10)) = Ok "45.3"
  /\ HttpServer.frequencyToString (VNum (of_Z 100)) = Ok "100"
  /\ HttpServer.frequencyToString (VNum (of_Z 0)) = Ok "0"
  /\ HttpServer.frequencyToString (VNum (S754_finite false 4503599627370499 (-2)))
     = Ok "1125899906842624.8"
  /\ HttpServer.frequencyToString (VNum (S754_finite false 2 (-1074))) = Ok "1e-323"
  /\ HttpServer.frequencyToString (VNum (of_Z (10 ^ 21))) = Ok "1e+21"
  /\ HttpServer.frequencyToString (VNum (of_ratio 1 1000000)) = Ok "0.000001"
  /\ HttpServer.frequencyToString (VNum (of_ratio 1 10000000)) = Ok "1e-7".
Proof.
  assert (Ha : forall x, HttpServer.frequencyToString (VNum x) = Ok (Number_toString x))
    by reflexivity.
  split; [exact Ha|]. split.
  - intros sg m e Hb. rewrite Ha.
    destruct (Number_toString_finite sg m e Hb) as (s & k & n & q & -> & H).
    exists s, k, n, q. split; [reflexivity|exact H].
  - split; [reflexivity|]. split; [reflexivity|]. split; [reflexivity|].
    split; [intros sg; reflexivity|].
    repeat split; vm_compute; reflexivity.
Qed.

Lemma frequencyToString_numbers_witness :
  bounded prec emax 6375408222496358 (-47) = true
  /\ exists s k n q,
       HttpServer.frequencyToString (VNum (S754_finite false 6375408222496358 (-47)))
       = Ok ("" ++ format s k n)
       /\ shortest_round_trip 6375408222496358 (-47) s k n
       /\ decimal_value (format s k n) = Some q
       /\ (q == inject_Z s * Qpower 10 (n - k))%Q.
Proof.
  split; [reflexivity|].
  destruct frequencyToString_numbers as (_ & H & _).
  apply (H false 6375408222496358%positive (-47)). reflexivity.
Defined.

(** ** Symbolic execution of the handlers *)

Ltac break_match :=
  match goal with
  | |- context [match ?x with _ => _ end] =>
      lazymatch x with
      | context [match _ with _ => _ end] => fail
      | _ => destruct x eqn:?
      end
  end.

Ltac unfold_monad :=
  cbv [bind ret lift try_catch read update emit respond when
       HttpServer.sendJSON HttpServer.setCORSHeaders
       state_after emitted response_of returns start] in *.

Ltac conjs := repeat match goal with |- _ /\ _ => split end.

Ltac crunch := unfold_monad; cbn in *; repeat (break_match; cbn in * ).

Ltac unfold_routes :=
  unfold Main.ptt_press, Main.ptt_release, Main.status, Main.connect,
    Main.manual_disconnect, Main.disconnect, Main.heartbeat, Main.frequency,
    Main.frequencies, Main.active_channel, Main.ear_side,
    Main.frequency_disconnect, Main.not_found,
    HttpServer.ptt_press, HttpServer.ptt_release, HttpServer.status,
    HttpServer.connect, HttpServer.disconnect, HttpServer.heartbeat,
    HttpServer.frequency, HttpServer.frequencies, HttpServer.active_channel,
    HttpServer.ear_side, HttpServer.frequency_disconnect, HttpServer.not_found.

Lemma main_routes_cases (P : M Main.effect unit -> Prop) now req :
  P Main.ptt_press -> P Main.ptt_release -> P Main.status ->
  P (Main.connect now (payload req)) -> P Main.manual_disconnect ->
  P (Main.heartbeat now) -> P (Main.frequency (payload req)) ->
  P (Main.frequencies (payload req)) -> P (Main.active_channel (payload req)) ->
  P (Main.ear_side (payload req)) -> P (Main.frequency_disconnect (payload req)) ->
  P Main.not_found ->
  P (Main.routes now req).
Proof.
  intros. unfold Main.routes.
  repeat (match goal with |- context [if ?b then _ else _] => destruct b end;
          [assumption|]).
  assumption.
Qed.

Lemma lib_routes_cases cb (P : M HttpServer.call unit -> Prop) now req :
  P (HttpServer.ptt_press cb) -> P (HttpServer.ptt_release cb) ->
  P HttpServer.status ->
  P (HttpServer.connect cb now (payload req)) -> P (HttpServer.disconnect cb) ->
  P (HttpServer.heartbeat now) -> P (HttpServer.frequency cb (payload req)) ->
  P (HttpServer.frequencies cb (payload req)) ->
  P (HttpServer.active_channel cb (payload req)) ->
  P (HttpServer.ear_side cb (payload req)) ->
  P (HttpServer.frequency_disconnect cb (payload req)) ->
  P HttpServer.not_found ->
  P (HttpServer.routes cb now req).
Proof.
  intros. unfold HttpServer.routes.
  repeat (match goal with |- context [if ?b then _ else _] => destruct b end;
          [assumption|]).
  assumption.
Qed.





(** ** The handlers answer every request *)

Lemma setCORSHeaders_runs {E} (o : option string) (w : world E) :
  exists r, HttpServer.setCORSHeaders o w = (Ok tt, {| st := st w; res := r; out := out w |}).
Proof. unfold_monad. cbn. eauto. Qed.



(** ** The invariant of the session state *)

Ltac preserves_tac :=
  intros w; unfold inv, url_ok, time_ok; intros; unfold_routes; crunch;
  intuition (auto; try discriminate).

Lemma main_routes_inv now req : 0 < now -> preserves inv (Main.routes now req).
Proof. intros Hnow. apply main_routes_cases; preserves_tac. Qed.

Lemma lib_routes_url_ok cb now req : preserves url_ok (HttpServer.routes cb now req).
Proof. apply lib_routes_cases; preserves_tac. Qed.

Lemma main_server_inv now req s :
  0 < now -> inv s -> inv (state_after (Main.server now req) s).
Proof.
  intros Hnow Hs. unfold state_after, Main.server, bind at 1.
  destruct (setCORSHeaders_runs (E := Main.effect) (origin req) (start s)) as [r ->].
  destruct (method req =? "OPTIONS")%string.
  - cbn. assumption.
  - unfold try_catch.
    pose proof (main_routes_inv now req Hnow
                  {| st := s; res := r; out := @nil Main.effect |} Hs) as H.
    destruct (Main.routes now req _) as [[[]|e'] w']; cbn in *; assumption.
Qed.

Lemma lib_handler_url_ok cb now req s :
  url_ok s -> url_ok (state_after (HttpServer.createRequestHandler cb now req) s).
Proof.
  intros Hs. unfold state_after, HttpServer.createRequestHandler, bind at 1.
  destruct (setCORSHeaders_runs (E := HttpServer.call) (origin req) (start s)) as [r ->].
  destruct (method req =? "OPTIONS")%string.
  - cbn. assumption.
  - unfold try_catch.
    pose proof (lib_routes_url_ok cb now req
                  {| st := s; res := r; out := @nil HttpServer.call |} Hs) as H.
    destruct (HttpServer.routes cb now req _) as [[[]|e'] w']; cbn in *; assumption.
Qed.

Lemma react_inv e s : clock_ok e -> inv s -> inv (state_after (Main.react e) s).
Proof.
  destruct e as [now req|now|isDev|]; simpl; intros Hc Hs.
  - apply main_server_inv; assumption.
  - revert Hs. unfold state_after, Main.heartbeatCheck, Main.disconnect, inv, url_ok, time_ok.
    crunch; intuition (auto; try discriminate; try congruence).
  - revert Hs. unfold state_after, Main.createWindow, inv, url_ok, time_ok.
    crunch; intuition (auto; try discriminate; try congruence).
  - exact Hs.
Qed.

Lemma reachable_inv s : reachable s -> inv s.
Proof.
  induction 1 as [|s e Hs IH Hc].
  - split; [left; reflexivity | exact I].
  - apply react_inv; assumption.
Qed.

Lemma lib_reachable_url_ok cb s : lib_reachable cb s -> url_ok s.
Proof.
  induction 1 as [s H|s now req Hs IH].
  - left. assumption.
  - apply lib_handler_url_ok. assumption.
Qed.

Lemma run_reachable es s :
  reachable s -> Forall clock_ok es -> reachable (run es s).
Proof.
  revert s. induction es as [|e es IH]; intros s Hs Hes; simpl.
  - assumption.
  - inversion Hes; subst. apply IH; [|assumption].
    constructor; assumption.
Qed.

(** On a state that satisfies the invariant, "set" means truthy. *)
Lemma url_ok_truthy s : url_ok s -> truthy (serverURL s) = negb (is_null (serverURL s)).
Proof.
  intros [H|H]; rewrite H; [reflexivity|].
  destruct (serverURL s); try discriminate; reflexivity.
Qed.

Ltac run_handler :=
  unfold HttpServer.createRequestHandler, Main.server, HttpServer.routes, Main.routes,
    Main.heartbeatCheck, Main.createWindow, Main.closed;
  unfold_routes; unfold ok_response, error_response; crunch.

(** C10. [parseJSONBody] turns an empty body into the empty object, so a
    POST without body to a route that reads its body is answered with that
    route's own 400 message, in the library handler and in [main.cjs]. *)
Theorem empty_body_is_validation_error :
  HttpServer.parseJSONBody Empty = Ok (VObj []) /\
  forall cb now o s,
    let post path :=
      {| method := "POST"; url := path; origin := o; payload := Empty |} in
    let lib path := response_of (HttpServer.createRequestHandler cb now (post path)) s in
    let main path := response_of (Main.server now (post path)) s in
    (error_response 400 "Missing url parameter" (lib "/connect") /\
     error_response 400 "Missing frequency parameter" (lib "/frequency") /\
     error_response 400 "frequencies must be an array" (lib "/frequencies") /\
     error_response 400 "frequency must be a number" (lib "/active-channel") /\
     error_response 400 "frequency and earSide must be numbers" (lib "/ear-side") /\
     error_response 400 "frequency must be a number" (lib "/frequency/disconnect"))
    /\
    (error_response 400 "Missing url parameter" (main "/connect") /\
     error_response 400 "Missing frequency parameter" (main "/frequency") /\
     error_response 400 "frequencies must be an array" (main "/frequencies") /\
     error_response 400 "frequency must be a number" (main "/active-channel") /\
     error_response 400 "frequency and earSide must be numbers" (main "/ear-side") /\
     error_response 400 "frequency must be a number" (main "/frequency/disconnect")).
Proof.
  split; [reflexivity|].
  intros cb now o s post lib main. subst lib main post.
  repeat split; run_handler; reflexivity.
Qed.

(** ** Connection status *)

(** C2, as stated, fails: the empty string is a URL value that is set
    (it is not [null]), and the status computed from it is not CONNECTED. *)
Lemma getConnectionStatus_empty_string :
  VStr "" <> VNull
  /\ HttpServer.getConnectionStatus (VStr "") true = "WAITING_FOR_CONNECTION"
  /\ HttpServer.getConnectionStatus (VStr "") false = "DISCONNECTED"
  /\ ~ (forall u b, VStr u <> VNull ->
                    HttpServer.getConnectionStatus (VStr u) b = "CONNECTED").
Proof.
  split; [discriminate|]. split; [reflexivity|]. split; [reflexivity|].
  intros H. specialize (H "" true). discriminate H. discriminate.
Qed.

(** C2, amended. [getConnectionStatus] is a function of its two arguments
    with [getConnectionStatus(null, false) = DISCONNECTED],
    [getConnectionStatus(null, true) = WAITING_FOR_CONNECTION] and
    [getConnectionStatus(u, b) = CONNECTED] for every non-empty URL [u]
    (more generally every truthy value) and both [b]; it always yields
    one of the three statuses. *)
Theorem getConnectionStatus_spec :
  HttpServer.getConnectionStatus VNull false = "DISCONNECTED"
  /\ HttpServer.getConnectionStatus VNull true = "WAITING_FOR_CONNECTION"
  /\ (forall u b, u <> "" -> HttpServer.getConnectionStatus (VStr u) b = "CONNECTED")
  /\ (forall v b, truthy v = true -> HttpServer.getConnectionStatus v b = "CONNECTED")
  /\ (forall v b,
        HttpServer.getConnectionStatus v b = "CONNECTED"
        \/ HttpServer.getConnectionStatus v b = "WAITING_FOR_CONNECTION"
        \/ HttpServer.getConnectionStatus v b = "DISCONNECTED").
Proof.
  unfold HttpServer.getConnectionStatus. repeat split.
  - intros u b Hu. simpl. apply String.eqb_neq in Hu. rewrite Hu. reflexivity.
  - intros v b ->. reflexivity.
  - intros v b. destruct (truthy v), b; auto.
Qed.

Lemma getConnectionStatus_spec_witness :
  HttpServer.getConnectionStatus (VStr "http://x") false = "CONNECTED"
  /\ HttpServer.getConnectionStatus (VStr "http://x") true = "CONNECTED".
Proof.
  destruct getConnectionStatus_spec as (_ & _ & H & _).
  split; apply H; discriminate.
Defined.

Lemma connected_iff_truthy v b :
  HttpServer.getConnectionStatus v b = "CONNECTED" <-> truthy v = true.
Proof.
  unfold HttpServer.getConnectionStatus.
  destruct (truthy v), b; split; intros H; try reflexivity; discriminate.
Qed.

Lemma connected_iff_set s :
  url_ok s ->
  (serverURL s <> VNull <->
   HttpServer.getConnectionStatus (serverURL s) (mainWindow s) = "CONNECTED").
Proof.
  intros Hs. rewrite connected_iff_truthy, (url_ok_truthy s Hs).
  destruct (serverURL s); simpl; split; intros H; try reflexivity;
    try discriminate; try contradiction. 
Qed.

(** C3. In every session state, of [main.cjs] and of the library handler,
    the URL is non-null exactly when the status is CONNECTED; the response
    to [GET /status] carries both, and its [connected] field is true
    exactly when its [status] field is "CONNECTED". *)
Theorem connected_iff_status_connected :
  (forall s now o b,
      reachable s ->
      (serverURL s <> VNull <->
       HttpServer.getConnectionStatus (serverURL s) (mainWindow s) = "CONNECTED")
      /\ ok_response (status_data s) (response_of (Main.server now (get_status o b)) s)
      /\ (negb (is_null (serverURL s)) = true <->
          HttpServer.getConnectionStatus (serverURL s) (mainWindow s) = "CONNECTED"))
  /\
  (forall cb s now o b,
      lib_reachable cb s ->
      (serverURL s <> VNull <->
       HttpServer.getConnectionStatus (serverURL s) (mainWindow s) = "CONNECTED")
      /\ ok_response (status_data s)
           (response_of (HttpServer.createRequestHandler cb now (get_status o b)) s)
      /\ (negb (is_null (serverURL s)) = true <->
          HttpServer.getConnectionStatus (serverURL s) (mainWindow s) = "CONNECTED")).
Proof.
  assert (Hnull : forall v, negb (is_null v) = true <-> v <> VNull).
  { intros v. destruct v; simpl; split; intros H; try reflexivity;
      try discriminate; try contradiction. }
  split.
  - intros s now o b Hs. apply reachable_inv in Hs as [Hu _].
    split; [apply connected_iff_set; assumption|]. split.
    + unfold get_status, status_data. run_handler; repeat split.
    + rewrite Hnull. apply connected_iff_set; assumption.
  - intros cb s now o b Hs. apply lib_reachable_url_ok in Hs.
    split; [apply connected_iff_set; assumption|]. split.
    + unfold get_status, status_data. run_handler; repeat split.
    + rewrite Hnull. apply connected_iff_set; assumption.
Qed.

Lemma connected_iff_status_connected_witness :
  let s := run [Main.CreateWindow false; Main.Request 1000 connect_x] Main.initial in
  reachable s /\
  serverURL s = VStr "http://x" /\
  ok_response (status_data s) (response_of (Main.server 2000 (GET "/status")) s) /\
  HttpServer.getConnectionStatus (serverURL s) (mainWindow s) = "CONNECTED" /\
  lib_reachable all_callbacks Main.initial /\
  (negb (is_null (serverURL Main.initial)) = true <->
   HttpServer.getConnectionStatus (serverURL Main.initial) (mainWindow Main.initial)
   = "CONNECTED").
Proof.
  intros s.
  assert (Hs : reachable s).
  { apply run_reachable; [constructor|].
    repeat constructor. }
  assert (Hl : lib_reachable all_callbacks Main.initial).
  { constructor. reflexivity. }
  destruct connected_iff_status_connected as [Hmain Hlib].
  destruct (Hmain s 2000 None Empty Hs) as (H1 & H2 & H3).
  destruct (Hlib _ Main.initial 2000 None Empty Hl) as (H4 & H5 & H6).
  split; [exact Hs|]. split; [reflexivity|]. split; [exact H2|].
  split; [apply H1; discriminate|]. split; [exact Hl | exact H6].
Defined.

(** Past the CORS headers, a request that is not a preflight runs the
    routes inside the [try] block. *)
Lemma main_server_routes now req s :
  (method req =? "OPTIONS")%string = false ->
  exists r0,
    Main.server now req (start s) =
    try_catch (Main.routes now req)
      (fun e =>
         emit (Main.Console [VStr "[HTTP] Error:"; VStr (Main.error_name e)]) ;;
         HttpServer.sendJSON 400 (HttpServer.failure "Invalid JSON"))
      {| st := s; res := r0; out := [] |}.
Proof.
  intros H. unfold Main.server, bind at 1.
  destruct (setCORSHeaders_runs (E := Main.effect) (origin req) (start s)) as [r ->].
  rewrite H. exists r. reflexivity.
Qed.

Lemma lib_handler_routes cb now req s :
  (method req =? "OPTIONS")%string = false ->
  exists r0,
    HttpServer.createRequestHandler cb now req (start s) =
    try_catch (HttpServer.routes cb now req)
      (fun _ => HttpServer.sendJSON 400 (HttpServer.failure "Invalid JSON"))
      {| st := s; res := r0; out := [] |}.
Proof.
  intros H. unfold HttpServer.createRequestHandler, bind at 1.
  destruct (setCORSHeaders_runs (E := HttpServer.call) (origin req) (start s)) as [r ->].
  rewrite H. exists r. reflexivity.
Qed.

(** ** POST /connect *)

(** C4, as stated, fails: a body whose [url] is present but empty is
    answered 400 "Missing url parameter", by both handlers. *)
Lemma connect_rejects_empty_url :
  let data := VObj [("url", VStr "")] in
  is_json data = true
  /\ get data url_ = Ok (VStr "")
  /\ error_response 400 "Missing url parameter"
       (response_of (Main.server 1000 (connect_request None (Json data))) Main.initial)
  /\ error_response 400 "Missing url parameter"
       (response_of (HttpServer.createRequestHandler all_callbacks 1000
                       (connect_request None (Json data))) Main.initial).
Proof. vm_compute. repeat split. Qed.

(** C4, amended. When the body of [POST /connect] parses to [data] (a
    value other than [null]), the answer is 400 "Missing url parameter"
    exactly when [data.url] is falsy: absent, [null], [false], zero or the
    empty string; the state is then left as it was. Otherwise the URL
    becomes [data.url], whatever its form, the last heartbeat becomes the
    current time, the connect event goes out with the URL (to the window if
    there is one, to [onConnect] if it is given) and the answer is 200
    [{success: true, url}]. *)
Theorem connect_spec (cb : HttpServer.callbacks) (s : state) (now : Z)
    (o : option string) (b : body) (data u : value) :
  HttpServer.parseJSONBody b = Ok data ->
  get data url_ = Ok u ->
  let main := Main.server now (connect_request o b) in
  let lib := HttpServer.createRequestHandler cb now (connect_request o b) in
  (truthy u = false ->
     error_response 400 "Missing url parameter" (response_of main s)
     /\ state_after main s = s
     /\ emitted main s = []
     /\ error_response 400 "Missing url parameter" (response_of lib s)
     /\ state_after lib s = s
     /\ emitted lib s = [])
  /\
  (truthy u = true ->
     ok_response (VObj [HttpServer.success; ("url", u)]) (response_of main s)
     /\ state_after main s = set_lastHeartbeat (Some now) (set_serverURL u s)
     /\ emitted main s =
          Main.Console [VStr "[HTTP] Connect to:"; u]
          :: (if mainWindow s then [Main.LoadURL u] else [])
     /\ ok_response (VObj [HttpServer.success; ("url", u)]) (response_of lib s)
     /\ state_after lib s = set_lastHeartbeat (Some now) (set_serverURL u s)
     /\ emitted lib s = (if HttpServer.onConnect cb then [HttpServer.OnConnect u] else []))
  /\
  (error_response 400 "Missing url parameter" (response_of main s) <-> truthy u = false)
  /\
  (error_response 400 "Missing url parameter" (response_of lib s) <-> truthy u = false)
  /\
  (truthy u = false <->
   u = VUndefined \/ u = VNull \/ u = VBool false \/ u = VStr ""
   \/ (exists sign, u = VNum (S754_zero sign)) \/ u = VNum S754_nan).
Proof.
  intros Hb Hu main lib. subst main lib. unfold connect_request.
  assert (Hmain : forall w : world Main.effect,
             Main.connect now b w =
             if truthy u then
               (Ok tt,
                {| st := set_lastHeartbeat (Some now) (set_serverURL u (st w));
                   res := answer 200 (VObj [HttpServer.success; ("url", u)]) (res w);
                   out := (out w ++ [Main.Console [VStr "[HTTP] Connect to:"; u]])
                          ++ (if mainWindow (st w) then [Main.LoadURL u] else []) |})
             else
               (Ok tt,
                {| st := st w;
                   res := answer 400 (HttpServer.failure "Missing url parameter") (res w);
                   out := out w |})).
  { intros w. unfold Main.connect. unfold_monad. rewrite Hb, Hu.
    destruct (truthy u); cbn; [|reflexivity].
    destruct (mainWindow (st w)); cbn; [reflexivity|].
    rewrite app_nil_r. reflexivity. }
  assert (Hlib : forall w : world HttpServer.call,
             HttpServer.connect cb now b w =
             if truthy u then
               (Ok tt,
                {| st := set_lastHeartbeat (Some now) (set_serverURL u (st w));
                   res := answer 200 (VObj [HttpServer.success; ("url", u)]) (res w);
                   out := out w
                          ++ (if HttpServer.onConnect cb then [HttpServer.OnConnect u] else []) |})
             else
               (Ok tt,
                {| st := st w;
                   res := answer 400 (HttpServer.failure "Missing url parameter") (res w);
                   out := out w |})).
  { intros w. unfold HttpServer.connect. unfold_monad. rewrite Hb, Hu.
    destruct (truthy u); cbn; [|reflexivity].
    destruct (HttpServer.onConnect cb); cbn; [reflexivity|].
    rewrite app_nil_r. reflexivity. }
  destruct (main_server_routes now {| method := "POST"; url := "/connect"; origin := o; payload := b |} s eq_refl)
    as [r0 Hrun0].
  destruct (lib_handler_routes cb now {| method := "POST"; url := "/connect"; origin := o; payload := b |} s eq_refl)
    as [r1 Hrun1].
  unfold response_of, state_after, emitted, ok_response, error_response.
  rewrite Hrun0, Hrun1.
  change (Main.routes now _) with (Main.connect now b).
  change (HttpServer.routes cb now _) with (HttpServer.connect cb now b).
  unfold try_catch. rewrite Hmain, Hlib.
  conjs; [| | | | apply falsy_values].
  all: destruct (truthy u); cbn; repeat split; intros; try discriminate;
    try reflexivity;
    try (match goal with H : _ /\ _ |- _ => destruct H as [H _]; discriminate H end).
Qed.

Lemma connect_spec_witness :
  ok_response (VObj [HttpServer.success; ("url", VStr "http://x")])
    (response_of (Main.server 1000 connect_x) Main.initial)
  /\ state_after (Main.server 1000 connect_x) Main.initial =
     set_lastHeartbeat (Some 1000) (set_serverURL (VStr "http://x") Main.initial).
Proof.
  destruct (connect_spec all_callbacks Main.initial 1000 None
              (Json (VObj [("url", VStr "http://x")]))
              (VObj [("url", VStr "http://x")]) (VStr "http://x")
              eq_refl eq_refl) as (_ & H & _).
  destruct (H eq_refl) as (H1 & H2 & _).
  split; [exact H1 | exact H2].
Defined.

(** ** Push-to-talk *)

(** C1, as stated, fails: in a reachable state with a window and the
    button already held, two presses in a row emit no press event at all,
    in [main.cjs] and in the library handler. *)
Lemma two_presses_while_pressed :
  let s := run [Main.CreateWindow false; Main.Request 1000 (press None Empty)]
             Main.initial in
  let s1 := state_after (Main.server 2000 (press None Empty)) s in
  let l1 := state_after
              (HttpServer.createRequestHandler all_callbacks 2000 (press None Empty)) s in
  reachable s
  /\ mainWindow s = true
  /\ sends "ptt:press"
       (emitted (Main.server 2000 (press None Empty)) s
        ++ emitted (Main.server 3000 (press None Empty)) s1) = 0%nat
  /\ (emitted (HttpServer.createRequestHandler all_callbacks 2000 (press None Empty)) s
      ++ emitted (HttpServer.createRequestHandler all_callbacks 3000 (press None Empty)) l1
      = [])%list.
Proof.
  intros s s1 l1. split.
  - apply run_reachable; [constructor|]. repeat constructor.
  - vm_compute. repeat split.
Qed.

Lemma main_press_run t o b s :
  state_after (Main.server t (press o b)) s
  = (if mainWindow s && negb (isPTTPressed s) then set_isPTTPressed true s else s)
  /\ sends "ptt:press" (emitted (Main.server t (press o b)) s)
     = (if mainWindow s && negb (isPTTPressed s) then 1%nat else 0%nat)
  /\ ok_response (VObj [HttpServer.success]) (response_of (Main.server t (press o b)) s).
Proof.
  unfold press, sends. destruct s as [[] [] u lh]; run_handler; repeat split.
Qed.

Lemma main_release_run t o b s :
  state_after (Main.server t (release o b)) s
  = (if mainWindow s && isPTTPressed s then set_isPTTPressed false s else s)
  /\ sends "ptt:release" (emitted (Main.server t (release o b)) s)
     = (if mainWindow s && isPTTPressed s then 1%nat else 0%nat)
  /\ ok_response (VObj [HttpServer.success]) (response_of (Main.server t (release o b)) s).
Proof.
  unfold release, sends. destruct s as [[] [] u lh]; run_handler; repeat split.
Qed.

Lemma lib_press_run cb t o b s :
  state_after (HttpServer.createRequestHandler cb t (press o b)) s
  = (if mainWindow s && negb (isPTTPressed s) then set_isPTTPressed true s else s)
  /\ emitted (HttpServer.createRequestHandler cb t (press o b)) s
     = (if mainWindow s && negb (isPTTPressed s) && HttpServer.onPTTPress cb
        then [HttpServer.OnPTTPress] else [])
  /\ ok_response (VObj [HttpServer.success])
       (response_of (HttpServer.createRequestHandler cb t (press o b)) s).
Proof.
  unfold press. destruct s as [[] [] u lh]; run_handler; repeat split.
Qed.

Lemma lib_release_run cb t o b s :
  state_after (HttpServer.createRequestHandler cb t (release o b)) s
  = (if mainWindow s && isPTTPressed s then set_isPTTPressed false s else s)
  /\ emitted (HttpServer.createRequestHandler cb t (release o b)) s
     = (if mainWindow s && isPTTPressed s && HttpServer.onPTTRelease cb
        then [HttpServer.OnPTTRelease] else [])
  /\ ok_response (VObj [HttpServer.success])
       (response_of (HttpServer.createRequestHandler cb t (release o b)) s).
Proof.
  unfold release. destruct s as [[] [] u lh]; run_handler; repeat split.
Qed.

(** C1, amended. With a window attached: from a state where the button is
    not held, two presses in a row emit exactly one press event; in every
    state the second press emits nothing and changes nothing; a release
    while the button is not held emits nothing and changes nothing; and
    each of these requests is answered 200 [{success: true}]. The library
    handler's events are the calls of [onPTTPress] and [onPTTRelease],
    when given. *)
Theorem ptt_idempotent (cb : HttpServer.callbacks) (s : state)
    (t1 t2 : Z) (o1 o2 : option string) (b1 b2 : body) :
  mainWindow s = true ->
  let main1 := Main.server t1 (press o1 b1) in
  let main2 := Main.server t2 (press o2 b2) in
  let lib1 := HttpServer.createRequestHandler cb t1 (press o1 b1) in
  let lib2 := HttpServer.createRequestHandler cb t2 (press o2 b2) in
  let unpress := Main.server t1 (release o1 b1) in
  let lib_unpress := HttpServer.createRequestHandler cb t1 (release o1 b1) in
  (isPTTPressed s = false ->
     sends "ptt:press" (emitted main1 s ++ emitted main2 (state_after main1 s)) = 1%nat
     /\ List.length (filter is_press
                       (emitted lib1 s ++ emitted lib2 (state_after lib1 s)))
        = (if HttpServer.onPTTPress cb then 1%nat else 0%nat))
  /\ sends "ptt:press" (emitted main2 (state_after main1 s)) = 0%nat
  /\ state_after main2 (state_after main1 s) = state_after main1 s
  /\ emitted lib2 (state_after lib1 s) = []
  /\ state_after lib2 (state_after lib1 s) = state_after lib1 s
  /\ (isPTTPressed s = false ->
        sends "ptt:release" (emitted unpress s) = 0%nat
        /\ state_after unpress s = s
        /\ emitted lib_unpress s = []
        /\ state_after lib_unpress s = s)
  /\ ok_response (VObj [HttpServer.success]) (response_of main1 s)
  /\ ok_response (VObj [HttpServer.success]) (response_of main2 (state_after main1 s))
  /\ ok_response (VObj [HttpServer.success]) (response_of unpress s)
  /\ ok_response (VObj [HttpServer.success]) (response_of lib1 s)
  /\ ok_response (VObj [HttpServer.success]) (response_of lib2 (state_after lib1 s))
  /\ ok_response (VObj [HttpServer.success]) (response_of lib_unpress s).
Proof.
  intros Hw main1 main2 lib1 lib2 unpress lib_unpress.
  subst main1 main2 lib1 lib2 unpress lib_unpress.
  destruct s as [mw ptt u lh]. simpl in Hw. subst mw.
  unfold sends. rewrite !filter_app, !length_app.
  destruct ptt;
    match goal with
    | |- context [state_after _ ?s0] =>
        destruct (main_press_run t1 o1 b1 s0) as (M1s & M1e & M1r);
        destruct (lib_press_run cb t1 o1 b1 s0) as (L1s & L1e & L1r);
        destruct (main_release_run t1 o1 b1 s0) as (Rs & Re & Rr);
        destruct (lib_release_run cb t1 o1 b1 s0) as (LRs & LRe & LRr)
    end;
    unfold sends in *;
    cbn [mainWindow isPTTPressed andb negb set_isPTTPressed] in *;
    rewrite M1s, L1s, M1e, L1e;
    match goal with
    | |- context [state_after (Main.server t2 _) ?s1] =>
        destruct (main_press_run t2 o2 b2 s1) as (M2s & M2e & M2r);
        destruct (lib_press_run cb t2 o2 b2 s1) as (L2s & L2e & L2r)
    end;
    unfold sends in *;
    cbn [mainWindow isPTTPressed andb negb set_isPTTPressed] in *;
    rewrite M2s, L2s, M2e, L2e;
    conjs; try assumption; try reflexivity; try discriminate.
  - intros _. destruct (HttpServer.onPTTPress cb); split; reflexivity.
  - intros _. rewrite Rs, Re, LRs, LRe. conjs; reflexivity.
Qed.

Lemma ptt_idempotent_witness :
  let s := run [Main.CreateWindow false] Main.initial in
  let p := press None Empty in
  sends "ptt:press"
    (emitted (Main.server 1000 p) s
     ++ emitted (Main.server 2000 p) (state_after (Main.server 1000 p) s)) = 1%nat
  /\ sends "ptt:release" (emitted (Main.server 1000 (release None Empty)) s) = 0%nat.
Proof.
  intros s p.
  destruct (ptt_idempotent all_callbacks s 1000 2000 None None Empty Empty eq_refl)
    as (H1 & _ & _ & _ & _ & H2 & _).
  split.
  - apply H1. reflexivity.
  - apply H2. reflexivity.
Defined.

(** ** Disconnecting *)

(** What [disconnect] does, in one equation. *)
Lemma disconnect_run (reason : string) (w : world Main.effect) :
  Main.disconnect reason w =
  (Ok tt,
   {| st := set_lastHeartbeat None
              (set_serverURL VNull
                 (if isPTTPressed (st w) && mainWindow (st w)
                  then set_isPTTPressed false (st w) else st w));
      res := res w;
      out := ((out w ++ [Main.Console [VStr "[HTTP] Disconnect:"; VStr reason]])
              ++ (if isPTTPressed (st w) && mainWindow (st w)
                  then [Main.Send "ptt:release" []] else []))
             ++ (if mainWindow (st w) then [Main.LoadFile "waiting.html"] else []) |}).
Proof.
  unfold Main.disconnect. unfold_monad.
  destruct w as [[mw ptt u lh] r l]. destruct mw, ptt; cbn;
    rewrite ?app_nil_r; reflexivity.
Qed.

Lemma manual_disconnect_run (w : world Main.effect) :
  Main.manual_disconnect w =
  (Ok tt,
   {| st := st (snd (Main.disconnect "manual" w));
      res := answer 200 (VObj [HttpServer.success]) (res w);
      out := out (snd (Main.disconnect "manual" w)) |}).
Proof.
  unfold Main.manual_disconnect, bind. rewrite disconnect_run. reflexivity.
Qed.

Lemma manual_disconnect_is_disconnect now o b s :
  state_after (Main.server now (disconnect_request o b)) s
  = state_after (Main.disconnect "manual") s
  /\ emitted (Main.server now (disconnect_request o b)) s
     = emitted (Main.disconnect "manual") s
  /\ ok_response (VObj [HttpServer.success])
       (response_of (Main.server now (disconnect_request o b)) s).
Proof.
  destruct (main_server_routes now (disconnect_request o b) s eq_refl) as [r0 Hrun].
  unfold state_after, emitted, response_of, ok_response. rewrite Hrun.
  change (Main.routes now _) with Main.manual_disconnect.
  unfold try_catch. rewrite manual_disconnect_run, !disconnect_run.
  cbn. repeat split.
Qed.

(** C5, as stated, fails: after a press, once the window has closed,
    [disconnect] leaves the button held and emits no release event. *)
Lemma disconnect_without_window :
  let s := run [Main.CreateWindow false; Main.Request 1000 (press None Empty); Main.Closed]
             Main.initial in
  reachable s
  /\ isPTTPressed s = true
  /\ isPTTPressed (state_after (Main.disconnect "manual") s) = true
  /\ isPTTPressed (state_after (Main.server 2000 (disconnect_request None Empty)) s) = true
  /\ sends "ptt:release" (emitted (Main.disconnect "manual") s) = 0%nat.
Proof.
  intros s. split.
  - apply run_reachable; [constructor|]. repeat constructor.
  - vm_compute. repeat split.
Qed.

(** C5, amended. In every state [disconnect], called with "manual" by
    [POST /disconnect] and with "heartbeat_timeout" by the heartbeat check,
    clears the URL and the last heartbeat; it emits a release event exactly
    when the button was held and a window is attached, and then clears the
    button; when the button was not held, or a window is attached, the
    button is not held afterwards. *)
Theorem disconnect_spec (reason : string) (s : state) :
  let s' := state_after (Main.disconnect reason) s in
  serverURL s' = VNull
  /\ lastHeartbeat s' = None
  /\ mainWindow s' = mainWindow s
  /\ (mainWindow s = true \/ isPTTPressed s = false -> isPTTPressed s' = false)
  /\ sends "ptt:release" (emitted (Main.disconnect reason) s)
     = (if isPTTPressed s && mainWindow s then 1%nat else 0%nat)
  /\ In (Main.Console [VStr "[HTTP] Disconnect:"; VStr reason])
       (emitted (Main.disconnect reason) s)
  /\ (forall now o b,
        state_after (Main.server now (disconnect_request o b)) s
        = state_after (Main.disconnect "manual") s
        /\ emitted (Main.server now (disconnect_request o b)) s
           = emitted (Main.disconnect "manual") s)
  /\ (forall now t,
        truthy (serverURL s) = true -> lastHeartbeat s = Some t -> t <> 0 ->
        Main.HEARTBEAT_TIMEOUT < now - t ->
        state_after (Main.heartbeatCheck now) s
        = state_after (Main.disconnect "heartbeat_timeout") s).
Proof.
  intros s'. subst s'. unfold state_after, emitted, sends.
  rewrite disconnect_run. cbn [st snd out start].
  destruct s as [mw ptt u lh]. conjs; try reflexivity.
  - destruct mw, ptt; reflexivity.
  - destruct mw, ptt; cbn; intros [H|H]; try reflexivity; discriminate.
  - destruct mw, ptt; reflexivity.
  - destruct mw, ptt; cbn; auto.
  - intros now o b. split; apply manual_disconnect_is_disconnect.
  - cbn. intros now t Hu -> Ht Hlate.
    unfold Main.heartbeatCheck, Main.truthy_time. unfold_monad. cbn.
    apply Z.eqb_neq in Ht. rewrite Ht, Hu. cbn.
    apply Z.gtb_lt in Hlate. rewrite Hlate.
    destruct mw, ptt; reflexivity.
Qed.

Lemma disconnect_spec_witness :
  let s := run [Main.CreateWindow false; Main.Request 1000 connect_x;
                Main.Request 1500 (press None Empty)] Main.initial in
  isPTTPressed (state_after (Main.disconnect "manual") s) = false
  /\ state_after (Main.heartbeatCheck 40000) s
     = state_after (Main.disconnect "heartbeat_timeout") s.
Proof.
  intros s.
  destruct (disconnect_spec "manual" s) as (_ & _ & _ & H & _ & _ & _ & Hcheck).
  split.
  - apply H. left. reflexivity.
  - apply (Hcheck 40000 1000); [reflexivity | reflexivity | discriminate | reflexivity].
Defined.

(** ** The heartbeat monitor *)

Lemma heartbeatCheck_run now (w : world Main.effect) :
  Main.heartbeatCheck now w =
  if Main.truthy_time (lastHeartbeat (st w)) && truthy (serverURL (st w))
     && (now - match lastHeartbeat (st w) with Some t => t | None => 0 end
         >? Main.HEARTBEAT_TIMEOUT)
  then Main.disconnect "heartbeat_timeout"
         {| st := st w; res := res w; out := out w ++ [timeout_log now (st w)] |}
  else (Ok tt, w).
Proof.
  unfold Main.heartbeatCheck, bind at 1, read, when.
  destruct (Main.truthy_time _ && truthy _); cbn [andb]; [|reflexivity].
  destruct (_ >? _); [|reflexivity].
  unfold bind, emit. reflexivity.
Qed.

Lemma timed_out_test now s :
  inv s ->
  Main.truthy_time (lastHeartbeat s) && truthy (serverURL s)
  && (now - match lastHeartbeat s with Some t => t | None => 0 end
      >? Main.HEARTBEAT_TIMEOUT) = true
  <-> timed_out now s.
Proof.
  intros [Hu Ht]. unfold timed_out, time_ok, Main.truthy_time in *.
  rewrite (url_ok_truthy s Hu), !andb_true_iff.
  destruct (lastHeartbeat s) as [t|]; split.
  - intros [[_ Hurl] Hlate]. split.
    + destruct (serverURL s); try discriminate.
    + exists t. split; [reflexivity|]. apply Z.gtb_lt. assumption.
  - intros [Hurl (t' & Heq & Hlate)]. injection Heq as <-. repeat split.
    + apply negb_true_iff, Z.eqb_neq. lia.
    + destruct (serverURL s); try reflexivity. contradiction.
    + apply Z.gtb_lt. assumption.
  - intros [[H _] _]. discriminate.
  - intros [_ (t & H & _)]. discriminate.
Qed.

Lemma heartbeat_run now o b s :
  state_after (Main.server now (heartbeat_request o b)) s = set_lastHeartbeat (Some now) s
  /\ emitted (Main.server now (heartbeat_request o b)) s = []
  /\ ok_response (VObj [HttpServer.success])
       (response_of (Main.server now (heartbeat_request o b)) s).
Proof. unfold heartbeat_request. run_handler. repeat split. Qed.

(** C6. The heartbeat check, run every 5000 ms, takes the path of
    [disconnect], with reason "heartbeat_timeout", exactly when a URL is
    set, a last heartbeat is recorded and more than 30000 ms have passed
    since; otherwise it does nothing. [POST /disconnect] takes the same
    path with reason "manual". [POST /heartbeat] sets the last heartbeat
    to the current time and changes nothing else, so a check that comes
    at most 30000 ms after the last heartbeat does nothing. *)
Theorem heartbeat_monitor (s : state) (now : Z) :
  reachable s ->
  let check := Main.heartbeatCheck now in
  Main.HEARTBEAT_TIMEOUT = 30000
  /\ (forall start k, Main.check_time start (S k) - Main.check_time start k = 5000)
  /\ (timed_out now s ->
        state_after check s = state_after (Main.disconnect "heartbeat_timeout") s
        /\ emitted check s
           = timeout_log now s :: emitted (Main.disconnect "heartbeat_timeout") s)
  /\ (~ timed_out now s -> state_after check s = s /\ emitted check s = [])
  /\ (In (Main.Console [VStr "[HTTP] Disconnect:"; VStr "heartbeat_timeout"])
         (emitted check s) <-> timed_out now s)
  /\ (forall t o b,
        state_after (Main.server t (disconnect_request o b)) s
        = state_after (Main.disconnect "manual") s
        /\ state_after (Main.disconnect "manual") s
           = state_after (Main.disconnect "heartbeat_timeout") s)
  /\ (forall t o b,
        state_after (Main.server t (heartbeat_request o b)) s
        = set_lastHeartbeat (Some t) s
        /\ emitted (Main.server t (heartbeat_request o b)) s = [])
  /\ (forall t o b,
        now - t <= Main.HEARTBEAT_TIMEOUT ->
        let s1 := state_after (Main.server t (heartbeat_request o b)) s in
        state_after check s1 = s1 /\ emitted check s1 = []).
Proof.
  intros Hs check. subst check. apply reachable_inv in Hs.
  pose proof (timed_out_test now s Hs) as Htest.
  unfold state_after, emitted.
  rewrite heartbeatCheck_run. cbn [st res out start].
  conjs.
  - reflexivity.
  - intros start k. unfold Main.check_time, Main.HEARTBEAT_CHECK_INTERVAL. lia.
  - intros H. apply Htest in H. rewrite H, !disconnect_run. cbn. split; reflexivity.
  - intros H.
    destruct (_ && _ && _); [|split; reflexivity].
    exfalso. apply H, Htest. reflexivity.
  - rewrite <- Htest.
    destruct (_ && _ && _); split; intros H; try reflexivity; try discriminate.
    + rewrite disconnect_run. cbn. right. left. reflexivity.
    + cbn in H. contradiction.
  - intros t o b. split; [apply manual_disconnect_is_disconnect|].
    rewrite !disconnect_run. reflexivity.
  - intros t o b. destruct (heartbeat_run t o b s) as (H1 & H2 & _).
    split; [exact H1 | exact H2].
  - intros t o b Hfresh.
    destruct (heartbeat_run t o b s) as (Hst & _).
    unfold state_after in Hst. rewrite heartbeatCheck_run. cbn [st res out start].
    rewrite Hst. cbn [lastHeartbeat set_lastHeartbeat].
    replace (now - t >? Main.HEARTBEAT_TIMEOUT) with false
      by (symmetry; rewrite Z.gtb_ltb; apply Z.ltb_ge; assumption).
    rewrite andb_false_r. split; reflexivity.
Qed.

Lemma heartbeat_monitor_witness :
  let s := run [Main.CreateWindow false; Main.Request 1000 connect_x] Main.initial in
  reachable s
  /\ state_after (Main.heartbeatCheck 31001) s
     = state_after (Main.disconnect "heartbeat_timeout") s
  /\ state_after (Main.heartbeatCheck 31000) s = s
  /\ (let s1 := state_after (Main.server 20000 (heartbeat_request None Empty)) s in
      state_after (Main.heartbeatCheck 50000) s1 = s1).
Proof.
  intros s.
  assert (Hs : reachable s).
  { apply run_reachable; [constructor|]. repeat constructor. }
  destruct (heartbeat_monitor s 31001 Hs) as (_ & _ & Hfire & _).
  destruct (heartbeat_monitor s 31000 Hs) as (_ & _ & _ & Hquiet & _).
  destruct (heartbeat_monitor s 50000 Hs) as (_ & _ & _ & _ & _ & _ & _ & Hfresh).
  split; [exact Hs|]. split; [|split].
  - apply Hfire. split; [discriminate|]. exists 1000. split; reflexivity.
  - apply Hquiet. intros [_ (t & Ht & Hlate)].
    injection Ht as <-. discriminate Hlate.
  - apply (Hfresh 20000 None Empty). discriminate.
Defined.

(** ** Errors *)




(** ** Scenarios of the test suite, replayed on the model *)

(** [POST /frequencies] with 45.3 (left) and 100 (both). *)
Example frequencies_scenario :
  let req := POST "/frequencies" (Json (VObj [("frequencies", two_frequencies)])) in
  let strings :=
    VArr [VObj [("frequency", VStr "45.3"); ("earSide", VNum (of_Z 0))];
          VObj [("frequency", VStr "100"); ("earSide", VNum (of_Z 2))]] in
  is_json two_frequencies = true
  /\ emitted (HttpServer.createRequestHandler all_callbacks 1000 req) window_open
     = [HttpServer.OnFrequenciesUpdate strings]
  /\ filter (is_send "frequencies:update") (emitted (Main.server 1000 req) window_open)
     = [Main.Send "frequencies:update" [strings]]
  /\ ok_response (VObj [HttpServer.success; ("count", VNum (of_Z 2))])
       (response_of (Main.server 1000 req) window_open).
Proof. vm_compute. repeat split. Qed.

(** [POST /connect] with a URL, then [GET /status]. *)
Example connect_then_status :
  let s := state_after (Main.server 1000 connect_x) window_open in
  ok_response (VObj [HttpServer.success; ("url", VStr "http://x")])
    (response_of (Main.server 1000 connect_x) window_open)
  /\ ok_response
       (VObj [("running", VBool true); ("status", VStr "CONNECTED");
              ("pttPressed", VBool false); ("connected", VBool true);
              ("serverURL", VStr "http://x")])
       (response_of (Main.server 2000 (GET "/status")) s).
Proof. vm_compute. repeat split. Qed.

(** [POST /ear-side] with [earSide: 5]. *)
Example ear_side_out_of_range :
  error_response 400 "earSide must be 0 (left), 1 (right), or 2 (both)"
    (response_of
       (Main.server 1000
          (POST "/ear-side"
             (Json (VObj [("frequency", VNum (of_ratio 453 10));
                          ("earSide", VNum (of_Z 5))]))))
       window_open).
Proof. vm_compute. repeat split. Qed.

(** No heartbeat for more than 30 seconds while connected. *)
Example heartbeat_timeout_scenario :
  let s := state_after (Main.server 1000 connect_x) window_open in
  let s' := state_after (Main.heartbeatCheck 31001) s in
  serverURL s' = VNull
  /\ HttpServer.getConnectionStatus (serverURL s') (mainWindow s') = "WAITING_FOR_CONNECTION"
  /\ In (Main.Console [VStr "[HTTP] Disconnect:"; VStr "heartbeat_timeout"])
       (emitted (Main.heartbeatCheck 31001) s).
Proof. vm_compute. repeat split. right. left. reflexivity. Qed.

(** * Further properties *)

(*PROOFS*)

Ltac tidy_tac :=
  intros w; unfold_routes; destruct w as [s r l]; crunch;
  first [ reflexivity
        | left; eexists; reflexivity
        | right; do 2 eexists; split; cycle 1; [repeat split | discriminate] ].

Lemma main_routes_tidy now req : tidy (Main.routes now req).
Proof. apply main_routes_cases; tidy_tac. Qed.

Lemma lib_routes_tidy cb now req : tidy (HttpServer.routes cb now req).
Proof. apply lib_routes_cases; tidy_tac. Qed.

(** ** Response headers *)

Lemma setCORSHeaders_headers {E} (o : option string) (w : world E) :
  exists v,
    HttpServer.setCORSHeaders o w =
    (Ok tt,
     {| st := st w;
        res := {| headers := headers (res w)
                             ++ [("Access-Control-Allow-Origin", v);
                                 ("Access-Control-Allow-Methods", "GET, POST, OPTIONS");
                                 ("Access-Control-Allow-Headers", "Content-Type")];
                  statusCode := statusCode (res w);
                  sent := sent (res w);
                  ended := ended (res w) |};
        out := out w |})
    /\ local_origin v = true
    /\ (forall x, o = Some x -> local_origin x = true -> v = x)
    /\ ((forall x, o = Some x -> local_origin x = false) -> v = "http://127.0.0.1").
Proof.
  unfold HttpServer.setCORSHeaders, local_origin. unfold_monad.
  unfold HttpServer.setHeader. cbn [headers statusCode sent ended st res out].
  rewrite <- !app_assoc. cbn [app].
  destruct o as [x|].
  - destruct (String_includes x "localhost" || String_includes x "127.0.0.1") eqn:Hx.
    + destruct (x =? "")%string eqn:He.
      * apply String.eqb_eq in He. subst x. discriminate Hx.
      * cbn [negb andb]. exists x.
        split; [reflexivity|]. split; [exact Hx|]. split.
        -- intros y Hy _. injection Hy as <-. reflexivity.
        -- intros H. rewrite (H x eq_refl) in Hx. discriminate.
    + rewrite andb_false_r. eexists.
      split; [reflexivity|]. split; [reflexivity|]. split.
      * intros y Hy Hl. injection Hy as <-. rewrite Hx in Hl. discriminate.
      * intros _. reflexivity.
  - eexists. split; [reflexivity|]. split; [reflexivity|]. split.
    + intros x H. discriminate.
    + intros _. reflexivity.
Qed.

Lemma lookup_header_app name hs hs' :
  lookup_header name (hs ++ hs') =
  match lookup_header name hs with
  | Some v => Some v
  | None => lookup_header name hs'
  end.
Proof.
  induction hs as [|[k v] hs IH]; simpl; [reflexivity|].
  destruct (k =? name)%string; [reflexivity | exact IH].
Qed.

(** The headers of the answer to any request: the three CORS headers,
    then the content type unless the request is a preflight. *)
Lemma main_server_headers now req s :
  exists v,
    headers (response_of (Main.server now req) s) =
    ([("Access-Control-Allow-Origin", v);
      ("Access-Control-Allow-Methods", "GET, POST, OPTIONS");
      ("Access-Control-Allow-Headers", "Content-Type")]
     ++ (if (method req =? "OPTIONS")%string then []
         else [("Content-Type", "application/json")]))%list
    /\ local_origin v = true
    /\ (forall x, origin req = Some x -> local_origin x = true -> v = x)
    /\ ((forall x, origin req = Some x -> local_origin x = false) -> v = "http://127.0.0.1").
Proof.
  unfold response_of, Main.server, bind at 1.
  destruct (setCORSHeaders_headers (E := Main.effect) (origin req) (start s))
    as (v & -> & Hv).
  exists v. split; [|exact Hv].
  destruct (method req =? "OPTIONS")%string.
  - cbn. reflexivity.
  - unfold try_catch.
    match goal with |- context [Main.routes now req ?w] =>
      pose proof (main_routes_tidy now req w) as H;
      destruct (Main.routes now req w) as [[[]|e] w']
    end.
    + cbn [snd]. destruct H as [[data H] | (code & data & _ & H & _)];
        rewrite H; reflexivity.
    + subst w'. reflexivity.
Qed.

Lemma lib_handler_headers cb now req s :
  exists v,
    headers (response_of (HttpServer.createRequestHandler cb now req) s) =
    ([("Access-Control-Allow-Origin", v);
      ("Access-Control-Allow-Methods", "GET, POST, OPTIONS");
      ("Access-Control-Allow-Headers", "Content-Type")]
     ++ (if (method req =? "OPTIONS")%string then []
         else [("Content-Type", "application/json")]))%list
    /\ local_origin v = true
    /\ (forall x, origin req = Some x -> local_origin x = true -> v = x)
    /\ ((forall x, origin req = Some x -> local_origin x = false) -> v = "http://127.0.0.1").
Proof.
  unfold response_of, HttpServer.createRequestHandler, bind at 1.
  destruct (setCORSHeaders_headers (E := HttpServer.call) (origin req) (start s))
    as (v & -> & Hv).
  exists v. split; [|exact Hv].
  destruct (method req =? "OPTIONS")%string.
  - cbn. reflexivity.
  - unfold try_catch.
    match goal with |- context [HttpServer.routes cb now req ?w] =>
      pose proof (lib_routes_tidy cb now req w) as H;
      destruct (HttpServer.routes cb now req w) as [[[]|e] w']
    end.
    + cbn [snd]. destruct H as [[data H] | (code & data & _ & H & _)];
        rewrite H; reflexivity.
    + subst w'. reflexivity.
Qed.

(** ** Which route serves a request *)

Lemma test_true (m u : string) (req : request) :
  (url req =? u)%string && (method req =? m)%string = true ->
  (method req, url req) = (m, u).
Proof.
  intros H. apply andb_true_iff in H as [Hu Hm].
  apply String.eqb_eq in Hu, Hm. rewrite Hu, Hm. reflexivity.
Qed.

Lemma test_false_inv (m u : string) (req : request) :
  (url req =? u)%string && (method req =? m)%string = false ->
  (method req, url req) <> (m, u).
Proof.
  intros H E. injection E as Hm Hu. rewrite Hm, Hu, !String.eqb_refl in H.
  discriminate.
Qed.

Ltac select_route :=
  repeat (match goal with
          | |- context [if ?b then _ else _] => destruct b eqn:?
          end;
          [ match goal with
            | H : _ && _ = true |- _ => apply test_true in H; auto
            end
          | match goal with
            | H : _ && _ = false |- _ => apply test_false_inv in H
            end ]);
  match goal with
  | H : ~ In _ route_table -> _ |- _ =>
      apply H; simpl; intros Hin;
      repeat (destruct Hin as [Hin|Hin]; [symmetry in Hin; contradiction|]);
      exact Hin
  end.

Lemma main_routes_select (P : M Main.effect unit -> Prop) now req :
  ((method req, url req) = ("POST", "/ptt/press") -> P Main.ptt_press) ->
  ((method req, url req) = ("POST", "/ptt/release") -> P Main.ptt_release) ->
  ((method req, url req) = ("GET", "/status") -> P Main.status) ->
  ((method req, url req) = ("POST", "/connect") -> P (Main.connect now (payload req))) ->
  ((method req, url req) = ("POST", "/disconnect") -> P Main.manual_disconnect) ->
  ((method req, url req) = ("POST", "/heartbeat") -> P (Main.heartbeat now)) ->
  ((method req, url req) = ("POST", "/frequency") -> P (Main.frequency (payload req))) ->
  ((method req, url req) = ("POST", "/frequencies") ->
   P (Main.frequencies (payload req))) ->
  ((method req, url req) = ("POST", "/active-channel") ->
   P (Main.active_channel (payload req))) ->
  ((method req, url req) = ("POST", "/ear-side") -> P (Main.ear_side (payload req))) ->
  ((method req, url req) = ("POST", "/frequency/disconnect") ->
   P (Main.frequency_disconnect (payload req))) ->
  (~ In (method req, url req) route_table -> P Main.not_found) ->
  P (Main.routes now req).
Proof. intros. unfold Main.routes. select_route. Qed.

Lemma lib_routes_select cb (P : M HttpServer.call unit -> Prop) now req :
  ((method req, url req) = ("POST", "/ptt/press") -> P (HttpServer.ptt_press cb)) ->
  ((method req, url req) = ("POST", "/ptt/release") -> P (HttpServer.ptt_release cb)) ->
  ((method req, url req) = ("GET", "/status") -> P HttpServer.status) ->
  ((method req, url req) = ("POST", "/connect") ->
   P (HttpServer.connect cb now (payload req))) ->
  ((method req, url req) = ("POST", "/disconnect") -> P (HttpServer.disconnect cb)) ->
  ((method req, url req) = ("POST", "/heartbeat") -> P (HttpServer.heartbeat now)) ->
  ((method req, url req) = ("POST", "/frequency") ->
   P (HttpServer.frequency cb (payload req))) ->
  ((method req, url req) = ("POST", "/frequencies") ->
   P (HttpServer.frequencies cb (payload req))) ->
  ((method req, url req) = ("POST", "/active-channel") ->
   P (HttpServer.active_channel cb (payload req))) ->
  ((method req, url req) = ("POST", "/ear-side") ->
   P (HttpServer.ear_side cb (payload req))) ->
  ((method req, url req) = ("POST", "/frequency/disconnect") ->
   P (HttpServer.frequency_disconnect cb (payload req))) ->
  (~ In (method req, url req) route_table -> P HttpServer.not_found) ->
  P (HttpServer.routes cb now req).
Proof. intros. unfold HttpServer.routes. select_route. Qed.

(** ** From the routes to the handlers *)

Lemma main_server_split now req s :
  ((method req =? "OPTIONS")%string = true
   /\ state_after (Main.server now req) s = s
   /\ emitted (Main.server now req) s = []
   /\ statusCode (response_of (Main.server now req) s) = Some 200)
  \/
  ((method req =? "OPTIONS")%string = false
   /\ exists r0,
       let x := Main.routes now req {| st := s; res := r0; out := [] |} in
       state_after (Main.server now req) s = st (snd x)
       /\ emitted (Main.server now req) s
          = (out (snd x)
             ++ match fst x with
                | Ok _ => []
                | Throw e => [Main.Console [VStr "[HTTP] Error:"; VStr (Main.error_name e)]]
                end)%list
       /\ response_of (Main.server now req) s
          = match fst x with
            | Ok _ => res (snd x)
            | Throw _ => answer 400 (HttpServer.failure "Invalid JSON") (res (snd x))
            end).
Proof.
  destruct (method req =? "OPTIONS")%string eqn:Hm; [left | right];
    (split; [reflexivity|]).
  - unfold state_after, emitted, response_of, Main.server.
    unfold bind at 1 3 5.
    destruct (setCORSHeaders_runs (E := Main.effect) (origin req) (start s)) as [r ->].
    rewrite Hm. cbn. repeat split.
  - destruct (main_server_routes now req s Hm) as [r0 Hrun].
    exists r0. unfold state_after, emitted, response_of. rewrite Hrun.
    unfold try_catch.
    destruct (Main.routes now req _) as [[[]|e] w']; cbn.
    + rewrite app_nil_r. repeat split.
    + repeat split.
Qed.

Lemma lib_handler_split cb now req s :
  ((method req =? "OPTIONS")%string = true
   /\ state_after (HttpServer.createRequestHandler cb now req) s = s
   /\ emitted (HttpServer.createRequestHandler cb now req) s = []
   /\ statusCode (response_of (HttpServer.createRequestHandler cb now req) s) = Some 200)
  \/
  ((method req =? "OPTIONS")%string = false
   /\ exists r0,
       let x := HttpServer.routes cb now req {| st := s; res := r0; out := [] |} in
       state_after (HttpServer.createRequestHandler cb now req) s = st (snd x)
       /\ emitted (HttpServer.createRequestHandler cb now req) s = out (snd x)
       /\ response_of (HttpServer.createRequestHandler cb now req) s
          = match fst x with
            | Ok _ => res (snd x)
            | Throw _ => answer 400 (HttpServer.failure "Invalid JSON") (res (snd x))
            end).
Proof.
  destruct (method req =? "OPTIONS")%string eqn:Hm; [left | right];
    (split; [reflexivity|]).
  - unfold state_after, emitted, response_of, HttpServer.createRequestHandler.
    unfold bind at 1 3 5.
    destruct (setCORSHeaders_runs (E := HttpServer.call) (origin req) (start s)) as [r ->].
    rewrite Hm. cbn. repeat split.
  - destruct (lib_handler_routes cb now req s Hm) as [r0 Hrun].
    exists r0. unfold state_after, emitted, response_of. rewrite Hrun.
    unfold try_catch.
    destruct (HttpServer.routes cb now req _) as [[[]|e] w']; cbn; repeat split.
Qed.

(** ** Substrings *)

Lemma prefix_append (n b : string) : prefix n (n ++ b) = true.
Proof.
  induction n as [|c n IH]; simpl.
  - destruct b; reflexivity.
  - destruct (ascii_dec c c) as [_|H]; [exact IH | contradiction].
Qed.

Lemma prefix_split (n h : string) : prefix n h = true -> exists b, h = n ++ b.
Proof.
  revert h. induction n as [|c n IH]; intros h H.
  - exists h. reflexivity.
  - destruct h as [|d h]; simpl in H; [discriminate|].
    destruct (ascii_dec c d) as [<-|]; [|discriminate].
    destruct (IH h H) as [b ->]. exists b. reflexivity.
Qed.

Lemma index_cons (needle : string) (c : ascii) (h : string) :
  index 0 needle (String c h) =
  if prefix needle (String c h) then Some 0%nat
  else match index 0 needle h with
       | Some n => Some (S n)
       | None => None
       end.
Proof. reflexivity. Qed.

Lemma String_includes_spec (haystack needle : string) :
  String_includes haystack needle = true <-> occurs_in needle haystack.
Proof.
  unfold String_includes, occurs_in. split.
  - induction haystack as [|c h IH].
    + simpl. destruct needle; intros H; [|discriminate H].
      exists "", "". reflexivity.
    + rewrite index_cons. destruct (prefix needle (String c h)) eqn:Hp.
      * intros _. destruct (prefix_split _ _ Hp) as [b Hb]. exists "", b. exact Hb.
      * destruct (index 0 needle h); intros H; [|discriminate H].
        destruct (IH eq_refl) as (a & b & ->).
        exists (String c a), b. reflexivity.
  - intros (a & b & ->). induction a as [|c a IH].
    + simpl append. destruct (needle ++ b) eqn:E.
      * destruct needle; [reflexivity | discriminate].
      * rewrite index_cons, <- E, prefix_append. reflexivity.
    + change (String c a ++ needle ++ b) with (String c (a ++ needle ++ b)).
      rewrite index_cons.
      destruct (prefix needle (String c (a ++ needle ++ b))); [reflexivity|].
      destruct (index 0 needle (a ++ needle ++ b)); [reflexivity | discriminate].
Qed.

(** ** The headers of an answer *)

Lemma local_origin_spec (x : string) :
  local_origin x = true <-> occurs_in "localhost" x \/ occurs_in "127.0.0.1" x.
Proof.
  unfold local_origin. rewrite orb_true_iff, !String_includes_spec. reflexivity.
Qed.

(** X1. Whatever the request, both handlers set [Access-Control-Allow-Origin]
    to a value in which "localhost" or "127.0.0.1" occurs: the request's own
    origin when one of the two occurs in it (anywhere in it), and
    "http://127.0.0.1" otherwise, also when the request has no origin. The
    allowed methods and headers are fixed. *)
Theorem cors_origin_policy (cb : HttpServer.callbacks) (now : Z) (req : request)
    (s : state) :
  exists v,
    header "Access-Control-Allow-Origin" (response_of (Main.server now req) s) = Some v
    /\ header "Access-Control-Allow-Origin"
         (response_of (HttpServer.createRequestHandler cb now req) s) = Some v
    /\ (occurs_in "localhost" v \/ occurs_in "127.0.0.1" v)
    /\ (forall x, origin req = Some x ->
                  occurs_in "localhost" x \/ occurs_in "127.0.0.1" x -> v = x)
    /\ ((forall x, origin req = Some x ->
                   ~ (occurs_in "localhost" x \/ occurs_in "127.0.0.1" x)) ->
        v = "http://127.0.0.1")
    /\ header "Access-Control-Allow-Methods" (response_of (Main.server now req) s)
       = Some "GET, POST, OPTIONS"
    /\ header "Access-Control-Allow-Methods"
         (response_of (HttpServer.createRequestHandler cb now req) s)
       = Some "GET, POST, OPTIONS"
    /\ header "Access-Control-Allow-Headers" (response_of (Main.server now req) s)
       = Some "Content-Type"
    /\ header "Access-Control-Allow-Headers"
         (response_of (HttpServer.createRequestHandler cb now req) s)
       = Some "Content-Type".
Proof.
  destruct (main_server_headers now req s) as (v & Hm & Hv & Hecho & Hdefault).
  destruct (lib_handler_headers cb now req s) as (v' & Hl & _ & Hecho' & Hdefault').
  assert (v' = v) as ->.
  { destruct (origin req) as [x|] eqn:Ho.
    - destruct (local_origin x) eqn:Hx.
      + rewrite (Hecho x eq_refl Hx), (Hecho' x eq_refl Hx). reflexivity.
      + rewrite Hdefault, Hdefault'; [reflexivity | |];
          intros y Hy; injection Hy as <-; exact Hx.
    - rewrite Hdefault, Hdefault'; [reflexivity | |]; intros y Hy; discriminate. }
  exists v. unfold header. rewrite Hm, Hl. cbn [lookup_header app String.eqb Ascii.eqb Bool.eqb].
  conjs; try reflexivity.
  - apply local_origin_spec. exact Hv.
  - intros x Hx Hloc. apply Hecho; [exact Hx | apply local_origin_spec; exact Hloc].
  - intros H. apply Hdefault. intros x Hx.
    destruct (local_origin x) eqn:E; [|reflexivity].
    exfalso. apply (H x Hx). apply local_origin_spec. exact E.
Qed.

Lemma cors_origin_policy_witness :
  let req o := {| method := "GET"; url := "/status"; origin := o; payload := Empty |} in
  header "Access-Control-Allow-Origin"
    (response_of (Main.server 1000 (req (Some "http://localhost.example.org"))) Main.initial)
  = Some "http://localhost.example.org"
  /\ header "Access-Control-Allow-Origin"
       (response_of (Main.server 1000 (req (Some "https://example.org"))) Main.initial)
     = Some "http://127.0.0.1".
Proof.
  intros req. split.
  - destruct (cors_origin_policy all_callbacks 1000
                (req (Some "http://localhost.example.org")) Main.initial)
      as (v & Hv & _ & _ & Hecho & _).
    rewrite Hv. f_equal. apply (Hecho _ eq_refl).
    left. exists "http://", ".example.org". reflexivity.
  - destruct (cors_origin_policy all_callbacks 1000
                (req (Some "https://example.org")) Main.initial)
      as (v & Hv & _ & _ & _ & Hdefault & _).
    rewrite Hv. f_equal. apply Hdefault.
    intros x Hx. injection Hx as <-. intros H.
    apply local_origin_spec in H. discriminate H.
Defined.

(** X2. Every answer to a request other than a preflight carries
    [Content-Type: application/json] after the three CORS headers, and
    nothing else; the answer to a preflight carries the three CORS headers
    only. *)
Theorem response_headers (cb : HttpServer.callbacks) (now : Z) (req : request)
    (s : state) :
  let names :=
    (["Access-Control-Allow-Origin"; "Access-Control-Allow-Methods";
      "Access-Control-Allow-Headers"]
     ++ (if (method req =? "OPTIONS")%string then [] else ["Content-Type"]))%list in
  map fst (headers (response_of (Main.server now req) s)) = names
  /\ map fst (headers (response_of (HttpServer.createRequestHandler cb now req) s)) = names
  /\ header "Content-Type" (response_of (Main.server now req) s)
     = (if (method req =? "OPTIONS")%string then None else Some "application/json")
  /\ header "Content-Type" (response_of (HttpServer.createRequestHandler cb now req) s)
     = (if (method req =? "OPTIONS")%string then None else Some "application/json").
Proof.
  destruct (main_server_headers now req s) as (v & Hm & _).
  destruct (lib_handler_headers cb now req s) as (v' & Hl & _).
  unfold header. rewrite Hm, Hl.
  destruct (method req =? "OPTIONS")%string; cbn; repeat split.
Qed.

(** ** What requests do to the session *)

(** X3. A request that is not answered 200 leaves the session state as it
    was; the library handler then calls no callback, and [main.cjs] sends
    nothing to the window (it may log the error). *)
Theorem rejected_requests_change_nothing (cb : HttpServer.callbacks) (now : Z)
    (req : request) (s : state) :
  (statusCode (response_of (Main.server now req) s) <> Some 200 ->
   state_after (Main.server now req) s = s
   /\ forallb is_console (emitted (Main.server now req) s) = true)
  /\
  (statusCode (response_of (HttpServer.createRequestHandler cb now req) s) <> Some 200 ->
   state_after (HttpServer.createRequestHandler cb now req) s = s
   /\ emitted (HttpServer.createRequestHandler cb now req) s = []).
Proof.
  split; intros Hcode.
  - destruct (main_server_split now req s)
      as [(_ & _ & _ & H200) | (_ & r0 & Hst & Hout & Hres)]; [contradiction|].
    rewrite Hst, Hout. rewrite Hres in Hcode.
    pose proof (main_routes_tidy now req {| st := s; res := r0; out := [] |}) as H.
    destruct (Main.routes now req _) as [[[]|e] w']; cbn in *.
    + destruct H as [[data H] | (code & data & _ & _ & H1 & H2)].
      * rewrite H in Hcode. exfalso. apply Hcode. reflexivity.
      * rewrite H1, H2. split; reflexivity.
    + subst w'. split; reflexivity.
  - destruct (lib_handler_split cb now req s)
      as [(_ & _ & _ & H200) | (_ & r0 & Hst & Hout & Hres)]; [contradiction|].
    rewrite Hst, Hout. rewrite Hres in Hcode.
    pose proof (lib_routes_tidy cb now req {| st := s; res := r0; out := [] |}) as H.
    destruct (HttpServer.routes cb now req _) as [[[]|e] w']; cbn in *.
    + destruct H as [[data H] | (code & data & _ & _ & H1 & H2)].
      * rewrite H in Hcode. exfalso. apply Hcode. reflexivity.
      * rewrite H1, H2. split; reflexivity.
    + subst w'. split; reflexivity.
Qed.

Lemma rejected_requests_change_nothing_witness :
  let s := run [Main.CreateWindow false; Main.Request 1000 connect_x] Main.initial in
  state_after (Main.server 2000 (POST "/connect" (Json VNull))) s = s
  /\ state_after (Main.server 2000 (POST "/ear-side" Empty)) s = s.
Proof.
  intros s.
  destruct (rejected_requests_change_nothing all_callbacks 2000
              (POST "/connect" (Json VNull)) s) as [H1 _].
  destruct (rejected_requests_change_nothing all_callbacks 2000
              (POST "/ear-side" Empty) s) as [H2 _].
  split.
  - apply H1. discriminate.
  - apply H2. discriminate.
Defined.

Ltac frame_tac :=
  intros Heq; rewrite ?Heq; unfold_routes; crunch; conjs;
  try reflexivity;
  intros Hnot; try reflexivity; exfalso; apply Hnot; simpl; tauto.

(** X4. A request never attaches or detaches the window. It changes the
    push-to-talk flag only on [POST /ptt/press], [/ptt/release] and
    [/disconnect], the URL only on [POST /connect] and [/disconnect], the
    last heartbeat only on [POST /connect], [/disconnect] and [/heartbeat];
    the library handler changes nothing on [/disconnect], which it leaves
    to the callback. *)
Theorem request_frame (cb : HttpServer.callbacks) (now : Z) (req : request)
    (s : state) :
  let route := (method req, url req) in
  let m := state_after (Main.server now req) s in
  let l := state_after (HttpServer.createRequestHandler cb now req) s in
  mainWindow m = mainWindow s
  /\ (~ In route [("POST", "/ptt/press"); ("POST", "/ptt/release"); ("POST", "/disconnect")] ->
      isPTTPressed m = isPTTPressed s)
  /\ (~ In route [("POST", "/connect"); ("POST", "/disconnect")] ->
      serverURL m = serverURL s)
  /\ (~ In route [("POST", "/connect"); ("POST", "/disconnect"); ("POST", "/heartbeat")] ->
      lastHeartbeat m = lastHeartbeat s)
  /\ mainWindow l = mainWindow s
  /\ (~ In route [("POST", "/ptt/press"); ("POST", "/ptt/release")] ->
      isPTTPressed l = isPTTPressed s)
  /\ (~ In route [("POST", "/connect")] -> serverURL l = serverURL s)
  /\ (~ In route [("POST", "/connect"); ("POST", "/heartbeat")] ->
      lastHeartbeat l = lastHeartbeat s).
Proof.
  intros route m l. subst route m l.
  assert (Hmain :
    mainWindow (state_after (Main.server now req) s) = mainWindow s
    /\ (~ In (method req, url req)
           [("POST", "/ptt/press"); ("POST", "/ptt/release"); ("POST", "/disconnect")] ->
        isPTTPressed (state_after (Main.server now req) s) = isPTTPressed s)
    /\ (~ In (method req, url req) [("POST", "/connect"); ("POST", "/disconnect")] ->
        serverURL (state_after (Main.server now req) s) = serverURL s)
    /\ (~ In (method req, url req)
           [("POST", "/connect"); ("POST", "/disconnect"); ("POST", "/heartbeat")] ->
        lastHeartbeat (state_after (Main.server now req) s) = lastHeartbeat s)).
  { destruct (main_server_split now req s)
      as [(_ & -> & _) | (_ & r0 & -> & _)]; [conjs; reflexivity|].
    destruct s as [mw ptt u lh].
    apply main_routes_select; frame_tac. }
  assert (Hlib :
    mainWindow (state_after (HttpServer.createRequestHandler cb now req) s) = mainWindow s
    /\ (~ In (method req, url req) [("POST", "/ptt/press"); ("POST", "/ptt/release")] ->
        isPTTPressed (state_after (HttpServer.createRequestHandler cb now req) s)
        = isPTTPressed s)
    /\ (~ In (method req, url req) [("POST", "/connect")] ->
        serverURL (state_after (HttpServer.createRequestHandler cb now req) s)
        = serverURL s)
    /\ (~ In (method req, url req) [("POST", "/connect"); ("POST", "/heartbeat")] ->
        lastHeartbeat (state_after (HttpServer.createRequestHandler cb now req) s)
        = lastHeartbeat s)).
  { destruct (lib_handler_split cb now req s)
      as [(_ & -> & _) | (_ & r0 & -> & _)]; [conjs; reflexivity|].
    destruct s as [mw ptt u lh].
    apply lib_routes_select; frame_tac. }
  destruct Hmain as (M1 & M2 & M3 & M4). destruct Hlib as (L1 & L2 & L3 & L4).
  conjs; assumption.
Qed.

Lemma request_frame_witness :
  let s := run [Main.CreateWindow false; Main.Request 1000 connect_x] Main.initial in
  serverURL (state_after (Main.server 2000 (POST "/heartbeat" Empty)) s) = serverURL s
  /\ isPTTPressed (state_after (Main.server 2000 (POST "/connect" Empty)) s)
     = isPTTPressed s.
Proof.
  intros s.
  destruct (request_frame all_callbacks 2000 (POST "/heartbeat" Empty) s)
    as (_ & _ & H1 & _).
  destruct (request_frame all_callbacks 2000 (POST "/connect" Empty) s)
    as (_ & H2 & _).
  split.
  - apply H1. simpl. intros [H|[H|[]]]; discriminate H.
  - apply H2. simpl. intros [H|[H|[H|[]]]]; discriminate H.
Defined.

Ltac silent_tac :=
  intros w Hw; destruct w as [[mw ptt u lh] r l]; simpl in Hw; subst mw;
  unfold Main.heartbeatCheck; unfold_routes; crunch;
  rewrite <- ?app_assoc;
  first [ match goal with H : _ && false = true |- _ =>
            rewrite andb_false_r in H; discriminate H end
        | eexists; split; [reflexivity|]; reflexivity
        | exists []; split; [rewrite app_nil_r; reflexivity | reflexivity] ].

Lemma main_routes_silent now req : silent (Main.routes now req).
Proof. apply main_routes_cases; silent_tac. Qed.

Lemma heartbeatCheck_silent now : silent (Main.heartbeatCheck now).
Proof. silent_tac. Qed.

(** X5. While no window is attached, [main.cjs] sends nothing to a window,
    whatever the request and at every heartbeat check: all it emits is
    console output. *)
Theorem nothing_sent_without_window (now : Z) (req : request) (s : state) :
  mainWindow s = false ->
  forallb is_console (emitted (Main.server now req) s) = true
  /\ forallb is_console (emitted (Main.heartbeatCheck now) s) = true.
Proof.
  intros Hw. split.
  - destruct (main_server_split now req s)
      as [(_ & _ & -> & _) | (_ & r0 & _ & -> & _)]; [reflexivity|].
    destruct (main_routes_silent now req {| st := s; res := r0; out := [] |} Hw)
      as (l & Hl & Hc).
    cbn [out app] in Hl. rewrite Hl, forallb_app, Hc.
    destruct (fst _); reflexivity.
  - destruct (heartbeatCheck_silent now (start s) Hw) as (l & Hl & Hc).
    unfold emitted. rewrite Hl. exact Hc.
Qed.

Lemma nothing_sent_without_window_witness :
  forallb is_console
    (emitted (Main.server 1000 (POST "/ptt/press" Empty)) Main.initial) = true
  /\ forallb is_console (emitted (Main.server 1000 connect_x) Main.initial) = true.
Proof.
  split.
  - apply (nothing_sent_without_window 1000 (POST "/ptt/press" Empty) Main.initial eq_refl).
  - apply (nothing_sent_without_window 1000 connect_x Main.initial eq_refl).
Defined.

(** X6. With a window attached and the button not held, a press followed by
    a release brings the state back and sends exactly one "ptt:press" and
    then one "ptt:release" to the window; the library handler calls
    [onPTTPress] then [onPTTRelease]. *)
Theorem press_then_release (cb : HttpServer.callbacks) (s : state) (t1 t2 : Z)
    (o1 o2 : option string) (b1 b2 : body) :
  mainWindow s = true -> isPTTPressed s = false ->
  let s1 := state_after (Main.server t1 (press o1 b1)) s in
  let l1 := state_after (HttpServer.createRequestHandler cb t1 (press o1 b1)) s in
  isPTTPressed s1 = true
  /\ state_after (Main.server t2 (release o2 b2)) s1 = s
  /\ filter (fun e => negb (is_console e))
       (emitted (Main.server t1 (press o1 b1)) s
        ++ emitted (Main.server t2 (release o2 b2)) s1)
     = [Main.Send "ptt:press" []; Main.Send "ptt:release" []]
  /\ state_after (HttpServer.createRequestHandler cb t2 (release o2 b2)) l1 = s
  /\ (HttpServer.onPTTPress cb = true -> HttpServer.onPTTRelease cb = true ->
      (emitted (HttpServer.createRequestHandler cb t1 (press o1 b1)) s
       ++ emitted (HttpServer.createRequestHandler cb t2 (release o2 b2)) l1)%list
      = [HttpServer.OnPTTPress; HttpServer.OnPTTRelease]).
Proof.
  intros Hw Hp. destruct s as [mw ptt u lh]. simpl in Hw, Hp. subst mw ptt.
  unfold press, release. cbn zeta.
  conjs; try (intros Hc1 Hc2); run_handler; try reflexivity; congruence.
Qed.

Lemma press_then_release_witness :
  let s := run [Main.CreateWindow false] Main.initial in
  state_after (Main.server 2000 (release None Empty))
    (state_after (Main.server 1000 (press None Empty)) s) = s.
Proof.
  intros s.
  destruct (press_then_release all_callbacks s 1000 2000 None None Empty Empty
              eq_refl eq_refl) as (_ & H & _).
  exact H.
Defined.

Ltac timed_tac :=
  intros w; unfold timed; intros Hw; unfold_routes;
  destruct w as [[mw ptt u lh] r l]; crunch;
  first [ exact Hw | intros _; eexists; reflexivity | intros H; contradiction ].

Lemma main_routes_timed now req : preserves timed (Main.routes now req).
Proof. apply main_routes_cases; timed_tac. Qed.

Lemma react_timed e s : timed s -> timed (state_after (Main.react e) s).
Proof.
  intros Hs. destruct e as [now req|now|isDev|]; simpl.
  - destruct (main_server_split now req s)
      as [(_ & -> & _) | (_ & r0 & -> & _)]; [exact Hs|].
    apply (main_routes_timed now req {| st := s; res := r0; out := [] |}). exact Hs.
  - revert Hs. unfold state_after, timed, Main.heartbeatCheck, Main.disconnect.
    destruct s as [mw ptt u lh]. crunch; intros Hs H'; auto; contradiction.
  - revert Hs. unfold state_after, timed, Main.createWindow.
    destruct s as [mw ptt u lh]. crunch; auto.
  - exact Hs.
Qed.

(** X7. In every session state of [main.cjs] a URL is never recorded
    without the time of a last heartbeat, which is a positive clock
    reading: the heartbeat check can always time a connection out. *)
Theorem connection_has_heartbeat (s : state) :
  reachable s ->
  serverURL s <> VNull -> exists t, lastHeartbeat s = Some t /\ 0 < t.
Proof.
  intros Hs Hu.
  assert (Ht : timed s).
  { clear Hu. induction Hs as [|s e Hs IH Hc].
    - intros H. contradiction.
    - apply react_timed. exact IH. }
  destruct (Ht Hu) as [t Ht'].
  exists t. split; [exact Ht'|].
  destruct (reachable_inv s Hs) as [_ Hpos]. unfold time_ok in Hpos.
  rewrite Ht' in Hpos. exact Hpos.
Qed.

Lemma connection_has_heartbeat_witness :
  let s := run [Main.CreateWindow false; Main.Request 1000 connect_x;
                Main.Request 4000 (POST "/heartbeat" Empty)] Main.initial in
  exists t, lastHeartbeat s = Some t /\ 0 < t.
Proof.
  intros s. apply connection_has_heartbeat.
  - apply run_reachable; [constructor|]. repeat constructor.
  - discriminate.
Defined.

(** ** The frequency routes *)

Lemma withStrings_valid (xs : list value) :
  Forall valid_frequency xs ->
  exists ys, HttpServer.withStrings xs = Ok ys /\ Forall2 with_string xs ys.
Proof.
  induction 1 as [|x xs Hx _ IH].
  - exists []. split; [reflexivity | constructor].
  - destruct IH as (ys & Hys & Hall).
    apply isValidFrequency_true in Hx as (_ & _ & f & e & Hf & He & _).
    eexists. split.
    + unfold HttpServer.withStrings; fold HttpServer.withStrings.
      rewrite Hf. unfold HttpServer.frequencyToString.
      unfold ToString. rewrite He, Hys. reflexivity.
    + constructor; [|exact Hall]. exists f, (VNum e). auto.
Qed.

Lemma count_Forall2 (xs ys : list value) :
  Forall2 with_string xs ys -> HttpServer.count ys = HttpServer.count xs.
Proof.
  intros H. unfold HttpServer.count. rewrite (Forall2_length H). reflexivity.
Qed.

Ltac enter_route path o b :=
  let r0 := fresh "r0" in
  let r1 := fresh "r1" in
  let Hrun0 := fresh "Hrun0" in
  let Hrun1 := fresh "Hrun1" in
  match goal with
  | cb : HttpServer.callbacks, now : Z, s : state |- _ =>
      destruct (main_server_routes now (post path o b) s eq_refl) as [r0 Hrun0];
      destruct (lib_handler_routes cb now (post path o b) s eq_refl) as [r1 Hrun1];
      unfold response_of, state_after, emitted, ok_response, error_response,
        window_effects;
      rewrite ?Hrun0, ?Hrun1; clear Hrun0 Hrun1
  end.

(** X8. [POST /frequencies], when its body parses to a value other than
    [null]: if [frequencies] is not an array the answer is 400 "frequencies
    must be an array"; if it is an array with an element that is not a valid
    descriptor, 400 with the format message; if all its elements are valid
    (the empty array included), 200 with [count] the length of the array,
    and the list sent on has one element per descriptor, in order, with the
    frequency as text and the ear side unchanged. *)
Theorem frequencies_spec (cb : HttpServer.callbacks) (s : state) (now : Z)
    (o : option string) (b : body) (data fs : value) :
  HttpServer.parseJSONBody b = Ok data ->
  get data frequencies_ = Ok fs ->
  let main := Main.server now (post "/frequencies" o b) in
  let lib := HttpServer.createRequestHandler cb now (post "/frequencies" o b) in
  (Array_isArray fs = false ->
     error_response 400 "frequencies must be an array" (response_of main s)
     /\ error_response 400 "frequencies must be an array" (response_of lib s))
  /\
  (forall xs, fs = VArr xs -> ~ Forall valid_frequency xs ->
     error_response 400
       "Invalid frequency format. Expected: [{frequency: number, earSide: 0|1|2}]"
       (response_of main s)
     /\ error_response 400
          "Invalid frequency format. Expected: [{frequency: number, earSide: 0|1|2}]"
          (response_of lib s))
  /\
  (forall xs, fs = VArr xs -> Forall valid_frequency xs ->
     exists ys,
       Forall2 with_string xs ys
       /\ ok_response (VObj [HttpServer.success; ("count", HttpServer.count xs)])
            (response_of main s)
       /\ ok_response (VObj [HttpServer.success; ("count", HttpServer.count xs)])
            (response_of lib s)
       /\ window_effects (emitted main s)
          = (if mainWindow s then [Main.Send "frequencies:update" [VArr ys]] else [])
       /\ emitted lib s
          = (if HttpServer.onFrequenciesUpdate cb
             then [HttpServer.OnFrequenciesUpdate (VArr ys)] else [])).
Proof.
  intros Hb Hfs main lib. subst main lib.
  enter_route "/frequencies" o b.
  change (Main.routes now _) with (Main.frequencies b).
  change (HttpServer.routes cb now _) with (HttpServer.frequencies cb b).
  unfold Main.frequencies, HttpServer.frequencies. unfold_monad. rewrite Hb, Hfs.
  conjs.
  - intros ->. cbn. repeat split.
  - intros xs -> Hbad.
    change (HttpServer.isValidFrequenciesArray (VArr xs)) with (HttpServer.every xs).
    destruct (every_total xs) as [[] Hv].
    + exfalso. apply Hbad. apply every_true. exact Hv.
    + rewrite Hv. cbn. repeat split.
  - intros xs -> Hgood.
    change (HttpServer.isValidFrequenciesArray (VArr xs)) with (HttpServer.every xs).
    destruct (withStrings_valid xs Hgood) as (ys & Hys & Hall).
    apply every_true in Hgood. rewrite Hgood, Hys.
    exists ys. rewrite <- (count_Forall2 xs ys Hall).
    cbn. destruct (mainWindow s), (HttpServer.onFrequenciesUpdate cb); cbn.
    all: split; [exact Hall|]. all: repeat split.
Qed.

Lemma frequencies_spec_witness :
  let b := Json (VObj [("frequencies", two_frequencies)]) in
  ok_response (VObj [HttpServer.success; ("count", VNum (of_Z 2))])
    (response_of (Main.server 1000 (post "/frequencies" None b)) window_open)
  /\ error_response 400 "frequencies must be an array"
       (response_of (Main.server 1000
          (post "/frequencies" None (Json (VObj [("frequencies", VStr "x")]))))
          window_open).
Proof.
  intros b. split.
  - destruct (frequencies_spec all_callbacks window_open 1000 None b
                (VObj [("frequencies", two_frequencies)]) two_frequencies
                eq_refl eq_refl) as (_ & _ & H).
    destruct (H _ eq_refl) as (ys & _ & Hr & _); [|exact Hr].
    repeat constructor.
  - destruct (frequencies_spec all_callbacks window_open 1000 None
                (Json (VObj [("frequencies", VStr "x")]))
                (VObj [("frequencies", VStr "x")]) (VStr "x")
                eq_refl eq_refl) as (H & _).
    apply H. reflexivity.
Defined.

(** X9. [POST /ear-side], when its body parses to a value other than
    [null]: 400 "frequency and earSide must be numbers" unless both
    fields are numbers; 400 "earSide must be 0 (left), 1 (right), or 2
    (both)" when they are and [earSide] is none of 0, 1, 2; otherwise 200
    with the frequency as text and the ear side, the same pair going to the
    window (if any) on "ear-side:change" and to [onEarSideChange] (if
    given). *)
Theorem ear_side_spec (cb : HttpServer.callbacks) (s : state) (now : Z)
    (o : option string) (b : body) (data f side : value) :
  HttpServer.parseJSONBody b = Ok data ->
  get data frequency_ = Ok f ->
  get data earSide_ = Ok side ->
  let main := Main.server now (post "/ear-side" o b) in
  let lib := HttpServer.createRequestHandler cb now (post "/ear-side" o b) in
  ((typeof f <> "number" \/ typeof side <> "number") ->
     error_response 400 "frequency and earSide must be numbers" (response_of main s)
     /\ error_response 400 "frequency and earSide must be numbers" (response_of lib s))
  /\
  (forall n e, f = VNum n -> side = VNum e -> ~ ear_side_in_range e ->
     error_response 400 "earSide must be 0 (left), 1 (right), or 2 (both)"
       (response_of main s)
     /\ error_response 400 "earSide must be 0 (left), 1 (right), or 2 (both)"
          (response_of lib s))
  /\
  (forall n e, f = VNum n -> side = VNum e -> ear_side_in_range e ->
     let pair := [("frequency", VStr (Number_toString n)); ("earSide", VNum e)] in
     ok_response (VObj (HttpServer.success :: pair)) (response_of main s)
     /\ ok_response (VObj (HttpServer.success :: pair)) (response_of lib s)
     /\ window_effects (emitted main s)
        = (if mainWindow s then [Main.Send "ear-side:change" [VObj pair]] else [])
     /\ emitted lib s
        = (if HttpServer.onEarSideChange cb
           then [HttpServer.OnEarSideChange (VObj pair)] else [])).
Proof.
  intros Hb Hf Hside main lib. subst main lib.
  enter_route "/ear-side" o b.
  change (Main.routes now _) with (Main.ear_side b).
  change (HttpServer.routes cb now _) with (HttpServer.ear_side cb b).
  unfold Main.ear_side, HttpServer.ear_side. unfold_monad. rewrite Hb, Hf.
  conjs.
  - intros Hbad.
    destruct (typeof f =? "number")%string eqn:Tf; cbn; [|repeat split].
    rewrite Hside.
    destruct (typeof side =? "number")%string eqn:Ts; cbn; [|repeat split].
    apply String.eqb_eq in Tf, Ts. destruct Hbad; contradiction.
  - intros n e -> -> Hout. cbn -[includes]. rewrite Hside. cbn -[includes].
    destruct (includes _ (VNum e)) eqn:Hin; cbn; [|repeat split].
    exfalso. apply Hout. apply includes_ear_sides. exact Hin.
  - intros n e -> -> Hin. cbn -[includes]. rewrite Hside. cbn -[includes].
    apply includes_ear_sides in Hin. rewrite Hin. cbn.
    destruct (mainWindow s), (HttpServer.onEarSideChange cb); cbn; repeat split.
Qed.

Lemma ear_side_spec_witness :
  let b e := Json (VObj [("frequency", VNum (of_ratio 453 10)); ("earSide", VNum (of_Z e))]) in
  error_response 400 "earSide must be 0 (left), 1 (right), or 2 (both)"
    (response_of (Main.server 1000 (post "/ear-side" None (b 5))) window_open)
  /\ ok_response
       (VObj [HttpServer.success; ("frequency", VStr "45.3"); ("earSide", VNum (of_Z 1))])
       (response_of (Main.server 1000 (post "/ear-side" None (b 1))) window_open).
Proof.
  intros b. split.
  - destruct (ear_side_spec all_callbacks window_open 1000 None (b 5) _ _ _
                eq_refl eq_refl eq_refl) as (_ & H & _).
    apply (H _ _ eq_refl eq_refl).
    intros [H'|[H'|H']]; vm_compute in H'; discriminate H'.
  - destruct (ear_side_spec all_callbacks window_open 1000 None (b 1) _ _ _
                eq_refl eq_refl eq_refl) as (_ & _ & H).
    destruct (H _ _ eq_refl eq_refl) as (Hr & _).
    + right. left. vm_compute. reflexivity.
    + exact Hr.
Defined.

(** X10. [POST /active-channel] and [POST /frequency/disconnect], when the
    body parses to a value other than [null]: 400 "frequency must be a
    number" unless [frequency] is a number (a numeric string is refused);
    otherwise 200 with the number as text, which also goes to the window
    (if any) on "active-channel:change", respectively
    "frequency:disconnect", and to the callback (if given). *)
Theorem single_frequency_routes_spec (cb : HttpServer.callbacks) (s : state) (now : Z)
    (o : option string) (b : body) (data f : value) :
  HttpServer.parseJSONBody b = Ok data ->
  get data frequency_ = Ok f ->
  let active := Main.server now (post "/active-channel" o b) in
  let lib_active := HttpServer.createRequestHandler cb now (post "/active-channel" o b) in
  let leave := Main.server now (post "/frequency/disconnect" o b) in
  let lib_leave :=
    HttpServer.createRequestHandler cb now (post "/frequency/disconnect" o b) in
  (typeof f <> "number" ->
     error_response 400 "frequency must be a number" (response_of active s)
     /\ error_response 400 "frequency must be a number" (response_of lib_active s)
     /\ error_response 400 "frequency must be a number" (response_of leave s)
     /\ error_response 400 "frequency must be a number" (response_of lib_leave s))
  /\
  (forall n, f = VNum n ->
     let text := Number_toString n in
     let reply := VObj [HttpServer.success; ("frequency", VStr text)] in
     ok_response reply (response_of active s)
     /\ ok_response reply (response_of lib_active s)
     /\ ok_response reply (response_of leave s)
     /\ ok_response reply (response_of lib_leave s)
     /\ window_effects (emitted active s)
        = (if mainWindow s then [Main.Send "active-channel:change" [VStr text]] else [])
     /\ window_effects (emitted leave s)
        = (if mainWindow s then [Main.Send "frequency:disconnect" [VStr text]] else [])
     /\ emitted lib_active s
        = (if HttpServer.onActiveChannelChange cb
           then [HttpServer.OnActiveChannelChange text] else [])
     /\ emitted lib_leave s
        = (if HttpServer.onFrequencyDisconnect cb
           then [HttpServer.OnFrequencyDisconnect text] else [])).
Proof.
  intros Hb Hf active lib_active leave lib_leave.
  subst active lib_active leave lib_leave.
  destruct (main_server_routes now (post "/frequency/disconnect" o b) s eq_refl)
    as [r2 Hrun2].
  destruct (lib_handler_routes cb now (post "/frequency/disconnect" o b) s eq_refl)
    as [r3 Hrun3].
  enter_route "/active-channel" o b. rewrite Hrun2, Hrun3. clear Hrun2 Hrun3.
  change (Main.routes now (post "/active-channel" o b)) with (Main.active_channel b).
  change (HttpServer.routes cb now (post "/active-channel" o b))
    with (HttpServer.active_channel cb b).
  change (Main.routes now (post "/frequency/disconnect" o b))
    with (Main.frequency_disconnect b).
  change (HttpServer.routes cb now (post "/frequency/disconnect" o b))
    with (HttpServer.frequency_disconnect cb b).
  unfold Main.active_channel, HttpServer.active_channel, Main.frequency_disconnect,
    HttpServer.frequency_disconnect.
  unfold_monad. rewrite Hb, Hf.
  conjs.
  - intros Hbad. apply String.eqb_neq in Hbad. rewrite Hbad. cbn. repeat split.
  - intros n ->. cbn.
    destruct (mainWindow s), (HttpServer.onActiveChannelChange cb),
      (HttpServer.onFrequencyDisconnect cb); cbn; repeat split.
Qed.

Lemma single_frequency_routes_spec_witness :
  error_response 400 "frequency must be a number"
    (response_of
       (Main.server 1000
          (post "/active-channel" None (Json (VObj [("frequency", VStr "45.3")]))))
       window_open)
  /\ ok_response (VObj [HttpServer.success; ("frequency", VStr "100")])
       (response_of
          (Main.server 1000
             (post "/frequency/disconnect" None (Json (VObj [("frequency", VNum (of_Z 100))]))))
          window_open).
Proof.
  split.
  - destruct (single_frequency_routes_spec all_callbacks window_open 1000 None
                (Json (VObj [("frequency", VStr "45.3")])) _ _ eq_refl eq_refl)
      as (H & _).
    apply H. discriminate.
  - destruct (single_frequency_routes_spec all_callbacks window_open 1000 None
                (Json (VObj [("frequency", VNum (of_Z 100))])) _ _ eq_refl eq_refl)
      as (_ & H).
    destruct (H _ eq_refl) as (_ & _ & Hr & _). exact Hr.
Defined.

(** X11. The legacy [POST /frequency] checks only that [frequency] is
    there: [null], a string, a boolean or a list is accepted and forwarded
    as the text [String] gives it (200). It answers 400 "Missing frequency
    parameter" when the field is absent, and the generic 400 "Invalid
    JSON", with nothing sent on, when [String] throws on an object that
    has a [toString] entry of its own. *)
Theorem legacy_frequency_spec (cb : HttpServer.callbacks) (s : state) (now : Z)
    (o : option string) (b : body) (data f : value) :
  HttpServer.parseJSONBody b = Ok data ->
  get data frequency_ = Ok f ->
  let main := Main.server now (post "/frequency" o b) in
  let lib := HttpServer.createRequestHandler cb now (post "/frequency" o b) in
  (f = VUndefined ->
     error_response 400 "Missing frequency parameter" (response_of main s)
     /\ error_response 400 "Missing frequency parameter" (response_of lib s))
  /\
  (forall text, f <> VUndefined -> ToString f = Ok text ->
     ok_response (VObj [HttpServer.success; ("frequency", VStr text)]) (response_of main s)
     /\ ok_response (VObj [HttpServer.success; ("frequency", VStr text)])
          (response_of lib s)
     /\ window_effects (emitted main s)
        = (if mainWindow s then [Main.Send "frequency:change" [VStr text]] else [])
     /\ emitted lib s
        = (if HttpServer.onFrequencyChange cb
           then [HttpServer.OnFrequencyChange text] else []))
  /\
  (forall e, f <> VUndefined -> ToString f = Throw e ->
     error_response 400 "Invalid JSON" (response_of main s)
     /\ error_response 400 "Invalid JSON" (response_of lib s)
     /\ window_effects (emitted main s) = []
     /\ emitted lib s = [])
  /\ ToString VNull = Ok "null"
  /\ (forall str, ToString (VStr str) = Ok str)
  /\ (forall props v, own props "toString" = Some v -> ToString (VObj props) = Throw TypeError).
Proof.
  intros Hb Hf main lib. subst main lib.
  enter_route "/frequency" o b.
  change (Main.routes now _) with (Main.frequency b).
  change (HttpServer.routes cb now _) with (HttpServer.frequency cb b).
  unfold Main.frequency, HttpServer.frequency, HttpServer.frequencyToString.
  unfold_monad. rewrite Hb, Hf.
  conjs.
  - intros ->. cbn. repeat split.
  - intros text Hdef Htext.
    replace (is_undefined f) with false by (destruct f; try reflexivity; contradiction).
    rewrite Htext. cbn.
    destruct (mainWindow s), (HttpServer.onFrequencyChange cb); cbn; repeat split.
  - intros e Hdef He.
    replace (is_undefined f) with false by (destruct f; try reflexivity; contradiction).
    rewrite He. cbn. repeat split.
  - reflexivity.
  - reflexivity.
  - intros props v H. unfold ToString. rewrite H. reflexivity.
Qed.

Lemma legacy_frequency_spec_witness :
  ok_response (VObj [HttpServer.success; ("frequency", VStr "null")])
    (response_of
       (Main.server 1000 (post "/frequency" None (Json (VObj [("frequency", VNull)]))))
       window_open)
  /\ error_response 400 "Invalid JSON"
       (response_of
          (Main.server 1000
             (post "/frequency" None
                (Json (VObj [("frequency", VObj [("toString", VNum (of_Z 1))])]))))
          window_open).
Proof.
  split.
  - destruct (legacy_frequency_spec all_callbacks window_open 1000 None
                (Json (VObj [("frequency", VNull)])) _ _ eq_refl eq_refl)
      as (_ & H & _).
    destruct (H "null") as (Hr & _); [discriminate | reflexivity | exact Hr].
  - destruct (legacy_frequency_spec all_callbacks window_open 1000 None
                (Json (VObj [("frequency", VObj [("toString", VNum (of_Z 1))])]))
                _ _ eq_refl eq_refl)
      as (_ & _ & H & _).
    destruct (H TypeError) as (Hr & _); [discriminate | reflexivity | exact Hr].
Defined.

Lemma get_not_an_object (data : value) (p : property) :
  not_an_object data -> get data p = get (VObj []) p.
Proof. destruct data; intros H; try contradiction; reflexivity. Qed.

(** The response object once the CORS headers are set. *)
Lemma main_server_enter now req s :
  (method req =? "OPTIONS")%string = false ->
  Main.server now req (start s) =
  try_catch (Main.routes now req)
    (fun e =>
       emit (Main.Console [VStr "[HTTP] Error:"; VStr (Main.error_name e)]) ;;
       HttpServer.sendJSON 400 (HttpServer.failure "Invalid JSON"))
    {| st := s;
       res := res (snd (HttpServer.setCORSHeaders (E := Main.effect) (origin req) (start s)));
       out := [] |}.
Proof.
  intros H. unfold Main.server, bind at 1.
  destruct (setCORSHeaders_runs (E := Main.effect) (origin req) (start s)) as [r Hr].
  rewrite Hr, H. reflexivity.
Qed.

Lemma lib_handler_enter cb now req s :
  (method req =? "OPTIONS")%string = false ->
  HttpServer.createRequestHandler cb now req (start s) =
  try_catch (HttpServer.routes cb now req)
    (fun _ => HttpServer.sendJSON 400 (HttpServer.failure "Invalid JSON"))
    {| st := s;
       res := res (snd (HttpServer.setCORSHeaders (E := HttpServer.call) (origin req) (start s)));
       out := [] |}.
Proof.
  intros H. unfold HttpServer.createRequestHandler, bind at 1.
  destruct (setCORSHeaders_runs (E := HttpServer.call) (origin req) (start s)) as [r Hr].
  rewrite Hr, H. reflexivity.
Qed.

(** X12. A body that is well-formed JSON but not an object: on every route
    that reads its body, the body [null] is answered with the generic 400
    "Invalid JSON" (reading a field of [null] throws), and a boolean, a
    number, a string or a list is answered exactly as the empty body is,
    with the route's own 400 message. *)
Theorem non_object_bodies (cb : HttpServer.callbacks) (s : state) (now : Z)
    (o : option string) (path : string) :
  In path body_routes ->
  (error_response 400 "Invalid JSON"
     (response_of (Main.server now (post path o (Json VNull))) s)
   /\ error_response 400 "Invalid JSON"
        (response_of (HttpServer.createRequestHandler cb now (post path o (Json VNull))) s))
  /\
  (forall data, not_an_object data ->
     response_of (Main.server now (post path o (Json data))) s
     = response_of (Main.server now (post path o Empty)) s
     /\ response_of (HttpServer.createRequestHandler cb now (post path o (Json data))) s
        = response_of (HttpServer.createRequestHandler cb now (post path o Empty)) s
     /\ statusCode (response_of (Main.server now (post path o Empty)) s) = Some 400).
Proof.
  intros Hin. unfold response_of, error_response.
  assert (Hm : forall b, (method (post path o b) =? "OPTIONS")%string = false)
    by reflexivity.
  split; [|intros data Hd];
    rewrite !main_server_enter, !lib_handler_enter by apply Hm;
    cbn [origin post];
    generalize (res (snd (HttpServer.setCORSHeaders (E := Main.effect) o (start s))));
    generalize (res (snd (HttpServer.setCORSHeaders (E := HttpServer.call) o (start s))));
    intros r1 r0; unfold post;
    repeat (destruct Hin as [<-|Hin];
            [ unfold Main.routes, HttpServer.routes; unfold_routes; unfold_monad;
              cbn [method url payload String.eqb Ascii.eqb Bool.eqb andb
                   HttpServer.parseJSONBody];
              rewrite ?(get_not_an_object data) by exact Hd;
              cbn; repeat split | ]);
    contradiction.
Qed.

Lemma non_object_bodies_witness :
  error_response 400 "Invalid JSON"
    (response_of (Main.server 1000 (post "/connect" None (Json VNull))) Main.initial)
  /\ response_of (Main.server 1000 (post "/ear-side" None (Json (VArr [])))) Main.initial
     = response_of (Main.server 1000 (post "/ear-side" None Empty)) Main.initial.
Proof.
  split.
  - destruct (non_object_bodies all_callbacks Main.initial 1000 None "/connect")
      as ((H & _) & _); [simpl; tauto | exact H].
  - destruct (non_object_bodies all_callbacks Main.initial 1000 None "/ear-side")
      as (_ & H); [simpl; tauto |].
    destruct (H (VArr []) I) as (H' & _). exact H'.
Defined.

(** ** The two handlers side by side *)

Lemma routes_pair cb (R : M Main.effect unit -> M HttpServer.call unit -> Prop) now req :
  ((method req, url req) = ("POST", "/ptt/press") ->
   R Main.ptt_press (HttpServer.ptt_press cb)) ->
  ((method req, url req) = ("POST", "/ptt/release") ->
   R Main.ptt_release (HttpServer.ptt_release cb)) ->
  ((method req, url req) = ("GET", "/status") -> R Main.status HttpServer.status) ->
  ((method req, url req) = ("POST", "/connect") ->
   R (Main.connect now (payload req)) (HttpServer.connect cb now (payload req))) ->
  ((method req, url req) = ("POST", "/disconnect") ->
   R Main.manual_disconnect (HttpServer.disconnect cb)) ->
  ((method req, url req) = ("POST", "/heartbeat") ->
   R (Main.heartbeat now) (HttpServer.heartbeat now)) ->
  ((method req, url req) = ("POST", "/frequency") ->
   R (Main.frequency (payload req)) (HttpServer.frequency cb (payload req))) ->
  ((method req, url req) = ("POST", "/frequencies") ->
   R (Main.frequencies (payload req)) (HttpServer.frequencies cb (payload req))) ->
  ((method req, url req) = ("POST", "/active-channel") ->
   R (Main.active_channel (payload req)) (HttpServer.active_channel cb (payload req))) ->
  ((method req, url req) = ("POST", "/ear-side") ->
   R (Main.ear_side (payload req)) (HttpServer.ear_side cb (payload req))) ->
  ((method req, url req) = ("POST", "/frequency/disconnect") ->
   R (Main.frequency_disconnect (payload req))
     (HttpServer.frequency_disconnect cb (payload req))) ->
  (~ In (method req, url req) route_table -> R Main.not_found HttpServer.not_found) ->
  R (Main.routes now req) (HttpServer.routes cb now req).
Proof.
  intros. unfold Main.routes, HttpServer.routes. cbv zeta. select_route.
Qed.

Lemma servers_run cb now req s :
  exists r0,
    Main.server now req (start s)
    = (if (method req =? "OPTIONS")%string
       then (Ok tt, {| st := s;
                       res := HttpServer.end_ None (HttpServer.writeHead 200 [] r0);
                       out := [] |})
       else try_catch (Main.routes now req)
              (fun e =>
                 emit (Main.Console [VStr "[HTTP] Error:"; VStr (Main.error_name e)]) ;;
                 HttpServer.sendJSON 400 (HttpServer.failure "Invalid JSON"))
              {| st := s; res := r0; out := [] |})
    /\ HttpServer.createRequestHandler cb now req (start s)
       = (if (method req =? "OPTIONS")%string
          then (Ok tt, {| st := s;
                          res := HttpServer.end_ None (HttpServer.writeHead 200 [] r0);
                          out := [] |})
          else try_catch (HttpServer.routes cb now req)
                 (fun _ => HttpServer.sendJSON 400 (HttpServer.failure "Invalid JSON"))
                 {| st := s; res := r0; out := [] |}).
Proof.
  eexists. split.
  - unfold Main.server. unfold bind at 1.
    destruct (method req =? "OPTIONS")%string; reflexivity.
  - unfold HttpServer.createRequestHandler. unfold bind at 1.
    destruct (method req =? "OPTIONS")%string; reflexivity.
Qed.

(** X13. [main.cjs] and the library handler answer every request alike:
    the same status, headers and data, whatever the callbacks. They also
    leave the same session state, except on [POST /disconnect], where the
    library changes nothing and leaves the reset to its callback. *)
Theorem library_agrees_with_main (cb : HttpServer.callbacks) (now : Z) (req : request)
    (s : state) :
  response_of (Main.server now req) s
  = response_of (HttpServer.createRequestHandler cb now req) s
  /\ ((method req, url req) <> ("POST", "/disconnect") ->
      state_after (Main.server now req) s
      = state_after (HttpServer.createRequestHandler cb now req) s)
  /\ ((method req, url req) = ("POST", "/disconnect") ->
      state_after (HttpServer.createRequestHandler cb now req) s = s).
Proof.
  unfold response_of, state_after.
  destruct (servers_run cb now req s) as (r0 & -> & ->).
  destruct (method req =? "OPTIONS")%string eqn:Hm.
  { simpl. conjs; reflexivity. }
  destruct s as [mw ptt u lh].
  apply (routes_pair cb
    (fun c d =>
       res (snd (try_catch c _ _)) = res (snd (try_catch d _ _))
       /\ (_ -> st (snd (try_catch c _ _)) = st (snd (try_catch d _ _)))
       /\ (_ -> st (snd (try_catch d _ _)) = _)));
    intros Hroute; unfold_routes; destruct cb; crunch; conjs;
    try reflexivity; intros Hr; try reflexivity;
    first [ contradiction
          | rewrite Hroute in Hr; discriminate
          | exfalso; apply Hroute; rewrite Hr; simpl; tauto ].
Qed.

Lemma library_agrees_with_main_witness :
  state_after (Main.server 5 (POST "/connect" (Json (VObj [("url", VStr "x")]))))
    Main.initial
  = state_after (HttpServer.createRequestHandler all_callbacks 5
                   (POST "/connect" (Json (VObj [("url", VStr "x")])))) Main.initial.
Proof.
  apply (library_agrees_with_main all_callbacks 5
           (POST "/connect" (Json (VObj [("url", VStr "x")]))) Main.initial).
  discriminate.
Defined.

(** ** Whole runs of [main.cjs] *)

Ltac balanced_core :=
  unfold Main.heartbeatCheck, Main.createWindow, Main.closed; unfold_routes;
  unfold sends, held; crunch; try reflexivity;
  repeat match goal with
         | H : _ && _ = _ |- _ => first [apply andb_true_iff in H as [? ?]
                                        | apply andb_false_iff in H as [?|?]]
         | H : negb _ = _ |- _ => first [apply negb_true_iff in H
                                        | apply negb_false_iff in H]
         end;
  subst; cbn in *; try reflexivity; try discriminate.

Ltac balanced_tac := intros s r; destruct s as [mw ptt u lh]; balanced_core.

Lemma main_routes_balanced now req : balanced (Main.routes now req).
Proof. apply main_routes_cases; balanced_tac. Qed.

Lemma sends_app c (l l' : list Main.effect) :
  sends c (l ++ l') = (sends c l + sends c l')%nat.
Proof. unfold sends. rewrite filter_app, length_app. reflexivity. Qed.

Lemma react_balanced e s :
  (sends "ptt:press" (emitted (Main.react e) s) + held s
   = sends "ptt:release" (emitted (Main.react e) s)
     + held (state_after (Main.react e) s))%nat.
Proof.
  destruct e as [now req|now|isDev|]; simpl.
  - destruct (main_server_split now req s)
      as [(_ & -> & -> & _) | (_ & r0 & -> & -> & _)]; [reflexivity|].
    rewrite !sends_app.
    pose proof (main_routes_balanced now req s r0) as H. cbv zeta in H.
    destruct (fst (Main.routes now req _)); cbn; lia.
  - destruct s as [mw ptt u lh]. balanced_core.
  - destruct s as [mw ptt u lh]. balanced_core.
  - destruct s as [mw ptt u lh]. balanced_core.
Qed.

Lemma run_balanced es s :
  (sends "ptt:press" (effects es s) + held s
   = sends "ptt:release" (effects es s) + held (run es s))%nat.
Proof.
  revert s. induction es as [|e es IH]; intros s; simpl.
  - reflexivity.
  - rewrite !sends_app. pose proof (react_balanced e s). pose proof (IH (state_after (Main.react e) s)).
    lia.
Qed.

(** X14. Over any run of [main.cjs] from its initial state, the window has
    been sent one more [ptt:press] than [ptt:release] while the button is
    recorded as held, and as many of both otherwise. *)
Theorem ptt_sends_balance (es : list Main.event) :
  let l := effects es Main.initial in
  sends "ptt:press" l
  = (sends "ptt:release" l + held (run es Main.initial))%nat.
Proof.
  intros l. subst l. pose proof (run_balanced es Main.initial) as H.
  unfold held at 1 in H. simpl in H. lia.
Qed.

Ltac display_core :=
  unfold Main.heartbeatCheck, Main.createWindow, Main.closed; unfold_routes;
  unfold displays, shown, expected_page in *; crunch;
  repeat match goal with
         | H : ?a = true -> _ |- _ => specialize (H eq_refl)
         end;
  try assumption; try reflexivity; try discriminate;
  try (intros; congruence).

Ltac display_tac :=
  intros s r p Hp; destruct s as [mw ptt u lh]; display_core.

Lemma main_routes_keep_display now req : keeps_display (Main.routes now req).
Proof. apply main_routes_cases; display_tac. Qed.

Lemma shown_app p (l l' : list Main.effect) : shown p (l ++ l') = shown (shown p l) l'.
Proof. apply fold_left_app. Qed.

Lemma react_keeps_display e s p :
  packaged e -> displays p s ->
  displays (shown p (emitted (Main.react e) s)) (state_after (Main.react e) s).
Proof.
  intros He Hp. destruct e as [now req|now|isDev|]; simpl in *.
  - destruct (main_server_split now req s)
      as [(_ & -> & -> & _) | (_ & r0 & -> & -> & _)]; [exact Hp|].
    rewrite shown_app.
    pose proof (main_routes_keep_display now req s r0 p Hp) as H. cbv zeta in H.
    destruct (fst (Main.routes now req _)); exact H.
  - destruct s as [mw ptt u lh]. display_core.
  - subst isDev. destruct s as [mw ptt u lh]. display_core.
  - destruct s as [mw ptt u lh]. display_core.
Qed.

Lemma run_keeps_display es s p :
  Forall packaged es -> displays p s ->
  displays (shown p (effects es s)) (run es s).
Proof.
  intros Hes. revert s p. induction Hes as [|e es He Hes IH]; intros s p Hp; simpl.
  - exact Hp.
  - rewrite shown_app. apply IH. apply react_keeps_display; assumption.
Qed.

(** X15. In the packaged application, whenever a window is attached the
    page [main.cjs] loaded last into a window is the recorded URL if there
    is a connection and the waiting page if there is none: connecting,
    disconnecting, a heartbeat timeout and opening a window all keep the
    display in step with the session state. *)
Theorem window_shows_connection (es : list Main.event) :
  Forall packaged es ->
  let s := run es Main.initial in
  mainWindow s = true ->
  shown None (effects es Main.initial)
  = Some (if truthy (serverURL s) then Url (serverURL s) else File "waiting.html").
Proof.
  intros Hes s Hw.
  apply (run_keeps_display es Main.initial None Hes); [|exact Hw].
  intros H. discriminate H.
Qed.

Lemma window_shows_connection_witness :
  shown None (effects [Main.CreateWindow false; Main.Request 1000 connect_x;
                       Main.HeartbeatCheck 40000] Main.initial)
  = Some (File "waiting.html").
Proof.
  apply (window_shows_connection
           [Main.CreateWindow false; Main.Request 1000 connect_x;
            Main.HeartbeatCheck 40000]).
  - repeat constructor.
  - reflexivity.
Defined.

(** ** The inline entry point against [main.cjs] *)

Lemma isValid_agrees (x : value) :
  x <> VNull -> Monolith.isValid x = HttpServer.isValidFrequency x.
Proof.
  intros Hx. unfold Monolith.isValid, HttpServer.isValidFrequency.
  destruct x; try contradiction; try reflexivity;
    cbn [typeof String.eqb Ascii.eqb Bool.eqb andb is_null negb];
    repeat match goal with
           | |- context [match ?x with _ => _ end] =>
               lazymatch x with
               | context [match _ with _ => _ end] => fail
               | _ => destruct x eqn:?
               end
           end; try reflexivity; try congruence.
Qed.

Lemma every_agrees (xs : list value) :
  ~ In VNull xs -> Monolith.every xs = HttpServer.every xs.
Proof.
  induction xs as [|x xs IH]; intros Hn; [reflexivity|].
  cbn [Monolith.every HttpServer.every].
  rewrite isValid_agrees by (intros ->; apply Hn; left; reflexivity).
  rewrite IH by (intros H; apply Hn; right; exact H). reflexivity.
Qed.

Lemma withStrings_agrees (xs : list value) :
  Monolith.withStrings xs = HttpServer.withStrings xs.
Proof.
  induction xs as [|x xs IH]; [reflexivity|].
  unfold Monolith.withStrings; fold Monolith.withStrings.
  unfold HttpServer.withStrings; fold HttpServer.withStrings.
  unfold HttpServer.frequencyToString. rewrite IH. reflexivity.
Qed.

Lemma every_null (pre rest : list value) :
  Forall valid_frequency pre ->
  Monolith.every (pre ++ VNull :: rest) = Throw TypeError
  /\ HttpServer.every (pre ++ VNull :: rest) = Ok false.
Proof.
  induction 1 as [|x pre Hx Hpre IH]; [split; reflexivity|].
  assert (Hn : x <> VNull) by (intros ->; discriminate Hx).
  cbn [app Monolith.every HttpServer.every].
  rewrite (isValid_agrees x Hn). unfold valid_frequency in Hx. rewrite Hx. exact IH.
Qed.

Lemma monolith_routes_agree now req w :
  (payload req = Empty -> ~ In (url req) body_routes) ->
  (url req = "/frequencies" ->
   forall data xs, payload req = Json data -> get data frequencies_ = Ok (VArr xs) ->
                   ~ In VNull xs) ->
  Monolith.routes now req w = Main.routes now req w.
Proof.
  intros Hbody Hnull. unfold Monolith.routes, Main.routes. cbv zeta.
  repeat (match goal with |- context [if ?b then _ else _] => destruct b eqn:? end;
          [ match goal with
            | H : _ && _ = true |- _ =>
                apply andb_true_iff in H as [H _]; apply String.eqb_eq in H
            end | ]);
    try reflexivity;
    match goal with
    | H : url req = _ |- _ =>
        assert (Hb : payload req <> Empty)
          by (intros Hb; apply (Hbody Hb); rewrite H; simpl; tauto)
    end;
    destruct (payload req) as [|data| |] eqn:Hp; try contradiction; try reflexivity.
  unfold Monolith.frequencies, Main.frequencies, HttpServer.isValidFrequenciesArray.
  unfold_monad. cbn [Monolith.parseJSONBody HttpServer.parseJSONBody].
  destruct (get data frequencies_) as [fs|e] eqn:Hfs; [|reflexivity].
  destruct fs as [ | | b | n | str | xs | fields]; try reflexivity.
  cbn [Array_isArray negb].
  rewrite withStrings_agrees, (every_agrees xs); [reflexivity|].
  apply (Hnull ltac:(assumption) data xs eq_refl Hfs).
Qed.

Lemma bind_ext {E A B} (c : M E A) (k k' : A -> M E B) (w : world E) :
  (forall a w', k a w' = k' a w') -> bind c k w = bind c k' w.
Proof. intros H. unfold bind. destruct (c w) as [[a|e] w']; [apply H|reflexivity]. Qed.

Lemma monolith_server_run now req w :
  Monolith.server now req w
  = (HttpServer.setCORSHeaders (origin req) ;;
     if (method req =? "OPTIONS")%string then
       respond (HttpServer.writeHead 200 []) ;;
       respond (HttpServer.end_ None)
     else
       try_catch (Monolith.routes now req)
         (fun e =>
            emit (Main.Console [VStr "[HTTP] Error:"; VStr (Main.error_name e)]) ;;
            HttpServer.sendJSON 400 (HttpServer.failure "Invalid JSON"))) w.
Proof.
  unfold Monolith.server, HttpServer.setCORSHeaders.
  destruct (origin req) as [o|]; [|reflexivity].
  destruct (negb (o =? "")%string
            && (String_includes o "localhost" || String_includes o "127.0.0.1"));
    reflexivity.
Qed.

(** X16. The inline copy of the entry point and [main.cjs] do the same on
    every request, to the answer, the session state and the effects,
    provided the request does not come without a body to a route that reads
    it, and, on [/frequencies], that the list holds no [null]. *)
Theorem monolith_agrees_with_main (now : Z) (req : request) (s : state) :
  (payload req = Empty -> ~ In (url req) body_routes) ->
  (url req = "/frequencies" ->
   forall data xs, payload req = Json data -> get data frequencies_ = Ok (VArr xs) ->
                   ~ In VNull xs) ->
  Monolith.server now req (start s) = Main.server now req (start s).
Proof.
  intros Hbody Hnull. rewrite monolith_server_run.
  unfold Main.server. apply bind_ext. intros _ w.
  destruct (method req =? "OPTIONS")%string; [reflexivity|].
  unfold try_catch. rewrite monolith_routes_agree by assumption. reflexivity.
Qed.

Lemma monolith_agrees_with_main_witness :
  Monolith.server 1000
    (POST "/frequencies" (Json (VObj [("frequencies", two_frequencies)])))
    (start window_open)
  = Main.server 1000
      (POST "/frequencies" (Json (VObj [("frequencies", two_frequencies)])))
      (start window_open).
Proof.
  apply monolith_agrees_with_main.
  - discriminate.
  - intros _ data xs Hd Hxs. injection Hd as <-. injection Hxs as <-.
    simpl. intros [H|[H|[]]]; discriminate H.
Defined.

(** X17. Where the inline copy differs from [main.cjs]: a request without
    a body to a route that reads it is answered 400 "Invalid JSON", since
    [JSON.parse] rejects the empty text, and so is a list of frequencies
    whose first entry that is not a valid descriptor is [null], whose
    properties the inline validation reads; [main.cjs] answers that list
    with the 400 of the frequency format. Neither changes the state. *)
Theorem monolith_differences (now : Z) (o : option string) (s : state) :
  (forall path, In path body_routes ->
     let c := Monolith.server now (post path o Empty) in
     error_response 400 "Invalid JSON" (response_of c s)
     /\ state_after c s = s
     /\ emitted c s = [Main.Console [VStr "[HTTP] Error:"; VStr "SyntaxError"]])
  /\ (forall data pre rest,
        get data frequencies_ = Ok (VArr (pre ++ VNull :: rest)) ->
        Forall valid_frequency pre ->
        let c := Monolith.server now (post "/frequencies" o (Json data)) in
        let d := Main.server now (post "/frequencies" o (Json data)) in
        error_response 400 "Invalid JSON" (response_of c s)
        /\ state_after c s = s
        /\ emitted c s = [Main.Console [VStr "[HTTP] Error:"; VStr "TypeError"]]
        /\ error_response 400
             "Invalid frequency format. Expected: [{frequency: number, earSide: 0|1|2}]"
             (response_of d s)
        /\ state_after d s = s).
Proof.
  split.
  - intros path Hin c. subst c. unfold response_of, state_after, emitted.
    rewrite monolith_server_run. unfold post, error_response.
    repeat (destruct Hin as [<-|Hin];
            [ unfold Monolith.routes, Monolith.connect, Monolith.frequency,
                Monolith.frequencies, Monolith.active_channel, Monolith.ear_side,
                Monolith.frequency_disconnect; crunch; repeat split | ]).
    contradiction.
  - intros data pre rest Hfs Hpre c d. subst c d.
    destruct (every_null pre rest Hpre) as [Hm Hl].
    unfold response_of, state_after, emitted.
    rewrite monolith_server_run. unfold post, error_response.
    unfold Main.server, Monolith.routes, Main.routes, Monolith.frequencies,
      Main.frequencies, HttpServer.isValidFrequenciesArray.
    unfold_monad.
    cbn [method url payload origin String.eqb Ascii.eqb Bool.eqb andb
         Monolith.parseJSONBody HttpServer.parseJSONBody].
    rewrite Hfs. cbn [Array_isArray negb]. rewrite Hm, Hl. cbn.
    repeat split.
Qed.

Lemma monolith_differences_witness :
  error_response 400 "Invalid JSON"
    (response_of (Monolith.server 1000 (post "/connect" None Empty)) window_open)
  /\ error_response 400 "Invalid JSON"
       (response_of
          (Monolith.server 1000
             (post "/frequencies" None
                (Json (VObj [("frequencies", VArr [VNull; VNum (of_Z 1)])]))))
          window_open).
Proof.
  destruct (monolith_differences 1000 None window_open) as [H1 H2].
  split.
  - apply (H1 "/connect"). simpl. tauto.
  - apply (H2 (VObj [("frequencies", VArr [VNull; VNum (of_Z 1)])]) [] [VNum (of_Z 1)]).
    + reflexivity.
    + constructor.
Defined.

(** ** Looking for a free port *)

Lemma findFreePort_search (listen : Z -> Ports.attempt) (n : nat) :
  forall startPort,
    0 <= startPort -> Z.to_nat (65536 - startPort) = n ->
    exists r,
      settles listen startPort r
      /\ match r with
         | Ports.Resolved port => exists p, first_free listen startPort p port
         | Ports.Rejected =>
             forall q, startPort <= q <= 65535 -> listen q = Ports.Failed
         end.
Proof.
  induction n as [|n IH]; intros startPort Hlo Hn.
  - exists Ports.Rejected. split.
    + intros fuel Hf. destruct fuel as [|fuel]; [lia|]. simpl.
      replace (65535 <? startPort) with true by (symmetry; apply Z.ltb_lt; lia).
      rewrite orb_true_r. reflexivity.
    + intros q Hq. lia.
  - assert (Hr : (startPort <? 0) || (65535 <? startPort) = false).
    { apply orb_false_iff. split; apply Z.ltb_ge; lia. }
    destruct (listen startPort) as [port|] eqn:Hl.
    + exists (Ports.Resolved port). split.
      * intros fuel Hf. destruct fuel as [|fuel]; [lia|]. simpl.
        rewrite Hr, Hl. reflexivity.
      * exists startPort. repeat split; try lia. exact Hl.
    + destruct (IH (startPort + 1)) as (r & Hs & Hr'); [lia|lia|].
      exists r. split.
      * intros fuel Hf. destruct fuel as [|fuel]; [lia|]. simpl.
        rewrite Hr, Hl. apply Hs. lia.
      * destruct r as [port|].
        -- destruct Hr' as (p & Hp & Hlp & Hq). exists p. repeat split; try lia.
           ++ exact Hlp.
           ++ intros q Hq'. destruct (Z.eq_dec q startPort) as [->|Hne]; [exact Hl|].
              apply Hq. lia.
        -- intros q Hq. destruct (Z.eq_dec q startPort) as [->|Hne]; [exact Hl|].
           apply Hr'. lia.
Qed.

(** X18. [findFreePort] always settles, after at most one attempt per port
    up to 65535: it resolves to what the server reports on the first port,
    from [startPort] upwards, on which [listen] succeeds, having failed on
    every port before it; when [listen] fails on every port up to 65535
    the promise is rejected, as it is at once for a start port above
    65535. *)
Theorem findFreePort_spec (listen : Z -> Ports.attempt) (startPort : Z) :
  0 <= startPort ->
  (exists r,
     settles listen startPort r
     /\ match r with
        | Ports.Resolved port => exists p, first_free listen startPort p port
        | Ports.Rejected =>
            forall q, startPort <= q <= 65535 -> listen q = Ports.Failed
        end)
  /\ (65535 < startPort ->
      forall fuel, Ports.findFreePort listen (S fuel) startPort = Some Ports.Rejected).
Proof.
  intros Hlo. split.
  - apply (findFreePort_search listen (Z.to_nat (65536 - startPort))); [exact Hlo|reflexivity].
  - intros Hhi fuel. simpl.
    replace (65535 <? startPort) with true by (symmetry; apply Z.ltb_lt; lia).
    rewrite orb_true_r. reflexivity.
Qed.

Lemma findFreePort_spec_witness :
  exists r,
    settles two_ports_taken Ports.DEFAULT_START_PORT r
    /\ match r with
       | Ports.Resolved port =>
           exists p, first_free two_ports_taken Ports.DEFAULT_START_PORT p port
       | Ports.Rejected =>
           forall q, Ports.DEFAULT_START_PORT <= q <= 65535 ->
                     two_ports_taken q = Ports.Failed
       end.
Proof.
  apply (findFreePort_spec two_ports_taken Ports.DEFAULT_START_PORT).
  unfold Ports.DEFAULT_START_PORT. lia.
Defined.

Example findFreePort_skips_taken_ports :
  Ports.findFreePort two_ports_taken 5 Ports.DEFAULT_START_PORT
  = Some (Ports.Resolved 19802).
Proof. reflexivity. Qed.

(** ** The [.env] file *)

Section EnvFile.
Local Open Scope list_scope.

Ltac reassoc := repeat first [rewrite <- app_assoc | progress simpl]; reflexivity.

Lemma jsstring_eqb_spec (a b : Config.jsstring) :
  Config.jsstring_eqb a b = true <-> a = b.
Proof.
  unfold Config.jsstring_eqb.
  destruct (list_eq_dec N.eq_dec a b); split; congruence.
Qed.

Lemma jsstring_eqb_neq (a b : Config.jsstring) :
  a <> b -> Config.jsstring_eqb a b = false.
Proof.
  intros H. destruct (Config.jsstring_eqb a b) eqn:E; [|reflexivity].
  apply jsstring_eqb_spec in E. contradiction.
Qed.

Lemma trimStart_blank (ws s : Config.jsstring) :
  blank ws -> Config.trimStart (ws ++ s) = Config.trimStart s.
Proof. induction 1 as [|c ws Hc _ IH]; [reflexivity|]. simpl. rewrite Hc. exact IH. Qed.

Lemma trimStart_split (s : Config.jsstring) :
  exists ws, blank ws /\ s = (ws ++ Config.trimStart s)%list.
Proof.
  induction s as [|c s (ws & Hws & IH)].
  - exists []. split; [constructor|reflexivity].
  - simpl. destruct (Config.isWhiteSpace c) eqn:Hc.
    + exists (c :: ws). split; [constructor; assumption|]. simpl. f_equal. exact IH.
    + exists []. split; [constructor|reflexivity].
Qed.

Lemma trimStart_head (s : Config.jsstring) :
  match Config.trimStart s with
  | [] => True
  | c :: _ => Config.isWhiteSpace c = false
  end.
Proof.
  induction s as [|a s IH]; simpl; [exact I|].
  destruct (Config.isWhiteSpace a) eqn:H; [exact IH|exact H].
Qed.

Lemma trimStart_tight (c : N) (s : Config.jsstring) :
  Config.isWhiteSpace c = false -> Config.trimStart (c :: s) = c :: s.
Proof. intros H. simpl. rewrite H. reflexivity. Qed.

Lemma trimEnd_blank (s ws : Config.jsstring) :
  blank ws -> Config.trimEnd (s ++ ws) = Config.trimEnd s.
Proof.
  intros H. unfold Config.trimEnd. rewrite rev_app_distr, trimStart_blank; [reflexivity|].
  apply Forall_rev. exact H.
Qed.

Lemma trimEnd_last (s : Config.jsstring) (c : N) :
  Config.isWhiteSpace c = false -> Config.trimEnd (s ++ [c]) = (s ++ [c])%list.
Proof.
  intros H. unfold Config.trimEnd. rewrite rev_app_distr. simpl. rewrite H. simpl.
  rewrite rev_involutive. reflexivity.
Qed.

Lemma trimEnd_split (s : Config.jsstring) :
  exists ws, blank ws /\ s = (Config.trimEnd s ++ ws)%list.
Proof.
  destruct (trimStart_split (rev s)) as (ws & Hws & H).
  exists (rev ws). split; [apply Forall_rev; exact Hws|].
  unfold Config.trimEnd. rewrite <- rev_app_distr, <- H, rev_involutive. reflexivity.
Qed.

Lemma trimEnd_last_char (s : Config.jsstring) (c : N) (pre : Config.jsstring) :
  Config.trimEnd s = (pre ++ [c])%list -> Config.isWhiteSpace c = false.
Proof.
  intros H. unfold Config.trimEnd in H. apply (f_equal (@rev N)) in H.
  rewrite rev_involutive, rev_app_distr in H. simpl in H.
  pose proof (trimStart_head (rev s)) as Hh. rewrite H in Hh. exact Hh.
Qed.

Lemma trim_split (s : Config.jsstring) :
  exists ws ws', blank ws /\ blank ws' /\ s = (ws ++ Config.trim s ++ ws')%list.
Proof.
  destruct (trimStart_split s) as (ws & Hws & H).
  destruct (trimEnd_split (Config.trimStart s)) as (ws' & Hws' & H').
  exists ws, ws'. split; [exact Hws|]. split; [exact Hws'|].
  unfold Config.trim. rewrite <- H'. exact H.
Qed.

Lemma trim_tight (s : Config.jsstring) : tight (Config.trim s).
Proof.
  split.
  - intros c rest H. unfold Config.trim in H.
    destruct (trimEnd_split (Config.trimStart s)) as (ws & _ & Hs). rewrite H in Hs.
    pose proof (trimStart_head s) as Hh. rewrite Hs in Hh. exact Hh.
  - intros c pre H. apply (trimEnd_last_char _ c pre H).
Qed.

Lemma tight_trim (s : Config.jsstring) : tight s -> Config.trim s = s.
Proof.
  intros [Hh Hl]. destruct s as [|c rest]; [reflexivity|]. unfold Config.trim.
  rewrite trimStart_tight by (eapply Hh; reflexivity).
  destruct (@exists_last N (c :: rest)) as (pre & d & Hd); [discriminate|].
  rewrite Hd. apply trimEnd_last. eapply Hl. exact Hd.
Qed.

Lemma trim_padded (ws1 body ws2 : Config.jsstring) :
  blank ws1 -> blank ws2 -> tight body ->
  Config.trim (ws1 ++ body ++ ws2) = body.
Proof.
  intros H1 H2 Hb. unfold Config.trim. rewrite trimStart_blank by exact H1.
  destruct body as [|c rest].
  - simpl. rewrite <- (app_nil_r ws2). rewrite trimStart_blank by exact H2. reflexivity.
  - pose proof (tight_trim _ Hb) as Ht. unfold Config.trim in Ht.
    assert (Hc : Config.isWhiteSpace c = false) by (eapply (proj1 Hb); reflexivity).
    rewrite trimStart_tight in Ht by exact Hc.
    change ((c :: rest) ++ ws2)%list with (c :: (rest ++ ws2))%list.
    rewrite trimStart_tight by exact Hc.
    change (c :: (rest ++ ws2))%list with ((c :: rest) ++ ws2)%list.
    rewrite trimEnd_blank by exact H2. exact Ht.
Qed.

Lemma trim_nonempty (c : N) (rest : Config.jsstring) :
  Config.isWhiteSpace c = false -> Config.trim (c :: rest) <> [].
Proof.
  intros Hc H. destruct (trim_split (c :: rest)) as (ws & ws' & Hws & Hws' & Hs).
  rewrite H in Hs. simpl in Hs. rewrite app_nil_l in Hs || idtac.
  assert (Hb : blank (c :: rest)).
  { rewrite Hs. apply Forall_app. split; assumption. }
  inversion Hb as [|? ? Hc' _]. rewrite Hc in Hc'. discriminate.
Qed.

Lemma trim_head (c : N) (rest : Config.jsstring) :
  Config.isWhiteSpace c = false ->
  exists rest', Config.trim (c :: rest) = c :: rest'.
Proof.
  intros Hc. pose proof (trim_nonempty c rest Hc) as Hne.
  unfold Config.trim in *. rewrite trimStart_tight in * by exact Hc.
  destruct (trimEnd_split (c :: rest)) as (ws & _ & Hs).
  destruct (Config.trimEnd (c :: rest)) as [|d rest']; [contradiction|].
  injection Hs as -> _. exists rest'. reflexivity.
Qed.

Lemma trim_incl (c : N) (s : Config.jsstring) : In c (Config.trim s) -> In c s.
Proof.
  intros H. destruct (trim_split s) as (ws & ws' & _ & _ & Hs). rewrite Hs.
  apply in_or_app. right. apply in_or_app. left. exact H.
Qed.

Lemma indexOf_equal_app (a b : Config.jsstring) :
  ~ In 61%N a -> Config.indexOf_equal (a ++ 61%N :: b) = Z.of_nat (List.length a).
Proof.
  induction a as [|c a IH]; intros H; [reflexivity|].
  cbn [app Config.indexOf_equal].
  destruct (c =? 61)%N eqn:E.
  - apply N.eqb_eq in E. exfalso. apply H. left. exact E.
  - rewrite IH by (intros H'; apply H; right; exact H').
    destruct (Z.of_nat (List.length a) <? 0) eqn:E'; [apply Z.ltb_lt in E'; lia|].
    cbn [List.length]. lia.
Qed.

Lemma indexOf_equal_none (s : Config.jsstring) :
  ~ In 61%N s -> Config.indexOf_equal s = -1.
Proof.
  induction s as [|c s IH]; intros H; [reflexivity|]. cbn [Config.indexOf_equal].
  destruct (c =? 61)%N eqn:E.
  - apply N.eqb_eq in E. exfalso. apply H. left. exact E.
  - rewrite IH by (intros H'; apply H; right; exact H'). reflexivity.
Qed.

Lemma first_equal (s : Config.jsstring) :
  In 61%N s -> exists a b, s = (a ++ 61%N :: b)%list /\ ~ In 61%N a.
Proof.
  induction s as [|c s IH]; intros H; [contradiction|].
  destruct (N.eq_dec c 61) as [->|Hc].
  - exists [], s. split; [reflexivity|intros []].
  - destruct H as [H|H]; [contradiction|].
    destruct (IH H) as (a & b & -> & Ha). exists (c :: a), b.
    split; [reflexivity|]. intros [H'|H']; [apply Hc; exact H'|apply Ha; exact H'].
Qed.

Lemma split_unique (a b a' b' : Config.jsstring) :
  (a ++ 61%N :: b = a' ++ 61%N :: b')%list -> ~ In 61%N a -> ~ In 61%N a' ->
  a = a' /\ b = b'.
Proof.
  revert a'. induction a as [|c a IH]; intros a' H Ha Ha'; destruct a' as [|c' a'];
    simpl in H.
  - injection H as <-. split; reflexivity.
  - injection H as Hc _. exfalso. apply Ha'. left. symmetry. exact Hc.
  - injection H as Hc _. exfalso. apply Ha. left. exact Hc.
  - injection H as -> H.
    destruct (IH a' H) as [-> ->];
      [intros H'; apply Ha; right; exact H'|intros H'; apply Ha'; right; exact H'|].
    split; reflexivity.
Qed.

Lemma substring_split (a b : Config.jsstring) :
  Config.substring_to (a ++ 61%N :: b) (Z.of_nat (List.length a)) = a
  /\ Config.substring_from (a ++ 61%N :: b) (Z.of_nat (List.length a) + 1) = b.
Proof.
  unfold Config.substring_to, Config.substring_from. split.
  - rewrite Nat2Z.id, firstn_app, Nat.sub_diag, firstn_all. simpl. apply app_nil_r.
  - replace (Z.to_nat (Z.of_nat (List.length a) + 1)) with (S (List.length a)) by lia.
    rewrite skipn_app, skipn_all2 by lia.
    replace (S (List.length a) - List.length a)%nat with 1%nat by lia. reflexivity.
Qed.

Lemma startsWith_hash_app (a b : Config.jsstring) :
  a <> [] -> Config.startsWith_hash (a ++ b) = Config.startsWith_hash a.
Proof. destruct a; [contradiction|reflexivity]. Qed.

Lemma defines_functional (l k v k' v' : Config.jsstring) :
  defines l k v -> defines l k' v' -> k = k' /\ v = v'.
Proof.
  intros (a & b & Hl & Ha & _ & _ & -> & -> & _) (a' & b' & Hl' & Ha' & _ & _ & -> & -> & _).
  rewrite Hl in Hl'. destruct (split_unique a b a' b' Hl' Ha Ha') as [-> ->].
  split; reflexivity.
Qed.

Lemma line_defines (e : Config.env) (l k v : Config.jsstring) :
  defines l k v ->
  Config.line e l = fun k' => if Config.jsstring_eqb k' k then Some v else e k'.
Proof.
  intros (a & b & Hl & Ha & Hne & Hh & -> & -> & Hv & Hk).
  unfold Config.line. cbv zeta. rewrite Hl.
  rewrite startsWith_hash_app, Hh by exact Hne.
  rewrite indexOf_equal_app by exact Ha.
  destruct (substring_split a b) as [-> ->].
  assert (Ht : Config.truthy (a ++ 61%N :: b) = true) by (destruct a; reflexivity).
  rewrite Ht.
  assert (Hpos : (0 <? Z.of_nat (List.length a)) = true).
  { apply Z.ltb_lt. destruct a; [contradiction|]. cbn [List.length]. lia. }
  rewrite Hpos. cbn [negb orb].
  assert (Hka : Config.truthy (Config.trim a) = true).
  { destruct a as [|c a']; [contradiction|].
    destruct (trim_tight l) as [Hhead _]. rewrite Hl in Hhead.
    specialize (Hhead c (a' ++ 61%N :: b)%list eq_refl).
    pose proof (trim_nonempty c a' Hhead) as Hn.
    destruct (Config.trim (c :: a')); [contradiction|reflexivity]. }
  assert (Hvb : Config.truthy (Config.trim b) = true)
    by (destruct (Config.trim b); [contradiction|reflexivity]).
  rewrite Hka, Hvb. cbn [andb]. unfold Config.assign.
  rewrite (jsstring_eqb_neq _ _ Hk). reflexivity.
Qed.

Lemma indexOf_equal_found (s : Config.jsstring) :
  0 <= Config.indexOf_equal s ->
  exists a b, s = (a ++ 61%N :: b)%list /\ ~ In 61%N a.
Proof.
  intros H. destruct (in_dec N.eq_dec 61%N s) as [Hin|Hnot].
  - apply first_equal. exact Hin.
  - rewrite indexOf_equal_none in H by exact Hnot. lia.
Qed.

Lemma line_not_defines (e : Config.env) (l : Config.jsstring) :
  (forall k v, ~ defines l k v) -> Config.line e l = e.
Proof.
  intros H. unfold Config.line. cbv zeta.
  destruct (negb (Config.truthy (Config.trim l)) || Config.startsWith_hash (Config.trim l))
    eqn:E1; [reflexivity|].
  destruct (0 <? Config.indexOf_equal (Config.trim l)) eqn:E2; [|reflexivity].
  apply Z.ltb_lt in E2.
  destruct (indexOf_equal_found (Config.trim l)) as (a & b & Hl & Ha); [lia|].
  rewrite Hl in E2 |- *. rewrite indexOf_equal_app in E2 |- * by exact Ha.
  destruct (substring_split a b) as [-> ->].
  destruct (Config.truthy (Config.trim a) && Config.truthy (Config.trim b)) eqn:E3;
    [|reflexivity].
  unfold Config.assign.
  destruct (Config.jsstring_eqb (Config.trim a) (Config.str "__proto__")) eqn:E4;
    [reflexivity|].
  exfalso. apply (H (Config.trim a) (Config.trim b)).
  assert (Hne : a <> []) by (intros ->; simpl in E2; lia).
  apply orb_false_iff in E1 as [_ E1]. rewrite Hl, startsWith_hash_app in E1 by exact Hne.
  apply andb_true_iff in E3 as [_ E3].
  exists a, b. repeat split; try assumption; try reflexivity.
  - intros Hv. rewrite Hv in E3. discriminate.
  - intros Hk. apply jsstring_eqb_spec in Hk. rewrite Hk in E4. discriminate.
Qed.

Lemma line_cases (l : Config.jsstring) :
  (exists k v, defines l k v) \/ (forall k v, ~ defines l k v).
Proof.
  destruct (in_dec N.eq_dec 61%N (Config.trim l)) as [Hin|Hnot].
  2:{ right. intros k v (a & b & Hl & _). apply Hnot. rewrite Hl.
      apply in_or_app. right. left. reflexivity. }
  destruct (first_equal _ Hin) as (a & b & Hl & Ha).
  assert (Huniq : forall a' b', Config.trim l = (a' ++ 61%N :: b')%list ->
                                ~ In 61%N a' -> a' = a /\ b' = b).
  { intros a' b' Hl' Ha'. rewrite Hl in Hl'.
    destruct (split_unique a b a' b' Hl' Ha Ha') as [-> ->]. split; reflexivity. }
  destruct a as [|c a'].
  { right. intros k v (a' & b' & Hl' & Ha' & Hne & _).
    destruct (Huniq a' b' Hl' Ha') as [-> _]. contradiction. }
  destruct (Config.startsWith_hash (c :: a')) eqn:Hh.
  { right. intros k v (a0 & b0 & Hl' & Ha' & _ & Hh' & _).
    destruct (Huniq a0 b0 Hl' Ha') as [-> _]. rewrite Hh in Hh'. discriminate. }
  destruct (list_eq_dec N.eq_dec (Config.trim b) []) as [Hv|Hv].
  { right. intros k v (a0 & b0 & Hl' & Ha' & _ & _ & _ & -> & Hv' & _).
    destruct (Huniq a0 b0 Hl' Ha') as [_ ->]. contradiction. }
  destruct (list_eq_dec N.eq_dec (Config.trim (c :: a')) (Config.str "__proto__"))
    as [Hk|Hk].
  { right. intros k v (a0 & b0 & Hl' & Ha' & _ & _ & -> & _ & _ & Hk').
    destruct (Huniq a0 b0 Hl' Ha') as [-> _]. contradiction. }
  left. exists (Config.trim (c :: a')), (Config.trim b), (c :: a'), b.
  repeat split; try assumption; try reflexivity. discriminate.
Qed.

Lemma line_lookup (e : Config.env) (l k v : Config.jsstring) :
  Config.line e l k = Some v
  <-> defines l k v \/ ((forall v', ~ defines l k v') /\ e k = Some v).
Proof.
  destruct (line_cases l) as [(k0 & v0 & Hd)|Hn].
  - rewrite (line_defines e l k0 v0 Hd).
    destruct (Config.jsstring_eqb k k0) eqn:E.
    + apply jsstring_eqb_spec in E. subst k0. split.
      * intros H. injection H as <-. left. exact Hd.
      * intros [H|[H _]].
        -- destruct (defines_functional _ _ _ _ _ Hd H) as [_ ->]. reflexivity.
        -- exfalso. apply (H v0). exact Hd.
    + assert (Hk : k <> k0).
      { intros ->. rewrite (proj2 (jsstring_eqb_spec k0 k0) eq_refl) in E. discriminate. }
      split.
      * intros H. right. split; [|exact H].
        intros v' H'. destruct (defines_functional _ _ _ _ _ Hd H') as [Heq _].
        apply Hk. symmetry. exact Heq.
      * intros [H|[_ H]]; [|exact H].
        destruct (defines_functional _ _ _ _ _ Hd H) as [Heq _].
        exfalso. apply Hk. symmetry. exact Heq.
  - rewrite (line_not_defines e l Hn). split.
    + intros H. right. split; [intros v'; apply Hn|exact H].
    + intros [H|[_ H]]; [exfalso; apply (Hn k v); exact H|exact H].
Qed.

Lemma fold_line_lookup (ls : list Config.jsstring) :
  forall (e : Config.env) (k v : Config.jsstring),
    fold_left Config.line ls e k = Some v
    <-> defined_last ls k v
        \/ ((forall l, In l ls -> forall v', ~ defines l k v') /\ e k = Some v).
Proof.
  induction ls as [|l ls IH]; intros e k v; simpl.
  - split.
    + intros H. right. split; [intros l []|exact H].
    + intros [(pre & l & later & H & _)|[_ H]]; [|exact H].
      destruct pre; discriminate H.
  - rewrite IH, line_lookup. split.
    + intros [(pre & l0 & later & -> & Hd & Hpost)|[Hnone [Hd|[Hn He]]]].
      * left. exists (l :: pre), l0, later. repeat split; assumption.
      * left. exists [], l, ls. repeat split; assumption.
      * right. split; [|exact He]. intros l' [<-|Hin]; [exact Hn|apply Hnone; exact Hin].
    + intros [(pre & l0 & later & Heq & Hd & Hpost)|[Hnone He]].
      * destruct pre as [|l' pre]; simpl in Heq; injection Heq as -> ->.
        -- right. split; [exact Hpost|]. left. exact Hd.
        -- left. exists pre, l0, later. repeat split; assumption.
      * right. split; [intros l' Hin; apply Hnone; right; exact Hin|].
        right. split; [apply Hnone; left; reflexivity|exact He].
Qed.

Lemma split_lines (s : Config.jsstring) :
  forall l, In l (Config.split s) -> ~ In 10%N l.
Proof.
  induction s as [|c s IH]; intros l Hl; simpl in Hl.
  - destruct Hl as [<-|[]]. intros [].
  - destruct (c =? 10)%N eqn:E.
    + destruct Hl as [<-|Hl]; [intros []|apply IH; exact Hl].
    + destruct (Config.split s) as [|l0 ls]; simpl in Hl.
      * destruct Hl as [<-|[]]. intros [H|[]]. subst c. discriminate E.
      * destruct Hl as [<-|Hl].
        -- intros [H|H]; [subst c; discriminate E|].
           apply (IH l0); [left; reflexivity|exact H].
        -- apply IH. right. exact Hl.
Qed.

(** X19. One line of the file. Surrounded by any white space, a key, an
    [=] and a value define the key as the value, white space around each
    ignored: the key is any text without [=], not empty, not starting with
    [#] and other than ["__proto__"]; the value is any non-empty text, [=]
    included. A line that is blank, starts with [#] or holds no [=] defines
    nothing. *)
Theorem loadEnvFile_line (e : Config.env) (l : Config.jsstring) :
  (forall ws1 k ws2 ws3 v ws4,
      blank ws1 -> blank ws2 -> blank ws3 -> blank ws4 ->
      tight k -> k <> [] -> ~ In 61%N k -> Config.startsWith_hash k = false ->
      k <> Config.str "__proto__" ->
      tight v -> v <> [] ->
      l = (ws1 ++ k ++ ws2 ++ [61%N] ++ ws3 ++ v ++ ws4)%list ->
      Config.line e l k = Some v
      /\ forall k', k' <> k -> Config.line e l k' = e k')
  /\ (blank l \/ Config.startsWith_hash (Config.trim l) = true \/ ~ In 61%N l ->
      Config.line e l = e).
Proof.
  split.
  - intros ws1 k ws2 ws3 v ws4 H1 H2 H3 H4 Hk Hkne Hkeq Hkh Hkp Hv Hvne ->.
    assert (Hd : defines (ws1 ++ k ++ ws2 ++ [61%N] ++ ws3 ++ v ++ ws4) k v).
    { exists (k ++ ws2)%list, (ws3 ++ v)%list.
      assert (Hblank61 : forall ws, blank ws -> ~ In 61%N ws).
      { intros ws Hws Hin. unfold blank in Hws. rewrite Forall_forall in Hws.
        specialize (Hws _ Hin). discriminate Hws. }
      repeat split.
      - replace (ws1 ++ k ++ ws2 ++ [61%N] ++ ws3 ++ v ++ ws4)%list
          with (ws1 ++ (k ++ ws2 ++ 61%N :: ws3 ++ v) ++ ws4)%list
          by reassoc.
        rewrite trim_padded; try assumption.
        + reassoc.
        + split.
          * intros c rest Hc. destruct k as [|c' k']; [contradiction|].
            injection Hc as <- _. eapply (proj1 Hk). reflexivity.
          * intros c pre Hc.
            destruct (@exists_last N v Hvne) as (v' & d & ->).
            replace (k ++ ws2 ++ 61%N :: ws3 ++ v' ++ [d])%list
              with ((k ++ ws2 ++ 61%N :: ws3 ++ v') ++ [d])%list in Hc
              by reassoc.
            apply app_inj_tail in Hc as [_ <-]. eapply (proj2 Hv). reflexivity.
      - intros Hin. apply in_app_or in Hin as [Hin|Hin];
          [apply Hkeq; exact Hin|apply (Hblank61 ws2 H2); exact Hin].
      - destruct k; [contradiction|discriminate].
      - rewrite startsWith_hash_app by exact Hkne. exact Hkh.
      - symmetry. apply (trim_padded [] k ws2); [constructor|exact H2|exact Hk].
      - symmetry. replace (ws3 ++ v) with (ws3 ++ v ++ [])
          by (rewrite app_nil_r; reflexivity).
        apply trim_padded; [exact H3|constructor|exact Hv].
      - exact Hvne.
      - exact Hkp. }
    rewrite (line_defines e _ k v Hd). split.
    + rewrite (proj2 (jsstring_eqb_spec k k) eq_refl). reflexivity.
    + intros k' Hk'. rewrite (jsstring_eqb_neq _ _ Hk'). reflexivity.
  - intros H. apply line_not_defines. intros k v (a & b & Hl & Ha & Hne & Hh & _).
    destruct H as [H|[H|H]].
    + destruct (trim_split l) as (ws & ws' & _ & _ & Hs).
      assert (Hb : blank (Config.trim l)).
      { unfold blank in *. rewrite Hs in H. apply Forall_app in H as [_ H].
        apply Forall_app in H as [H _]. exact H. }
      rewrite Hl in Hb. unfold blank in Hb. rewrite Forall_forall in Hb.
      specialize (Hb 61%N). discriminate Hb. apply in_or_app. right. left. reflexivity.
    + rewrite Hl, startsWith_hash_app, Hh in H by exact Hne. discriminate.
    + apply H. apply trim_incl. rewrite Hl. apply in_or_app. right. left. reflexivity.
Qed.

Lemma tight_check (s : Config.jsstring) :
  match s with [] => true | c :: _ => negb (Config.isWhiteSpace c) end
  && match rev s with [] => true | c :: _ => negb (Config.isWhiteSpace c) end = true ->
  tight s.
Proof.
  intros H. apply andb_true_iff in H as [Hh Hl]. split.
  - intros c rest ->. apply negb_true_iff. exact Hh.
  - intros c pre ->. rewrite rev_app_distr in Hl. apply negb_true_iff. exact Hl.
Qed.

Lemma loadEnvFile_line_witness :
  let l := Config.str "  SECRET_CODE = a=b " ++ [13%N] in
  Config.line Config.empty l (Config.str "SECRET_CODE") = Some (Config.str "a=b").
Proof.
  intros l.
  apply (proj1 (loadEnvFile_line Config.empty l)
           (Config.str "  ") (Config.str "SECRET_CODE") (Config.str " ") (Config.str " ")
           (Config.str "a=b") (Config.str " " ++ [13%N])).
  - repeat constructor.
  - repeat constructor.
  - repeat constructor.
  - repeat constructor.
  - apply tight_check. reflexivity.
  - discriminate.
  - intros H. simpl in H. repeat (destruct H as [H|H]; [discriminate H|]). exact H.
  - reflexivity.
  - discriminate.
  - apply tight_check. reflexivity.
  - discriminate.
  - reflexivity.
Defined.

(** X20. The object [loadEnvFile] returns for a file it can read has
    exactly the keys that some line of the file defines, each with the
    value of the last line that defines it. *)
Theorem loadEnvFile_last_definition_wins (content : Config.jsstring) :
  exists e,
    Config.loadEnvFile (Config.Text content) = Some e
    /\ forall k v, e k = Some v <-> defined_last (Config.split content) k v.
Proof.
  eexists. split; [reflexivity|]. intros k v.
  rewrite fold_line_lookup. split.
  - intros [H|[_ H]]; [exact H|discriminate H].
  - intros H. left. exact H.
Qed.

(** X21. Whatever the file, a key of the object [loadEnvFile] returns is
    not empty, has no white space at either end, holds no [=] and no line
    feed, does not start with [#] and is not ["__proto__"]; its value is
    not empty, has no white space at either end and holds no line feed. A
    missing file gives an object without keys. *)
Theorem loadEnvFile_entries (f : Config.file) (e : Config.env)
    (k v : Config.jsstring) :
  Config.loadEnvFile f = Some e ->
  e k = Some v ->
  f <> Config.Missing
  /\ k <> [] /\ tight k /\ ~ In 61%N k /\ ~ In 10%N k
  /\ Config.startsWith_hash k = false /\ k <> Config.str "__proto__"
  /\ v <> [] /\ tight v /\ ~ In 10%N v.
Proof.
  intros Hf He. destruct f as [| |content]; simpl in Hf.
  - injection Hf as <-. discriminate He.
  - discriminate Hf.
  - split; [discriminate|]. injection Hf as <-.
    apply fold_line_lookup in He as [(pre & l & later & Hls & Hd & _)|[_ He]];
      [|discriminate He].
    assert (Hl : ~ In 10%N l).
    { apply (split_lines content). rewrite Hls. apply in_or_app. right. left. reflexivity. }
    destruct Hd as (a & b & Htl & Ha & Hne & Hh & -> & -> & Hv & Hk).
    destruct a as [|c a']; [contradiction|].
    assert (Hc : Config.isWhiteSpace c = false).
    { destruct (trim_tight l) as [Hhead _]. rewrite Htl in Hhead.
      apply (Hhead c (a' ++ 61%N :: b)). reflexivity. }
    destruct (trim_head c a' Hc) as (rest' & Hrest).
    assert (Hin : forall x, In x (c :: a') \/ In x b -> In x l).
    { intros x Hx. apply trim_incl. rewrite Htl. apply in_or_app.
      destruct Hx as [Hx|Hx]; [left; exact Hx|right; right; exact Hx]. }
    repeat split.
    + apply trim_nonempty. exact Hc.
    + apply (proj1 (trim_tight (c :: a'))).
    + apply (proj2 (trim_tight (c :: a'))).
    + intros H. apply Ha. apply trim_incl. exact H.
    + intros H. apply Hl. apply Hin. left. apply trim_incl. exact H.
    + rewrite Hrest. exact Hh.
    + exact Hk.
    + exact Hv.
    + apply (proj1 (trim_tight b)).
    + apply (proj2 (trim_tight b)).
    + intros H. apply Hl. apply Hin. right. apply trim_incl. exact H.
Qed.

Lemma loadEnvFile_entries_witness :
  tight (Config.str "SECRET_CODE") /\ Config.str "beta" <> [].
Proof.
  destruct (loadEnvFile_entries (Config.Text env_sample)
              (fold_left Config.line (Config.split env_sample) Config.empty)
              (Config.str "SECRET_CODE") (Config.str "beta"))
    as (_ & _ & Hk & _ & _ & _ & _ & Hv & _).
  - reflexivity.
  - vm_compute. reflexivity.
  - split; assumption.
Defined.

Example loadEnvFile_sample :
  let e := fold_left Config.line (Config.split env_sample) Config.empty in
  Config.loadEnvFile (Config.Text env_sample) = Some e
  /\ e (Config.str "SECRET_CODE") = Some (Config.str "beta")
  /\ e (Config.str "URL") = Some (Config.str "http://x/?a=b")
  /\ e (Config.str "# settings") = None.
Proof. repeat split; vm_compute; reflexivity. Qed.

End EnvFile.

(** ** Errors, route by route *)































